(** * hono-audio-api: the WAV codec and the VAD segmentation pipeline

    A shallow embedding of [src/lib/audio/audio-service.ts] (class
    [AudioService]) and [src/services/vad-service.ts] (class [VADService]),
    with the properties the design document states about them.

    Conventions.
    - An [ArrayBuffer] is a [list byte]; a [DataView] access outside the
      buffer raises [RangeError], as in ECMAScript.
    - An [Int16Array] is a [list Z] of values in [-32768, 32767]; typed
      arrays are read and written little-endian (the byte order of every
      platform the service is built for).
    - Integer-valued JavaScript numbers (offsets, sizes, counts) are [Z];
      numbers that are genuinely fractional (times, probabilities,
      percentages) live in a type [F] with the interface [JSNumber], which
      has two instances: IEEE binary64 ([float]) and exact rationals ([Q]).
    - A JavaScript exception is the [Throw] branch of [result]. *)

From Stdlib Require Import ZArith List Bool Lia String Ascii QArith Sorted.
From Stdlib Require Import PrimFloat Uint63.
From Stdlib Require Strings.Byte.
Import ListNotations.

Local Open Scope Z_scope.

(* ================================================================== *)
(** ** Exceptions *)

Inductive exn : Type :=
| Error (message : string)
| RangeError.

Inductive result (A : Type) : Type :=
| Ok (a : A)
| Throw (e : exn).

Arguments Ok {A} a.
Arguments Throw {A} e.

Definition bind {A B : Type} (r : result A) (k : A -> result B) : result B :=
  match r with
  | Ok a => k a
  | Throw e => Throw e
  end.

Notation "x <- r ;; k" := (bind r (fun x => k))
  (at level 61, r at next level, right associativity).

(* ================================================================== *)
(** ** JavaScript numbers *)

Class JSNumber (F : Type) : Type := {
  of_Z : Z -> F;
  add : F -> F -> F;
  sub : F -> F -> F;
  mul : F -> F -> F;
  div : F -> F -> F;
  geb : F -> F -> bool   (* [geb a b] is the JavaScript [a >= b] *)
}.

(** IEEE 754 binary64, the numbers JavaScript computes with.  The
    conversion is exact for the integers the code converts (counts and
    offsets, all below 2^53). *)
Definition float_of_Z (z : Z) : float :=
  if z <? 0 then PrimFloat.opp (PrimFloat.of_uint63 (Uint63.of_Z (- z)))
  else PrimFloat.of_uint63 (Uint63.of_Z z).

#[global] Instance float_number : JSNumber float := {
  of_Z := float_of_Z;
  add := PrimFloat.add;
  sub := PrimFloat.sub;
  mul := PrimFloat.mul;
  div := PrimFloat.div;
  geb := fun a b => PrimFloat.leb b a
}.

(** Exact rational arithmetic, for the properties that are about order. *)
#[global] Instance Q_number : JSNumber Q := {
  of_Z := inject_Z;
  add := Qplus;
  sub := Qminus;
  mul := Qmult;
  div := Qdiv;
  geb := fun a b => Qle_bool b a
}.

(* ================================================================== *)
(** ** Bytes, buffers and views *)

Abbreviation byte := Byte.byte.

Definition ArrayBuffer : Type := list byte.
Definition Int16Array : Type := list Z.

Definition byteLength (buffer : ArrayBuffer) : Z := Z.of_nat (List.length buffer).

Definition u8 (b : byte) : Z := Z.of_N (Byte.to_N b).

Definition to_u8 (z : Z) : byte :=
  match Byte.of_N (Z.to_N (z mod 256)) with
  | Some b => b
  | None => Byte.x00
  end.

Arguments to_u8 : simpl never.

Definition is_int16 (s : Z) : Prop := -32768 <= s <= 32767.

(** Little-endian encodings: [setUint16(_, v, true)], [setUint32(_, v, true)]
    and the element store of an [Int16Array]; each wraps modulo its width. *)
Definition le16 (v : Z) : list byte := [to_u8 v; to_u8 (v / 256)].

Definition le32 (v : Z) : list byte :=
  [to_u8 v; to_u8 (v / 256); to_u8 (v / 65536); to_u8 (v / 16777216)].

Definition of_le16 (b0 b1 : byte) : Z := u8 b0 + 256 * u8 b1.

Definition of_le32 (b0 b1 b2 b3 : byte) : Z :=
  u8 b0 + 256 * u8 b1 + 65536 * u8 b2 + 16777216 * u8 b3.

Definition int16_of_le (b0 b1 : byte) : Z :=
  let u := of_le16 b0 b1 in if u <? 32768 then u else u - 65536.

Fixpoint int16_bytes (samples : Int16Array) : list byte :=
  match samples with
  | [] => []
  | s :: rest => le16 s ++ int16_bytes rest
  end.

Fixpoint int16_elements (bytes : list byte) : Int16Array :=
  match bytes with
  | b0 :: b1 :: rest => int16_of_le b0 b1 :: int16_elements rest
  | _ => []
  end.

(** [view.getUint8(o)] *)
Definition getUint8 (view : ArrayBuffer) (o : Z) : result Z :=
  if (0 <=? o) && (o + 1 <=? byteLength view) then
    match nth_error view (Z.to_nat o) with
    | Some b => Ok (u8 b)
    | None => Throw RangeError
    end
  else Throw RangeError.

(** [view.getUint16(o, true)] *)
Definition getUint16 (view : ArrayBuffer) (o : Z) : result Z :=
  if (0 <=? o) && (o + 2 <=? byteLength view) then
    match skipn (Z.to_nat o) view with
    | b0 :: b1 :: _ => Ok (of_le16 b0 b1)
    | _ => Throw RangeError
    end
  else Throw RangeError.

(** [view.getUint32(o, true)] *)
Definition getUint32 (view : ArrayBuffer) (o : Z) : result Z :=
  if (0 <=? o) && (o + 4 <=? byteLength view) then
    match skipn (Z.to_nat o) view with
    | b0 :: b1 :: b2 :: b3 :: _ => Ok (of_le32 b0 b1 b2 b3)
    | _ => Throw RangeError
    end
  else Throw RangeError.

(** [String.fromCharCode(view.getUint8(o), ..., view.getUint8(o + 3))] *)
Definition fourCC (view : ArrayBuffer) (o : Z) : result string :=
  c0 <- getUint8 view o ;;
  c1 <- getUint8 view (o + 1) ;;
  c2 <- getUint8 view (o + 2) ;;
  c3 <- getUint8 view (o + 3) ;;
  Ok (string_of_list_byte [to_u8 c0; to_u8 c1; to_u8 c2; to_u8 c3]).

(** Storing [bytes] at offset [o]: the common part of the [DataView] setters
    and of [TypedArray.prototype.set]. *)
Definition splice {A : Type} (target : list A) (o : nat) (source : list A) : list A :=
  firstn o target ++ source ++ skipn (o + List.length source) target.

Definition store {A : Type} (target : list A) (o : Z) (source : list A) : result (list A) :=
  if (0 <=? o) && (o + Z.of_nat (List.length source) <=? Z.of_nat (List.length target)) then
    Ok (splice target (Z.to_nat o) source)
  else Throw RangeError.

Definition setUint8 (buffer : ArrayBuffer) (o v : Z) : result ArrayBuffer :=
  store buffer o [to_u8 v].

Definition setUint16 (buffer : ArrayBuffer) (o v : Z) : result ArrayBuffer :=
  store buffer o (le16 v).

Definition setUint32 (buffer : ArrayBuffer) (o v : Z) : result ArrayBuffer :=
  store buffer o (le32 v).

(** [new ArrayBuffer(n)]: [n] zero bytes; [new Int16Array(n)]: [n] zeros. *)
Definition newArrayBuffer (n : Z) : ArrayBuffer := repeat Byte.x00 (Z.to_nat n).

Definition newInt16Array (n : Z) : Int16Array := repeat 0 (Z.to_nat n).

(** [new Int16Array(buffer, byteOffset)] followed by [.set(source)]: the
    view covers the buffer from [byteOffset] to its end, and [set] stores
    the elements of [source] from the start of the view. *)
Definition setInt16View (buffer : ArrayBuffer) (byteOffset : Z) (source : Int16Array)
  : result ArrayBuffer :=
  if (byteOffset mod 2 =? 0) && ((byteLength buffer - byteOffset) mod 2 =? 0)
     && (byteOffset <=? byteLength buffer) then
    store buffer byteOffset (int16_bytes source)
  else Throw RangeError.

(** [buffer.slice(first, final)] for non-negative arguments: both ends are
    clamped to the buffer. *)
Definition slice {A : Type} (l : list A) (first final : Z) : list A :=
  let len := Z.of_nat (List.length l) in
  let a := Z.min first len in
  let b := Z.min final len in
  firstn (Z.to_nat (Z.max (b - a) 0)) (skipn (Z.to_nat a) l).

(** [new Int16Array(buffer)]: the byte length must be even. *)
Definition Int16Array_of_buffer (buffer : ArrayBuffer) : result Int16Array :=
  if byteLength buffer mod 2 =? 0 then Ok (int16_elements buffer)
  else Throw RangeError.

(* ================================================================== *)
(** ** Records of [src/lib/audio/types.ts], as the code builds them *)

Record WAVInfo (F : Type) : Type := {
  sampleRate : Z;
  channels : Z;
  bitsPerSample : Z;
  dataOffset : Z;
  dataSize : Z;
  totalSamples : F;
  samplesPerChannel : F
}.

Arguments sampleRate {F} _.
Arguments channels {F} _.
Arguments bitsPerSample {F} _.
Arguments dataOffset {F} _.
Arguments dataSize {F} _.
Arguments totalSamples {F} _.
Arguments samplesPerChannel {F} _.

Record AudioSegment (F : Type) : Type := {
  startFrame : Z;
  endFrame : Z;
  startTime : F;
  endTime : F;
  data : Int16Array;
  isSpeech : bool;
  probability : F
}.

Arguments startFrame {F} _.
Arguments endFrame {F} _.
Arguments startTime {F} _.
Arguments endTime {F} _.
Arguments data {F} _.
Arguments isSpeech {F} _.
Arguments probability {F} _.

(* ================================================================== *)
(** ** [class AudioService] *)

Module AudioService.

(** The local variables of [parseWAVHeader]'s chunk walk. *)
Record locals : Type := {
  l_offset : Z;
  l_dataOffset : Z;
  l_dataSize : Z;
  l_sampleRate : Z;
  l_channels : Z;
  l_bitsPerSample : Z
}.

Definition initial : locals :=
  {| l_offset := 12; l_dataOffset := -1; l_dataSize := 0;
     l_sampleRate := 0; l_channels := 0; l_bitsPerSample := 0 |}.

(** [offset += 8 + chunkSize; if (chunkSize % 2 === 1) offset++] *)
Definition next_offset (offset chunkSize : Z) : Z :=
  let offset' := offset + (8 + chunkSize) in
  if chunkSize mod 2 =? 1 then offset' + 1 else offset'.

Inductive iteration : Type :=
| Continue (l : locals)
| Break (l : locals).

(** One iteration of the [while] loop, entered at [l_offset l]. *)
Definition chunk_step (view : ArrayBuffer) (l : locals) : result iteration :=
  let offset := l_offset l in
  chunkId <- fourCC view offset ;;
  chunkSize <- getUint32 view (offset + 4) ;;
  if (chunkId =? "fmt ")%string then
    audioFormat <- getUint16 view (offset + 8) ;;
    channels <- getUint16 view (offset + 10) ;;
    sampleRate <- getUint32 view (offset + 12) ;;
    bitsPerSample <- getUint16 view (offset + 22) ;;
    if negb (audioFormat =? 1) then
      Throw (Error "Unsupported WAV format: only PCM is supported")
    else if negb (bitsPerSample =? 16) then
      Throw (Error "Unsupported bit depth: only 16-bit is supported")
    else
      Ok (Continue {| l_offset := next_offset offset chunkSize;
                      l_dataOffset := l_dataOffset l;
                      l_dataSize := l_dataSize l;
                      l_sampleRate := sampleRate;
                      l_channels := channels;
                      l_bitsPerSample := bitsPerSample |})
  else if (chunkId =? "data")%string then
    Ok (Break {| l_offset := offset;
                 l_dataOffset := offset + 8;
                 l_dataSize := chunkSize;
                 l_sampleRate := l_sampleRate l;
                 l_channels := l_channels l;
                 l_bitsPerSample := l_bitsPerSample l |})
  else
    Ok (Continue {| l_offset := next_offset offset chunkSize;
                    l_dataOffset := l_dataOffset l;
                    l_dataSize := l_dataSize l;
                    l_sampleRate := l_sampleRate l;
                    l_channels := l_channels l;
                    l_bitsPerSample := l_bitsPerSample l |}).

(** [while (offset < buffer.byteLength - 8) { ... }].  Every iteration moves
    [offset] forward by at least 8, so [fuel] iterations are enough as soon
    as [byteLength - 8 - offset <= fuel]; [None] is running out of fuel. *)
Fixpoint chunk_loop (fuel : nat) (view : ArrayBuffer) (l : locals)
  : option (result locals) :=
  if l_offset l <? byteLength view - 8 then
    match fuel with
    | O => None
    | S fuel' =>
        match chunk_step view l with
        | Throw e => Some (Throw e)
        | Ok (Break l') => Some (Ok l')
        | Ok (Continue l') => chunk_loop fuel' view l'
        end
    end
  else Some (Ok l).

Section WithNumbers.

Context {F : Type} {number : JSNumber F}.

Definition parseWAVHeader (buffer : ArrayBuffer) : result (WAVInfo F) :=
  riffHeader <- fourCC buffer 0 ;;
  if negb (riffHeader =? "RIFF")%string then
    Throw (Error "Invalid WAV file: missing RIFF header")
  else
    waveHeader <- fourCC buffer 8 ;;
    if negb (waveHeader =? "WAVE")%string then
      Throw (Error "Invalid WAV file: not WAVE format")
    else
      match chunk_loop (List.length buffer) buffer initial with
      | None => Throw RangeError (* never taken: [chunk_loop_total] *)
      | Some walked =>
          l <- walked ;;
          if l_dataOffset l =? -1 then
            Throw (Error "Invalid WAV file: no data chunk found")
          else
            Ok {| sampleRate := l_sampleRate l;
                  channels := l_channels l;
                  bitsPerSample := l_bitsPerSample l;
                  dataOffset := l_dataOffset l;
                  dataSize := l_dataSize l;
                  totalSamples :=
                    div (of_Z (l_dataSize l)) (div (of_Z (l_bitsPerSample l)) (of_Z 8));
                  samplesPerChannel :=
                    div (div (of_Z (l_dataSize l)) (div (of_Z (l_bitsPerSample l)) (of_Z 8)))
                        (of_Z (l_channels l)) |}
      end.

Definition extractMonoAudio (buffer : ArrayBuffer) (wavInfo : WAVInfo F)
  : result Int16Array :=
  let audioBuffer :=
    slice buffer (dataOffset wavInfo) (dataOffset wavInfo + dataSize wavInfo) in
  rawAudioData <- Int16Array_of_buffer audioBuffer ;;
  if 1 <? channels wavInfo then
    let samplesPerChannel := Z.of_nat (List.length rawAudioData) / channels wavInfo in
    Ok (map (fun i => nth (i * Z.to_nat (channels wavInfo)) rawAudioData 0)
            (seq 0 (Z.to_nat samplesPerChannel)))
  else Ok rawAudioData.

(** The [for ... of] loop of [mergeAudioSegments]: [mergedData.set] at a
    running [offset]. *)
Fixpoint merge_loop (segments : list (AudioSegment F)) (mergedData : Int16Array)
    (offset : Z) : result Int16Array :=
  match segments with
  | [] => Ok mergedData
  | segment :: rest =>
      mergedData' <- store mergedData offset (data segment) ;;
      merge_loop rest mergedData' (offset + Z.of_nat (List.length (data segment)))
  end.

Definition mergeAudioSegments (segments : list (AudioSegment F)) : result Int16Array :=
  if Z.of_nat (List.length segments) =? 0 then Ok (newInt16Array 0)
  else
    let totalLength :=
      fold_left (fun sum segment => sum + Z.of_nat (List.length (data segment)))
                segments 0 in
    merge_loop segments (newInt16Array totalLength) 0.

Definition calculateDuration (audioData : Int16Array) (sampleRate : F) : F :=
  div (of_Z (Z.of_nat (List.length audioData))) sampleRate.

Definition filterSpeechSegments (segments : list (AudioSegment F))
    (minDurationMs minProbability : F) : list (AudioSegment F) :=
  filter (fun segment =>
            let durationMs := mul (sub (endTime segment) (startTime segment)) (of_Z 1000) in
            isSpeech segment && geb durationMs minDurationMs
            && geb (probability segment) minProbability)
         segments.

End WithNumbers.

(** [createWAVBuffer(audioData, sampleRate, channels)]; the numeric
    arguments are taken integer-valued, and the [DataView] setters wrap
    them to the width of the field.  The products are integer products,
    which is what binary64 computes as long as [sampleRate * channels]
    stays within [2^53]. *)
Definition createWAVBuffer (audioData : Int16Array) (sampleRate channels : Z)
  : result ArrayBuffer :=
  let bitsPerSample := 16 in
  let bytesPerSample := bitsPerSample / 8 in
  let dataSize := Z.of_nat (List.length audioData) * bytesPerSample in
  let headerSize := 44 in
  let totalSize := headerSize + dataSize in
  let buffer := newArrayBuffer totalSize in
  (* RIFF header *)
  buffer <- setUint8 buffer 0 0x52 ;;
  buffer <- setUint8 buffer 1 0x49 ;;
  buffer <- setUint8 buffer 2 0x46 ;;
  buffer <- setUint8 buffer 3 0x46 ;;
  buffer <- setUint32 buffer 4 (totalSize - 8) ;;
  buffer <- setUint8 buffer 8 0x57 ;;
  buffer <- setUint8 buffer 9 0x41 ;;
  buffer <- setUint8 buffer 10 0x56 ;;
  buffer <- setUint8 buffer 11 0x45 ;;
  (* fmt chunk *)
  buffer <- setUint8 buffer 12 0x66 ;;
  buffer <- setUint8 buffer 13 0x6D ;;
  buffer <- setUint8 buffer 14 0x74 ;;
  buffer <- setUint8 buffer 15 0x20 ;;
  buffer <- setUint32 buffer 16 16 ;;
  buffer <- setUint16 buffer 20 1 ;;
  buffer <- setUint16 buffer 22 channels ;;
  buffer <- setUint32 buffer 24 sampleRate ;;
  buffer <- setUint32 buffer 28 (sampleRate * channels * bytesPerSample) ;;
  buffer <- setUint16 buffer 32 (channels * bytesPerSample) ;;
  buffer <- setUint16 buffer 34 bitsPerSample ;;
  (* data chunk *)
  buffer <- setUint8 buffer 36 0x64 ;;
  buffer <- setUint8 buffer 37 0x61 ;;
  buffer <- setUint8 buffer 38 0x74 ;;
  buffer <- setUint8 buffer 39 0x61 ;;
  buffer <- setUint32 buffer 40 dataSize ;;
  (* audio data *)
  setInt16View buffer headerSize audioData.

End AudioService.

(* ================================================================== *)
(** ** [src/lib/vad/vadLoader.ts]: the classifier's interface *)

Module VAD.

Definition HOP_SIZE : Z := 256.

(** What [processAudioFrame] returns for one frame. *)
Record VADResult (F : Type) : Type := {
  probability : F;
  isSpeech : bool
}.

Arguments probability {F} _.
Arguments isSpeech {F} _.

End VAD.

(** What [processAudioWithVAD] returns ([VADResult] of
    [src/lib/audio/types.ts]); [processingTime], a wall-clock difference,
    is left out. *)
Record VADResult (F : Type) : Type := {
  totalFrames : Z;
  speechFrames : Z;
  speechPercentage : F;
  hasSpeech : bool;
  avgProbability : F;
  segments : list (AudioSegment F)
}.

Arguments totalFrames {F} _.
Arguments speechFrames {F} _.
Arguments speechPercentage {F} _.
Arguments hasSpeech {F} _.
Arguments avgProbability {F} _.
Arguments segments {F} _.

(** What [extractSpeechSegments] returns. *)
Record Extraction (F : Type) : Type := {
  originalBuffer : ArrayBuffer;
  processedBuffer : ArrayBuffer;
  vadResult : VADResult F;
  speechFound : bool
}.

Arguments originalBuffer {F} _.
Arguments processedBuffer {F} _.
Arguments vadResult {F} _.
Arguments speechFound {F} _.

(* ================================================================== *)
(** ** [class VADService] *)

Module VADService.

Section WithClassifier.

Context {F : Type} {number : JSNumber F}.

(** The classifier is an external engine with a state of its own:
    [processAudioFrame] returns a frame result or throws, and moves the
    engine to its next state; [initializeVAD] creates the engine. *)
Context {Engine : Type}.
Variable initializeVAD : result Engine.
Variable processAudioFrame : Engine -> Int16Array -> result (VAD.VADResult F) * Engine.

(** The variables the frame loop of [processAudioWithVAD] updates. *)
Record accumulator : Type := {
  a_engine : Engine;
  a_speechFrames : Z;
  a_totalProbability : F;
  a_segments : list (AudioSegment F);
  a_currentSegment : option (AudioSegment F)
}.

(** [audioData.slice(frameStart, frameEnd)], then "Pad frame if necessary". *)
Definition frame_data (audioData : Int16Array) (frameStart frameEnd : Z)
  : result Int16Array :=
  let frameData := slice audioData frameStart frameEnd in
  if Z.of_nat (List.length frameData) <? VAD.HOP_SIZE then
    paddedFrame <- store (newInt16Array VAD.HOP_SIZE) 0 frameData ;;
    store frameData 0 paddedFrame
  else Ok frameData.

(** The [try] block for one classified frame. *)
Definition on_result (sampleRate : F) (frameStart frameEnd : Z) (frameData : Int16Array)
    (result : VAD.VADResult F) (engine : Engine) (a : accumulator) : accumulator :=
  let totalProbability := add (a_totalProbability a) (VAD.probability result) in
  let frameTime := div (of_Z frameStart) sampleRate in
  if VAD.isSpeech result then
    match a_currentSegment a with
    | None =>
        {| a_engine := engine;
           a_speechFrames := a_speechFrames a + 1;
           a_totalProbability := totalProbability;
           a_segments := a_segments a;
           a_currentSegment :=
             Some {| startFrame := frameStart;
                     endFrame := frameEnd;
                     startTime := frameTime;
                     endTime := add frameTime (div (of_Z VAD.HOP_SIZE) sampleRate);
                     data := frameData;
                     isSpeech := true;
                     probability := VAD.probability result |} |}
    | Some currentSegment =>
        {| a_engine := engine;
           a_speechFrames := a_speechFrames a + 1;
           a_totalProbability := totalProbability;
           a_segments := a_segments a;
           a_currentSegment :=
             Some {| startFrame := startFrame currentSegment;
                     endFrame := frameEnd;
                     startTime := startTime currentSegment;
                     endTime := add frameTime (div (of_Z VAD.HOP_SIZE) sampleRate);
                     data := data currentSegment ++ frameData;
                     isSpeech := isSpeech currentSegment;
                     probability :=
                       div (add (probability currentSegment) (VAD.probability result))
                           (of_Z 2) |} |}
    end
  else
    match a_currentSegment a with
    | Some currentSegment =>
        {| a_engine := engine;
           a_speechFrames := a_speechFrames a;
           a_totalProbability := totalProbability;
           a_segments := a_segments a ++ [currentSegment];
           a_currentSegment := None |}
    | None =>
        {| a_engine := engine;
           a_speechFrames := a_speechFrames a;
           a_totalProbability := totalProbability;
           a_segments := a_segments a;
           a_currentSegment := None |}
    end.

(** The [catch] block: the frame is logged and skipped. *)
Definition on_failure (engine : Engine) (a : accumulator) : accumulator :=
  {| a_engine := engine;
     a_speechFrames := a_speechFrames a;
     a_totalProbability := a_totalProbability a;
     a_segments := a_segments a;
     a_currentSegment := a_currentSegment a |}.

(** The body of [for (let i = 0; i < frameCount; i++)]. *)
Definition frame_step (audioData : Int16Array) (sampleRate : F) (i : Z)
    (a : accumulator) : result accumulator :=
  let frameStart := i * VAD.HOP_SIZE in
  let frameEnd := Z.min (frameStart + VAD.HOP_SIZE) (Z.of_nat (List.length audioData)) in
  frameData <- frame_data audioData frameStart frameEnd ;;
  match processAudioFrame (a_engine a) frameData with
  | (Ok result, engine) =>
      Ok (on_result sampleRate frameStart frameEnd frameData result engine a)
  | (Throw _, engine) => Ok (on_failure engine a)
  end.

(** The loop itself, with [remaining = frameCount - i] iterations to go. *)
Fixpoint frame_loop (remaining : nat) (audioData : Int16Array) (sampleRate : F)
    (i : Z) (a : accumulator) : result accumulator :=
  match remaining with
  | O => Ok a
  | S remaining' =>
      a' <- frame_step audioData sampleRate i a ;;
      frame_loop remaining' audioData sampleRate (i + 1) a'
  end.

(** "Don't forget the last segment" *)
Definition close_last (a : accumulator) : list (AudioSegment F) :=
  match a_currentSegment a with
  | Some currentSegment => a_segments a ++ [currentSegment]
  | None => a_segments a
  end.

Definition processAudioWithVAD (audioData : Int16Array) (sampleRate : F)
  : result (VADResult F * Engine) :=
  engine <- initializeVAD ;;
  let frameCount := Z.of_nat (List.length audioData) / VAD.HOP_SIZE in
  a <- frame_loop (Z.to_nat frameCount) audioData sampleRate 0
         {| a_engine := engine;
            a_speechFrames := 0;
            a_totalProbability := of_Z 0;
            a_segments := [];
            a_currentSegment := None |} ;;
  let speechPercentage :=
    if 0 <? frameCount
    then mul (div (of_Z (a_speechFrames a)) (of_Z frameCount)) (of_Z 100)
    else of_Z 0 in
  let avgProbability :=
    if 0 <? frameCount
    then div (a_totalProbability a) (of_Z frameCount)
    else of_Z 0 in
  Ok ({| totalFrames := frameCount;
         speechFrames := a_speechFrames a;
         speechPercentage := speechPercentage;
         hasSpeech := 0 <? a_speechFrames a;
         avgProbability := avgProbability;
         segments := close_last a |},
      a_engine a).

(** [extractSpeechSegments], from the decoded [originalBuffer] on (the
    base64 decoding in front of it is the platform's). *)
Definition extractSpeechSegments (originalBuffer : ArrayBuffer)
    (minDurationMs minProbability : F) : result (Extraction F) :=
  wavInfo <- AudioService.parseWAVHeader originalBuffer ;;
  monoAudioData <- AudioService.extractMonoAudio originalBuffer wavInfo ;;
  run <- processAudioWithVAD monoAudioData (of_Z (sampleRate wavInfo)) ;;
  let vadResult := fst run in
  let filteredSegments :=
    AudioService.filterSpeechSegments (segments vadResult) minDurationMs minProbability in
  if Z.of_nat (List.length filteredSegments) =? 0 then
    Ok {| originalBuffer := originalBuffer;
          processedBuffer := originalBuffer;
          vadResult := vadResult;
          speechFound := false |}
  else
    mergedAudioData <- AudioService.mergeAudioSegments filteredSegments ;;
    processedBuffer <- AudioService.createWAVBuffer mergedAudioData (sampleRate wavInfo) 1 ;;
    Ok {| originalBuffer := originalBuffer;
          processedBuffer := processedBuffer;
          vadResult := vadResult;
          speechFound := true |}.

End WithClassifier.

End VADService.

(* ================================================================== *)
(** ** Test doubles for the classifier *)

(** A test double for the engine: it replays a script of frame outcomes,
    one per call, and fails once the script is exhausted. *)
Definition Script (F : Type) : Type := list (result (VAD.VADResult F)).

Definition replay {F : Type} (script : Script F) (frame : Int16Array)
  : result (VAD.VADResult F) * Script F :=
  match script with
  | [] => (Throw (Error "VAD processing failed"), [])
  | outcome :: rest => (outcome, rest)
  end.

Definition speech {F : Type} (p : F) : result (VAD.VADResult F) :=
  Ok {| VAD.probability := p; VAD.isSpeech := true |}.

Definition silence {F : Type} (p : F) : result (VAD.VADResult F) :=
  Ok {| VAD.probability := p; VAD.isSpeech := false |}.

(** A test double that records the frames it is given and answers
    "silence" to each. *)
Definition record {F : Type} {number : JSNumber F} (log : list Int16Array)
    (frame : Int16Array) : result (VAD.VADResult F) * list Int16Array :=
  (silence (of_Z 0), log ++ [frame]).

(* ================================================================== *)
(** ** Frames, classifications and runs *)

(** Frame [i] of a buffer: [VAD.HOP_SIZE] consecutive samples. *)
Definition frame (audioData : Int16Array) (i : Z) : Int16Array :=
  slice audioData (i * VAD.HOP_SIZE) (i * VAD.HOP_SIZE + VAD.HOP_SIZE).

Fixpoint frames_from (audioData : Int16Array) (i : Z) (n : nat) : list Int16Array :=
  match n with
  | O => []
  | S n' => frame audioData i :: frames_from audioData (i + 1) n'
  end.

(** The whole frames of a buffer, [floor(length / HOP_SIZE)] of them. *)
Definition frames (audioData : Int16Array) : list Int16Array :=
  frames_from audioData 0 (Z.to_nat (Z.of_nat (List.length audioData) / VAD.HOP_SIZE)).

Section Classifier.

Context {F : Type} {number : JSNumber F} {Engine : Type}.
Variable processAudioFrame : Engine -> Int16Array -> result (VAD.VADResult F) * Engine.

(** What the engine answers when it is given the frames [fs] in order. *)
Fixpoint classifications (engine : Engine) (fs : list Int16Array)
  : list (result (VAD.VADResult F)) :=
  match fs with
  | [] => []
  | f :: rest =>
      fst (processAudioFrame engine f)
      :: classifications (snd (processAudioFrame engine f)) rest
  end.

(** The state of the engine after it was given the frames [fs] in order. *)
Definition fed (engine : Engine) (fs : list Int16Array) : Engine :=
  fold_left (fun e f => snd (processAudioFrame e f)) fs engine.

(** One iteration of the frame loop on a whole frame, and [n] of them from
    frame [i] on. *)
Definition absorb (audioData : Int16Array) (sampleRate : F) (i : Z)
    (a : VADService.accumulator) : VADService.accumulator :=
  match processAudioFrame (VADService.a_engine a) (frame audioData i) with
  | (Ok result, engine) =>
      VADService.on_result sampleRate (i * VAD.HOP_SIZE)
        (i * VAD.HOP_SIZE + VAD.HOP_SIZE) (frame audioData i) result engine a
  | (Throw _, engine) => VADService.on_failure engine a
  end.

Fixpoint absorb_from (audioData : Int16Array) (sampleRate : F) (i : Z) (n : nat)
    (a : VADService.accumulator) : VADService.accumulator :=
  match n with
  | O => a
  | S n' => absorb_from audioData sampleRate (i + 1) n' (absorb audioData sampleRate i a)
  end.

(** The accumulator the frame loop starts from. *)
Definition start (engine : Engine) : VADService.accumulator :=
  {| VADService.a_engine := engine;
     VADService.a_speechFrames := 0;
     VADService.a_totalProbability := of_Z 0;
     VADService.a_segments := [];
     VADService.a_currentSegment := None |}.

(** Whether a segment is open, as a flag and as a count. *)
Definition is_open (a : @VADService.accumulator F Engine) : bool :=
  match VADService.a_currentSegment a with Some _ => true | None => false end.

Definition open_count (a : @VADService.accumulator F Engine) : nat :=
  if is_open a then 1 else 0.

End Classifier.

(** The speech flags of the frames that were classified; a frame whose
    classification failed has no result. *)
Fixpoint speech_flags {F : Type} (outcomes : list (result (VAD.VADResult F)))
  : list bool :=
  match outcomes with
  | [] => []
  | Ok r :: rest => VAD.isSpeech r :: speech_flags rest
  | Throw _ :: rest => speech_flags rest
  end.

(** The number of maximal runs of [true] in [flags]; [inside] tells whether
    the element before [flags] was [true]. *)
Fixpoint runs (inside : bool) (flags : list bool) : nat :=
  match flags with
  | [] => 0
  | true :: rest => (if inside then 0 else 1) + runs true rest
  | false :: rest => runs false rest
  end.

Definition speech_runs (flags : list bool) : nat := runs false flags.

(** The number of [true] in [flags]. *)
Definition speech_count (flags : list bool) : Z :=
  Z.of_nat (List.length (filter (fun b => b) flags)).

(** Segment [x] is over before segment [y] begins. *)
Definition precedes (x y : AudioSegment Q) : Prop := (endTime x <= startTime y)%Q.

(** Segments [x] and [y] overlap when some instant lies in both
    [[startTime, endTime)] intervals. *)
Definition overlap (x y : AudioSegment Q) : Prop :=
  exists t : Q,
    (startTime x <= t)%Q /\ (t < endTime x)%Q /\ (startTime y <= t)%Q /\ (t < endTime y)%Q.

(** The time at which frame [i] begins, in exact arithmetic. *)
Definition frame_time (sampleRate : Q) (i : Z) : Q :=
  (inject_Z (i * VAD.HOP_SIZE) / sampleRate)%Q.

(** The invariant of the frame loop before frame [i]: the closed segments
    are in order and over by [frame_time i], and so is the open one, which
    starts after all of them. *)
Definition ordered_upto {Engine : Type} (sampleRate : Q) (i : Z)
    (a : @VADService.accumulator Q Engine) : Prop :=
  StronglySorted precedes (VADService.a_segments a)
  /\ Forall (fun x => (endTime x <= frame_time sampleRate i)%Q) (VADService.a_segments a)
  /\ Forall (fun x => (startTime x < endTime x)%Q) (VADService.a_segments a)
  /\ match VADService.a_currentSegment a with
     | Some c =>
         Forall (fun x => precedes x c) (VADService.a_segments a)
         /\ (endTime c <= frame_time sampleRate i)%Q
         /\ (startTime c < endTime c)%Q
     | None => True
     end.



(** The smoothing step of an open segment's probability. *)
Definition smooth {F : Type} {number : JSNumber F} (old p : F) : F :=
  div (add old p) (of_Z 2).

(** The arithmetic mean, for comparison. *)
Definition mean (ps : list Q) : Q :=
  (fold_left Qplus ps 0 / inject_Z (Z.of_nat (List.length ps)))%Q.

(** The condition of the design document for a segment to survive. *)
Definition survives {F : Type} {number : JSNumber F} (minDurationMs minProbability : F)
    (segment : AudioSegment F) : Prop :=
  isSpeech segment = true
  /\ geb (mul (sub (endTime segment) (startTime segment)) (of_Z 1000)) minDurationMs = true
  /\ geb (probability segment) minProbability = true.

(** [ramp n] is the samples 1, 2, ..., n. *)
Definition ramp (n : nat) : Int16Array := map Z.of_nat (seq 1 n).

(* ================================================================== *)
(** ** Containers *)

(** [Decode(Encode(samples, sr, 1))] of the design document. *)
Definition roundtrip {F : Type} {number : JSNumber F} (samples : Int16Array)
    (sampleRate : Z) : result Int16Array :=
  buffer <- AudioService.createWAVBuffer samples sampleRate 1 ;;
  wavInfo <- AudioService.parseWAVHeader (F := F) buffer ;;
  AudioService.extractMonoAudio buffer wavInfo.

(** The 44 bytes [createWAVBuffer] writes in front of the samples, for
    [n] samples. *)
Definition wav_header (n sampleRate channels : Z) : list byte :=
  [to_u8 0x52; to_u8 0x49; to_u8 0x46; to_u8 0x46] ++ le32 (44 + n * 2 - 8)
  ++ [to_u8 0x57; to_u8 0x41; to_u8 0x56; to_u8 0x45]
  ++ [to_u8 0x66; to_u8 0x6D; to_u8 0x74; to_u8 0x20] ++ le32 16
  ++ le16 1 ++ le16 channels ++ le32 sampleRate
  ++ le32 (sampleRate * channels * 2) ++ le16 (channels * 2) ++ le16 16
  ++ [to_u8 0x64; to_u8 0x61; to_u8 0x74; to_u8 0x61] ++ le32 (n * 2).

(** The locals of the chunk walk on such a container: after the format
    chunk, and on the data chunk. *)
Definition created_after_fmt (sampleRate channels : Z) : AudioService.locals :=
  {| AudioService.l_offset := 36;
     AudioService.l_dataOffset := -1;
     AudioService.l_dataSize := 0;
     AudioService.l_sampleRate := sampleRate mod 4294967296;
     AudioService.l_channels := channels mod 65536;
     AudioService.l_bitsPerSample := 16 |}.

Definition created_at_data (n sampleRate channels : Z) : AudioService.locals :=
  {| AudioService.l_offset := 36;
     AudioService.l_dataOffset := 44;
     AudioService.l_dataSize := (n * 2) mod 4294967296;
     AudioService.l_sampleRate := sampleRate mod 4294967296;
     AudioService.l_channels := channels mod 65536;
     AudioService.l_bitsPerSample := 16 |}.

(** The header [parseWAVHeader] reads back from such a container. *)
Definition created_info {F : Type} {number : JSNumber F} (n sampleRate channels : Z)
  : WAVInfo F :=
  let dataSize := (n * 2) mod 4294967296 in
  let channels := channels mod 65536 in
  {| sampleRate := sampleRate mod 4294967296;
     channels := channels;
     bitsPerSample := 16;
     dataOffset := 44;
     dataSize := dataSize;
     totalSamples := div (of_Z dataSize) (div (of_Z 16) (of_Z 8));
     samplesPerChannel :=
       div (div (of_Z dataSize) (div (of_Z 16) (of_Z 8))) (of_Z channels) |}.

(** A container of 768 samples (three frames) at 16 kHz, and a script that
    hears speech in its first two frames. *)
Definition three_frames : ArrayBuffer :=
  wav_header 768 16000 1 ++ int16_bytes (ramp 768).

Definition two_of_three : Script Q :=
  [speech (9 # 10); speech (1 # 2); silence (1 # 10)]%Q.

(** A buffer of 2^31 samples of silence: its samples take 2^32 bytes. *)
Definition silence_4GiB : Int16Array := repeat 0 (Z.to_nat 2147483648).

(** The chunk walk of [parseWAVHeader] as a relation: [walk_from view l ids l']
    when the loop, entered with locals [l], runs one iteration per element
    of [ids] (the identifiers of the chunks it steps over), none of which
    breaks or throws, and arrives at [l']. *)
Inductive walk_from (view : ArrayBuffer)
  : AudioService.locals -> list string -> AudioService.locals -> Prop :=
| walk_done (l : AudioService.locals) : walk_from view l [] l
| walk_step (l l1 l' : AudioService.locals) (id : string) (ids : list string) :
    AudioService.l_offset l < byteLength view - 8 ->
    fourCC view (AudioService.l_offset l) = Ok id ->
    AudioService.chunk_step view l = Ok (AudioService.Continue l1) ->
    walk_from view l1 ids l' ->
    walk_from view l (id :: ids) l'.

(** [fuel] iterations of the chunk walk are enough from [l]. *)
Definition enough (view : ArrayBuffer) (fuel : nat) (l : AudioService.locals) : Prop :=
  byteLength view - 8 - AudioService.l_offset l <= Z.of_nat fuel.

(** Two malformed containers: one with a single LIST chunk of odd size,
    its padding byte and eight more bytes, which the walk does not read;
    one whose data chunk comes before a format chunk that announces 8-bit
    A-law. *)
Definition only_a_list_chunk : ArrayBuffer :=
  list_byte_of_string "RIFF" ++ le32 24 ++ list_byte_of_string "WAVE"
  ++ list_byte_of_string "LIST" ++ le32 3 ++ list_byte_of_string "abc" ++ [Byte.x00]
  ++ list_byte_of_string "12345678".

Definition data_before_fmt : ArrayBuffer :=
  list_byte_of_string "RIFF" ++ le32 52 ++ list_byte_of_string "WAVE"
  ++ list_byte_of_string "LIST" ++ le32 4 ++ list_byte_of_string "INFO"
  ++ list_byte_of_string "data" ++ le32 4 ++ int16_bytes [7; -7]
  ++ list_byte_of_string "fmt " ++ le32 16
  ++ le16 6 ++ le16 1 ++ le32 8000 ++ le32 8000 ++ le16 1 ++ le16 8.

(** A container of 24 bytes whose format chunk is cut short after the
    channel count: it has no data chunk. *)
Definition truncated_fmt : ArrayBuffer :=
  list_byte_of_string "RIFF" ++ le32 16 ++ list_byte_of_string "WAVE"
  ++ list_byte_of_string "fmt " ++ le32 16 ++ le16 1 ++ le16 1.

(* ================================================================== *)
(** ** Further notions: headers, interleaving, the route's error codes *)

(** What the chunk walk keeps true of its locals while no data chunk has
    been met: the offset is even and at least 12, the format fields are in
    the range of their width, and the bit depth is 16 once a format chunk
    has been accepted and 0 (with the other two fields) before. *)
Definition walking (l : AudioService.locals) : Prop :=
  12 <= AudioService.l_offset l
  /\ AudioService.l_offset l mod 2 = 0
  /\ AudioService.l_dataOffset l = -1
  /\ 0 <= AudioService.l_sampleRate l < 4294967296
  /\ 0 <= AudioService.l_channels l < 65536
  /\ (AudioService.l_bitsPerSample l = 16
      \/ (AudioService.l_bitsPerSample l = 0
          /\ AudioService.l_channels l = 0
          /\ AudioService.l_sampleRate l = 0)).

(** The errors [parseWAVHeader] throws by itself. *)
Definition format_errors : list exn :=
  [ Error "Invalid WAV file: missing RIFF header";
    Error "Invalid WAV file: not WAVE format";
    Error "Unsupported WAV format: only PCM is supported";
    Error "Unsupported bit depth: only 16-bit is supported";
    Error "Invalid WAV file: no data chunk found" ].

(** The number of bytes [extractMonoAudio] slices out of the buffer. *)
Definition data_region (buffer : ArrayBuffer) {F : Type} (wavInfo : WAVInfo F) : Z :=
  Z.max (Z.min (dataOffset wavInfo + dataSize wavInfo) (byteLength buffer)
         - Z.min (dataOffset wavInfo) (byteLength buffer)) 0.

(** [s.includes(sub)] *)
Fixpoint includes (s sub : string) : bool :=
  String.prefix sub s
  || match s with
     | EmptyString => false
     | String _ rest => includes rest sub
     end.

(** The [catch] block of the JSON transcription route
    ([src/api/v1/speech-to-text.ts]): the status code and the error code it
    answers for an error message. *)
Definition error_response (errorMessage : string) : Z * string :=
  if includes errorMessage "Invalid audio format"
     || includes errorMessage "Invalid WAV file"
  then (400, "INVALID_AUDIO_FORMAT"%string)
  else if includes errorMessage "OPENAI_API_KEY"
  then (401, "API_KEY_MISSING"%string)
  else if includes errorMessage "quota exceeded" || includes errorMessage "rate limit"
  then (429, "QUOTA_EXCEEDED"%string)
  else if includes errorMessage "model_not_found"
  then (503, "SERVICE_UNAVAILABLE"%string)
  else (500, "PROCESSING_ERROR"%string).

(** A container whose format chunk announces 8 bits per sample. *)
Definition eight_bit_container : ArrayBuffer :=
  list_byte_of_string "RIFF" ++ le32 40 ++ list_byte_of_string "WAVE"
  ++ list_byte_of_string "fmt " ++ le32 16
  ++ le16 1 ++ le16 1 ++ le32 8000 ++ le32 8000 ++ le16 1 ++ le16 8
  ++ list_byte_of_string "data" ++ le32 4 ++ [Byte.x01; Byte.x02; Byte.x03; Byte.x04].

(** The shape of a segment cut out of [audioData] by whole frames that end
    by sample [limit]: it is marked as speech, it begins and ends on frame
    boundaries, its samples are samples of the buffer, a positive number of
    whole frames of them and no more than the segment spans, and its times
    are its first sample and the first sample of its last frame plus one
    hop, divided by the rate. *)
Definition framed {F : Type} {number : JSNumber F} (audioData : Int16Array)
    (sampleRate : F) (limit : Z) (s : AudioSegment F) : Prop :=
  isSpeech s = true
  /\ 0 <= startFrame s
  /\ startFrame s mod VAD.HOP_SIZE = 0
  /\ endFrame s mod VAD.HOP_SIZE = 0
  /\ startFrame s < endFrame s <= limit
  /\ 0 < Z.of_nat (List.length (data s)) <= endFrame s - startFrame s
  /\ Z.of_nat (List.length (data s)) mod VAD.HOP_SIZE = 0
  /\ incl (data s) audioData
  /\ startTime s = div (of_Z (startFrame s)) sampleRate
  /\ endTime s
     = add (div (of_Z (endFrame s - VAD.HOP_SIZE)) sampleRate)
           (div (of_Z VAD.HOP_SIZE) sampleRate).

(** The number of samples held by the segments of an accumulator, the open
    one included. *)
Definition held {F : Type} {Engine : Type} (a : @VADService.accumulator F Engine) : Z :=
  Z.of_nat (List.length (List.concat (map data (VADService.close_last a)))).

(** The invariant of the frame loop before frame [i], on shapes and
    counts. *)
Definition framed_upto {F : Type} {number : JSNumber F} {Engine : Type}
    (audioData : Int16Array) (sampleRate : F) (i : Z)
    (a : @VADService.accumulator F Engine) : Prop :=
  Forall (framed audioData sampleRate (i * VAD.HOP_SIZE)) (VADService.close_last a)
  /\ held a = VAD.HOP_SIZE * VADService.a_speechFrames a
  /\ 0 <= VADService.a_speechFrames a <= i.

(** The counts the transcription routes report under [vadStats]. *)
Definition segmentsFound {F : Type} (r : VADResult F) : Z :=
  Z.of_nat (List.length (segments r)).

Definition segmentsKept {F : Type} (r : VADResult F) : Z :=
  Z.of_nat (List.length (filter (fun s => isSpeech s) (segments r))).

(** A classification that did not fail. *)
Definition classified {A : Type} (outcome : result A) : Prop :=
  match outcome with
  | Ok _ => True
  | Throw _ => False
  end.

(** The invariant of the frame loop before frame [i] when no classification
    fails: every segment holds the samples between its bounds, and the open
    one ends where frame [i] begins. *)
Definition contiguous_upto {F : Type} {Engine : Type} (audioData : Int16Array) (i : Z)
    (a : @VADService.accumulator F Engine) : Prop :=
  Forall (fun s => data s = slice audioData (startFrame s) (endFrame s))
         (VADService.close_last a)
  /\ match VADService.a_currentSegment a with
     | Some c => endFrame c = i * VAD.HOP_SIZE /\ 0 <= startFrame c <= endFrame c
     | None => True
     end.

(* ================================================================== *)
(** ** [processAudioBuffer] of [src/lib/vad/vadLoader.ts] *)

(** The JavaScript [a > b], which [JSNumber] does not have. *)
Class JSGreater (F : Type) : Type := {
  gtb : F -> F -> bool
}.

#[global] Instance float_greater : JSGreater float := {
  gtb := fun a b => PrimFloat.ltb b a
}.

#[global] Instance Q_greater : JSGreater Q := {
  gtb := fun a b => negb (Qle_bool a b)
}.

Module VADLoader.

(** An element of [speechSegments]. *)
Record Span (F : Type) : Type := {
  span_start : F;
  span_end : F;
  span_duration : F
}.

Arguments span_start {F} _.
Arguments span_end {F} _.
Arguments span_duration {F} _.

Record Statistics (F : Type) : Type := {
  totalDuration : F;
  speechDuration : F;
  speechRatio : F
}.

Arguments totalDuration {F} _.
Arguments speechDuration {F} _.
Arguments speechRatio {F} _.

Record BufferResult (F : Type) : Type := {
  frames : list (VAD.VADResult F);
  speechSegments : list (Span F);
  statistics : Statistics F
}.

Arguments frames {F} _.
Arguments speechSegments {F} _.
Arguments statistics {F} _.

Section WithClassifier.

Context {F : Type} {number : JSNumber F} {greater : JSGreater F} {Engine : Type}.
Variable processAudioFrame : Engine -> Int16Array -> result (VAD.VADResult F) * Engine.

(** The variables of the frame loop. *)
Record walker : Type := {
  w_engine : Engine;
  w_frames : list (VAD.VADResult F);
  w_speechSegments : list (Span F);
  w_currentSpeechStart : option F
}.

(** The body of the loop; the call of [processAudioFrame] is not guarded,
    so an exception leaves the function. *)
Definition buffer_step (int16Data : Int16Array) (sampleRate : F) (i : Z) (w : walker)
  : result walker :=
  let frameStart := i * VAD.HOP_SIZE in
  let frameEnd := frameStart + VAD.HOP_SIZE in
  let frameData := slice int16Data frameStart frameEnd in
  match processAudioFrame (w_engine w) frameData with
  | (Throw e, _) => Throw e
  | (Ok result, engine) =>
      let frames := w_frames w ++ [result] in
      let timestamp := div (of_Z frameStart) sampleRate in
      match VAD.isSpeech result, w_currentSpeechStart w with
      | true, None =>
          Ok {| w_engine := engine;
                w_frames := frames;
                w_speechSegments := w_speechSegments w;
                w_currentSpeechStart := Some timestamp |}
      | false, Some currentSpeechStart =>
          Ok {| w_engine := engine;
                w_frames := frames;
                w_speechSegments :=
                  w_speechSegments w
                  ++ [{| span_start := currentSpeechStart;
                         span_end := timestamp;
                         span_duration := sub timestamp currentSpeechStart |}];
                w_currentSpeechStart := None |}
      | _, current =>
          Ok {| w_engine := engine;
                w_frames := frames;
                w_speechSegments := w_speechSegments w;
                w_currentSpeechStart := current |}
      end
  end.

Fixpoint buffer_loop (remaining : nat) (int16Data : Int16Array) (sampleRate : F)
    (i : Z) (w : walker) : result walker :=
  match remaining with
  | O => Ok w
  | S remaining' =>
      w' <- buffer_step int16Data sampleRate i w ;;
      buffer_loop remaining' int16Data sampleRate (i + 1) w'
  end.

(** "Handle last speech segment" *)
Definition last_span (int16Data : Int16Array) (sampleRate : F) (w : walker)
  : list (Span F) :=
  match w_currentSpeechStart w with
  | Some currentSpeechStart =>
      let endTime := div (of_Z (Z.of_nat (List.length int16Data))) sampleRate in
      w_speechSegments w
      ++ [{| span_start := currentSpeechStart;
             span_end := endTime;
             span_duration := sub endTime currentSpeechStart |}]
  | None => w_speechSegments w
  end.

(** [processAudioBuffer] on an [Int16Array] (a [Float32Array] is converted
    first, which is not modelled), with the engine the module holds. *)
Definition processAudioBuffer (engine : Engine) (int16Data : Int16Array) (sampleRate : F)
  : result (BufferResult F * Engine) :=
  let frameCount := Z.of_nat (List.length int16Data) / VAD.HOP_SIZE in
  w <- buffer_loop (Z.to_nat frameCount) int16Data sampleRate 0
         {| w_engine := engine;
            w_frames := [];
            w_speechSegments := [];
            w_currentSpeechStart := None |} ;;
  let speechSegments := last_span int16Data sampleRate w in
  let totalDuration := div (of_Z (Z.of_nat (List.length int16Data))) sampleRate in
  let speechDuration :=
    fold_left (fun sum seg => add sum (span_duration seg)) speechSegments (of_Z 0) in
  Ok ({| frames := w_frames w;
         speechSegments := speechSegments;
         statistics :=
           {| totalDuration := totalDuration;
              speechDuration := speechDuration;
              speechRatio :=
                if gtb totalDuration (of_Z 0)
                then div speechDuration totalDuration
                else of_Z 0 |} |},
      w_engine w).

End WithClassifier.

End VADLoader.

(** What is left of a list of outcomes when the failures are dropped. *)
Fixpoint successes {A : Type} (outcomes : list (result A)) : list A :=
  match outcomes with
  | [] => []
  | Ok x :: rest => x :: successes rest
  | Throw _ :: rest => successes rest
  end.

(** The timestamp of frame [i] in [processAudioBuffer]:
    [frameStart / sampleRate]. *)
Definition timestamp {F : Type} {number : JSNumber F} (sampleRate : F) (i : Z) : F :=
  div (of_Z (i * VAD.HOP_SIZE)) sampleRate.

(** A span that began with frame [i] and was closed by a later frame [j],
    below [limit]. *)
Definition closed_span {F : Type} {number : JSNumber F} (sampleRate : F) (limit : Z)
    (span : VADLoader.Span F) : Prop :=
  exists i j : Z,
    0 <= i < j /\ j < limit
    /\ VADLoader.span_start span = timestamp sampleRate i
    /\ VADLoader.span_end span = timestamp sampleRate j
    /\ VADLoader.span_duration span
       = sub (timestamp sampleRate j) (timestamp sampleRate i).

(** The invariant of the loop of [processAudioBuffer] before frame [i]:
    the spans pushed so far were closed by frames below [i], and an open
    one began with a frame below [i]. *)
Definition spanned_upto {F : Type} {number : JSNumber F} {Engine : Type}
    (sampleRate : F) (i : Z) (w : @VADLoader.walker F Engine) : Prop :=
  Forall (closed_span sampleRate i) (VADLoader.w_speechSegments w)
  /\ match VADLoader.w_currentSpeechStart w with
     | Some currentSpeechStart =>
         exists k : Z, 0 <= k < i /\ currentSpeechStart = timestamp sampleRate k
     | None => True
     end.

(* ================================================================== *)
(** ** The VAD test route of [src/services/vad-service.ts] *)

Module VADTest.

(** What the route's [processAudioWithVAD] returns, [processingTime]
    apart. *)
Record Summary (F : Type) : Type := {
  duration : F;
  sampleRate : F;
  totalFrames : Z;
  speechFrames : Z;
  speechPercentage : F;
  hasSpeech : bool;
  avgProbability : F
}.

Arguments duration {F} _.
Arguments sampleRate {F} _.
Arguments totalFrames {F} _.
Arguments speechFrames {F} _.
Arguments speechPercentage {F} _.
Arguments hasSpeech {F} _.
Arguments avgProbability {F} _.

Section WithClassifier.

Context {F : Type} {number : JSNumber F} {Engine : Type}.
Variable initializeVAD : result Engine.
Variable processAudioFrame : Engine -> Int16Array -> result (VAD.VADResult F) * Engine.

(** The variables of the frame loop. *)
Record counter : Type := {
  c_engine : Engine;
  c_speechFrames : Z;
  c_totalProbability : F
}.

(** The body of the loop: the frame is sliced as it is, and a failed
    classification is logged and skipped. *)
Definition count_step (audioData : Int16Array) (i : Z) (c : counter) : counter :=
  let frameStart := i * VAD.HOP_SIZE in
  let frameEnd := frameStart + VAD.HOP_SIZE in
  let frameData := slice audioData frameStart frameEnd in
  match processAudioFrame (c_engine c) frameData with
  | (Ok result, engine) =>
      {| c_engine := engine;
         c_speechFrames :=
           if VAD.isSpeech result then c_speechFrames c + 1 else c_speechFrames c;
         c_totalProbability := add (c_totalProbability c) (VAD.probability result) |}
  | (Throw _, engine) =>
      {| c_engine := engine;
         c_speechFrames := c_speechFrames c;
         c_totalProbability := c_totalProbability c |}
  end.

Fixpoint count_loop (remaining : nat) (audioData : Int16Array) (i : Z) (c : counter)
  : counter :=
  match remaining with
  | O => c
  | S remaining' => count_loop remaining' audioData (i + 1) (count_step audioData i c)
  end.

Definition processAudioWithVAD (audioData : Int16Array) (sampleRate : F)
  : result (Summary F * Engine) :=
  engine <- initializeVAD ;;
  let frameCount := Z.of_nat (List.length audioData) / VAD.HOP_SIZE in
  let c := count_loop (Z.to_nat frameCount) audioData 0
             {| c_engine := engine;
                c_speechFrames := 0;
                c_totalProbability := of_Z 0 |} in
  let speechPercentage :=
    if 0 <? frameCount
    then mul (div (of_Z (c_speechFrames c)) (of_Z frameCount)) (of_Z 100)
    else of_Z 0 in
  let avgProbability :=
    if 0 <? frameCount
    then div (c_totalProbability c) (of_Z frameCount)
    else of_Z 0 in
  let duration := div (of_Z (Z.of_nat (List.length audioData))) sampleRate in
  Ok ({| duration := duration;
         sampleRate := sampleRate;
         totalFrames := frameCount;
         speechFrames := c_speechFrames c;
         speechPercentage := speechPercentage;
         hasSpeech := 0 <? c_speechFrames c;
         avgProbability := avgProbability |},
      c_engine c).

End WithClassifier.

End VADTest.

(** Inputs for the instances of the further properties: three stereo
    blocks, a script whose second classification fails, and what the
    pipeline answers for [three_frames] under [two_of_three]. *)
Definition stereo_blocks : list (list Z) := [[1; -1]; [2; -2]; [3; -3]].

Definition failing_script : Script Q :=
  [speech (9 # 10)%Q; Throw (Error "VAD processing failed with code: -1");
   silence (1 # 10)%Q].

(** A script of two runs of speech with a silent frame between them, in
    the numbers of the code. *)
Definition speech_silence_speech : Script float :=
  [speech 0.75%float; silence 0.125%float; speech 0.5%float].


(** A container of three samples, less than one frame. *)
Definition short_container : ArrayBuffer :=
  wav_header 3 16000 1 ++ int16_bytes [1; -2; 300].

Definition three_frames_out : Extraction Q :=
  match VADService.extractSpeechSegments (Ok two_of_three) replay three_frames
          (20 # 1)%Q (4 # 10)%Q with
  | Ok out => out
  | Throw _ =>
      {| originalBuffer := [];
         processedBuffer := [];
         vadResult :=
           {| totalFrames := 0; speechFrames := 0; speechPercentage := 0%Q;
              hasSpeech := false; avgProbability := 0%Q; segments := [] |};
         speechFound := false |}
  end.

(* ================================================================== *)
(** * Properties *)

(** ** Bytes and little-endian fields *)

Lemma u8_range (b : byte) : 0 <= u8 b < 256.
Proof.
  unfold u8. pose proof (Byte.to_N_bounded b). lia.
Qed.

Lemma to_u8_u8 (b : byte) : to_u8 (u8 b) = b.
Proof.
  unfold to_u8. pose proof (u8_range b) as Hb.
  rewrite Z.mod_small by exact Hb.
  unfold u8. rewrite N2Z.id, Byte.of_to_N. reflexivity.
Qed.

Lemma u8_to_u8 (z : Z) : u8 (to_u8 z) = z mod 256.
Proof.
  unfold to_u8, u8.
  pose proof (Z.mod_pos_bound z 256 ltac:(lia)) as Hm.
  pose proof (Byte.to_of_N_option_map (Z.to_N (z mod 256))) as Hmap.
  destruct (Byte.of_N (Z.to_N (z mod 256))) as [b|] eqn:Hof.
  - apply Byte.to_of_N in Hof. rewrite Hof. lia.
  - simpl in Hmap. destruct (N.leb_spec (Z.to_N (z mod 256)) 255); [discriminate | lia].
Qed.

Lemma of_le16_le16 (v : Z) :
  of_le16 (to_u8 v) (to_u8 (v / 256)) = v mod 65536.
Proof.
  unfold of_le16. rewrite !u8_to_u8.
  rewrite (Z.mod_eq v 65536) by lia.
  rewrite (Z.mod_eq v 256) by lia.
  rewrite (Z.mod_eq (v / 256) 256) by lia.
  rewrite Z.div_div by lia. change (256 * 256) with 65536. lia.
Qed.

Lemma of_le32_le32 (v : Z) :
  of_le32 (to_u8 v) (to_u8 (v / 256)) (to_u8 (v / 65536)) (to_u8 (v / 16777216))
  = v mod 4294967296.
Proof.
  unfold of_le32. rewrite !u8_to_u8.
  rewrite (Z.mod_eq v 4294967296) by lia.
  rewrite (Z.mod_eq v 256) by lia.
  rewrite (Z.mod_eq (v / 256) 256) by lia.
  rewrite (Z.mod_eq (v / 65536) 256) by lia.
  rewrite (Z.mod_eq (v / 16777216) 256) by lia.
  rewrite !Z.div_div by lia.
  change (256 * 256) with 65536. change (65536 * 256) with 16777216.
  change (16777216 * 256) with 4294967296. lia.
Qed.

Lemma int16_of_le_le16 (s : Z) :
  is_int16 s -> int16_of_le (to_u8 s) (to_u8 (s / 256)) = s.
Proof.
  unfold is_int16, int16_of_le. intros Hs. rewrite of_le16_le16.
  destruct (Z_lt_le_dec s 0) as [Hneg|Hpos].
  - replace (s mod 65536) with (s + 65536).
    + destruct (Z.ltb_spec (s + 65536) 32768); lia.
    + apply Z.mod_unique with (q := -1); lia.
  - rewrite Z.mod_small by lia.
    destruct (Z.ltb_spec s 32768); lia.
Qed.

Lemma int16_bytes_length (samples : Int16Array) :
  List.length (int16_bytes samples) = (2 * List.length samples)%nat.
Proof.
  induction samples as [|s rest IH]; simpl; [reflexivity | rewrite IH; lia].
Qed.

Lemma int16_elements_bytes (samples : Int16Array) :
  Forall is_int16 samples -> int16_elements (int16_bytes samples) = samples.
Proof.
  induction 1 as [|s rest Hs _ IH]; simpl; [reflexivity|].
  rewrite int16_of_le_le16 by exact Hs. now rewrite IH.
Qed.

(** ** Stores and loads *)

Lemma store_app_l {A : Type} (pre post source : list A) (o : Z) :
  0 <= o -> o + Z.of_nat (List.length source) <= Z.of_nat (List.length pre) ->
  store (pre ++ post) o source = Ok (splice pre (Z.to_nat o) source ++ post).
Proof.
  intros Ho Hfit. unfold store, splice.
  rewrite length_app.
  destruct (Z.leb_spec 0 o); [|lia].
  destruct (Z.leb_spec (o + Z.of_nat (List.length source))
                       (Z.of_nat (List.length pre + List.length post))); [|lia].
  simpl. f_equal.
  rewrite firstn_app, skipn_app.
  replace (Z.to_nat o - List.length pre)%nat with 0%nat by lia.
  replace (Z.to_nat o + List.length source - List.length pre)%nat with 0%nat by lia.
  simpl. rewrite app_nil_r, <- !app_assoc. reflexivity.
Qed.

Lemma store_at_end {A : Type} (pre old source : list A) (o : Z) :
  o = Z.of_nat (List.length pre) -> List.length old = List.length source ->
  store (pre ++ old) o source = Ok (pre ++ source).
Proof.
  intros -> Hlen. unfold store, splice.
  rewrite length_app, Nat2Z.id.
  destruct (Z.leb_spec 0 (Z.of_nat (List.length pre))); [|lia].
  destruct (Z.leb_spec (Z.of_nat (List.length pre) + Z.of_nat (List.length source))
                       (Z.of_nat (List.length pre + List.length old))); [|lia].
  simpl. f_equal.
  rewrite firstn_app, Nat.sub_diag, firstn_all. simpl. rewrite app_nil_r.
  rewrite skipn_all2 by (rewrite length_app; lia).
  now rewrite app_nil_r.
Qed.

Lemma store_then {A B : Type} (pre post source : list A) (o : Z)
    (k : list A -> result B) :
  0 <= o -> o + Z.of_nat (List.length source) <= Z.of_nat (List.length pre) ->
  (buffer <- store (pre ++ post) o source ;; k buffer)
  = k (splice pre (Z.to_nat o) source ++ post).
Proof.
  intros Ho Hfit. now rewrite store_app_l.
Qed.

Lemma header_stores (tail : list byte) (audioData : Int16Array) (n sampleRate channels : Z) :
  List.length tail = List.length (int16_bytes audioData) ->
  (buffer <- setUint8 (repeat Byte.x00 44 ++ tail) 0 0x52 ;;
  buffer <- setUint8 buffer 1 0x49 ;;
  buffer <- setUint8 buffer 2 0x46 ;;
  buffer <- setUint8 buffer 3 0x46 ;;
  buffer <- setUint32 buffer 4 (44 + n * 2 - 8) ;;
  buffer <- setUint8 buffer 8 0x57 ;;
  buffer <- setUint8 buffer 9 0x41 ;;
  buffer <- setUint8 buffer 10 0x56 ;;
  buffer <- setUint8 buffer 11 0x45 ;;
  buffer <- setUint8 buffer 12 0x66 ;;
  buffer <- setUint8 buffer 13 0x6D ;;
  buffer <- setUint8 buffer 14 0x74 ;;
  buffer <- setUint8 buffer 15 0x20 ;;
  buffer <- setUint32 buffer 16 16 ;;
  buffer <- setUint16 buffer 20 1 ;;
  buffer <- setUint16 buffer 22 channels ;;
  buffer <- setUint32 buffer 24 sampleRate ;;
  buffer <- setUint32 buffer 28 (sampleRate * channels * 2) ;;
  buffer <- setUint16 buffer 32 (channels * 2) ;;
  buffer <- setUint16 buffer 34 16 ;;
  buffer <- setUint8 buffer 36 0x64 ;;
  buffer <- setUint8 buffer 37 0x61 ;;
  buffer <- setUint8 buffer 38 0x74 ;;
  buffer <- setUint8 buffer 39 0x61 ;;
  buffer <- setUint32 buffer 40 (n * 2) ;;
  setInt16View buffer 44 audioData)
  = Ok (wav_header n sampleRate channels ++ int16_bytes audioData).
Proof.
  intros Htail.
  unfold setUint8, setUint16, setUint32, le16, le32.
  cbn [repeat].
  repeat match goal with
  | |- context [store (?pre ++ tail) ?o ?source] =>
      rewrite (store_then pre tail source o) by (cbn [List.length]; lia);
      let k := eval compute in (Z.to_nat o) in
      let spliced :=
        eval cbn [splice firstn skipn app Nat.add List.length] in (splice pre k source) in
      replace (splice pre (Z.to_nat o) source) with spliced by reflexivity
  end.
  match goal with
  | |- setInt16View (?pre ++ tail) _ _ = _ =>
      change pre with (wav_header n sampleRate channels)
  end.
  assert (Hheader : List.length (wav_header n sampleRate channels) = 44%nat)
    by reflexivity.
  unfold setInt16View, byteLength.
  rewrite length_app, Hheader, Htail, int16_bytes_length.
  replace ((Z.of_nat (44 + 2 * List.length audioData) - 44) mod 2) with 0
    by (rewrite Nat2Z.inj_add, Nat2Z.inj_mul, Z.add_simpl_l, Z.mul_comm, Z.mod_mul; lia).
  destruct (Z.leb_spec 44 (Z.of_nat (44 + 2 * List.length audioData))); [|lia].
  cbn [Z.eqb Z.modulo andb].
  change (44 mod 2 =? 0) with true. cbn [andb].
  apply store_at_end; [rewrite Hheader; reflexivity | exact Htail].
Qed.

Lemma createWAVBuffer_bytes (audioData : Int16Array) (sampleRate channels : Z) :
  AudioService.createWAVBuffer audioData sampleRate channels
  = Ok (wav_header (Z.of_nat (List.length audioData)) sampleRate channels
        ++ int16_bytes audioData).
Proof.
  unfold AudioService.createWAVBuffer, newArrayBuffer.
  change (16 / 8) with 2.
  replace (Z.to_nat (44 + Z.of_nat (List.length audioData) * 2))
    with (44 + 2 * List.length audioData)%nat by lia.
  rewrite repeat_app.
  apply header_stores.
  now rewrite repeat_length, int16_bytes_length.
Qed.

Lemma Ok_inj {A : Type} (a b : A) : Ok a = Ok b -> a = b.
Proof. congruence. Qed.

Lemma bind_Ok {A B : Type} (a : A) (k : A -> result B) : (x <- Ok a ;; k x) = k a.
Proof. reflexivity. Qed.

Lemma skipn_cons_length {A : Type} (l : list A) (k : nat) (x : A) (rest : list A) :
  skipn k l = x :: rest ->
  nth_error l k = Some x /\ skipn (S k) l = rest
  /\ List.length l = (k + S (List.length rest))%nat.
Proof.
  revert l. induction k as [|k IH]; intros [|y l] Hskip; simpl in Hskip; try discriminate.
  - inversion Hskip; subst. simpl. auto.
  - destruct (IH l Hskip) as (Hnth & Hrest & Hlen). simpl. repeat split; auto.
Qed.

Lemma getUint8_skipn (view : ArrayBuffer) (o : Z) (b : byte) (rest : list byte) :
  0 <= o -> skipn (Z.to_nat o) view = b :: rest -> getUint8 view o = Ok (u8 b).
Proof.
  intros Ho Hskip. destruct (skipn_cons_length _ _ _ _ Hskip) as (Hnth & _ & Hlen).
  unfold getUint8, byteLength. rewrite Hnth.
  destruct (Z.leb_spec 0 o); [|lia].
  destruct (Z.leb_spec (o + 1) (Z.of_nat (List.length view))); [reflexivity | lia].
Qed.

Lemma getUint16_skipn (view : ArrayBuffer) (o : Z) (b0 b1 : byte) (rest : list byte) :
  0 <= o -> skipn (Z.to_nat o) view = b0 :: b1 :: rest ->
  getUint16 view o = Ok (of_le16 b0 b1).
Proof.
  intros Ho Hskip. destruct (skipn_cons_length _ _ _ _ Hskip) as (_ & _ & Hlen).
  unfold getUint16, byteLength. rewrite Hskip. simpl in Hlen.
  destruct (Z.leb_spec 0 o); [|lia].
  destruct (Z.leb_spec (o + 2) (Z.of_nat (List.length view))); [reflexivity | lia].
Qed.

Lemma getUint32_skipn (view : ArrayBuffer) (o : Z) (b0 b1 b2 b3 : byte)
    (rest : list byte) :
  0 <= o -> skipn (Z.to_nat o) view = b0 :: b1 :: b2 :: b3 :: rest ->
  getUint32 view o = Ok (of_le32 b0 b1 b2 b3).
Proof.
  intros Ho Hskip. destruct (skipn_cons_length _ _ _ _ Hskip) as (_ & _ & Hlen).
  unfold getUint32, byteLength. rewrite Hskip. simpl in Hlen.
  destruct (Z.leb_spec 0 o); [|lia].
  destruct (Z.leb_spec (o + 4) (Z.of_nat (List.length view))); [reflexivity | lia].
Qed.

Lemma fourCC_skipn (view : ArrayBuffer) (o : Z) (b0 b1 b2 b3 : byte)
    (rest : list byte) :
  0 <= o -> skipn (Z.to_nat o) view = b0 :: b1 :: b2 :: b3 :: rest ->
  fourCC view o = Ok (string_of_list_byte [b0; b1; b2; b3]).
Proof.
  intros Ho Hskip. unfold fourCC.
  destruct (skipn_cons_length _ _ _ _ Hskip) as (_ & Hskip1 & _).
  destruct (skipn_cons_length _ _ _ _ Hskip1) as (_ & Hskip2 & _).
  destruct (skipn_cons_length _ _ _ _ Hskip2) as (_ & Hskip3 & _).
  rewrite (getUint8_skipn view o b0 _ Ho Hskip), bind_Ok.
  rewrite (getUint8_skipn view (o + 1) b1 (b2 :: b3 :: rest)), bind_Ok;
    [|lia | replace (Z.to_nat (o + 1)) with (S (Z.to_nat o)) by lia; exact Hskip1].
  rewrite (getUint8_skipn view (o + 2) b2 (b3 :: rest)), bind_Ok;
    [|lia | replace (Z.to_nat (o + 2)) with (S (S (Z.to_nat o))) by lia; exact Hskip2].
  rewrite (getUint8_skipn view (o + 3) b3 rest), bind_Ok;
    [|lia | replace (Z.to_nat (o + 3)) with (S (S (S (Z.to_nat o)))) by lia; exact Hskip3].
  now rewrite !to_u8_u8.
Qed.

(** ** The container [createWAVBuffer] writes, read back *)

Section Created.

Context {F : Type} {number : JSNumber F}.

Variables (n sampleRate channels : Z) (payload : list byte).

Local Abbreviation view := (wav_header n sampleRate channels ++ payload).
Local Abbreviation after_fmt := (created_after_fmt sampleRate channels).
Local Abbreviation at_data := (created_at_data n sampleRate channels).

Lemma created_length : byteLength view = 44 + Z.of_nat (List.length payload).
Proof.
  unfold byteLength. rewrite length_app.
  change (List.length (wav_header n sampleRate channels)) with 44%nat. lia.
Qed.

Lemma created_step_fmt :
  AudioService.chunk_step view AudioService.initial
  = Ok (AudioService.Continue after_fmt).
Proof.
  unfold AudioService.chunk_step.
  cbn [AudioService.l_offset AudioService.initial].
  erewrite (fourCC_skipn view 12) by (lia || reflexivity). rewrite bind_Ok.
  erewrite (getUint32_skipn view (12 + 4)) by (lia || reflexivity). rewrite bind_Ok.
  replace (string_of_list_byte [to_u8 102; to_u8 109; to_u8 116; to_u8 32] =? "fmt ")%string
    with true by reflexivity.
  erewrite (getUint16_skipn view (12 + 8)) by (lia || reflexivity). rewrite bind_Ok.
  erewrite (getUint16_skipn view (12 + 10)) by (lia || reflexivity). rewrite bind_Ok.
  erewrite (getUint32_skipn view (12 + 12)) by (lia || reflexivity). rewrite bind_Ok.
  erewrite (getUint16_skipn view (12 + 22)) by (lia || reflexivity). rewrite bind_Ok.
  rewrite !of_le16_le16, !of_le32_le32.
  reflexivity.
Qed.

Lemma created_step_data :
  AudioService.chunk_step view after_fmt = Ok (AudioService.Break at_data).
Proof.
  unfold AudioService.chunk_step.
  cbn [AudioService.l_offset created_after_fmt].
  erewrite (fourCC_skipn view 36) by (lia || reflexivity). rewrite bind_Ok.
  erewrite (getUint32_skipn view (36 + 4)) by (lia || reflexivity). rewrite bind_Ok.
  replace (string_of_list_byte [to_u8 100; to_u8 97; to_u8 116; to_u8 97] =? "fmt ")%string
    with false by reflexivity.
  replace (string_of_list_byte [to_u8 100; to_u8 97; to_u8 116; to_u8 97] =? "data")%string
    with true by reflexivity.
  rewrite of_le32_le32.
  reflexivity.
Qed.

Lemma created_walk (fuel : nat) :
  payload <> [] ->
  AudioService.chunk_loop (S (S fuel)) view AudioService.initial = Some (Ok at_data).
Proof.
  intros Hpayload.
  assert (0 < List.length payload)%nat by (destruct payload; simpl; [congruence | lia]).
  pose proof created_length as Hlen.
  cbn [AudioService.chunk_loop].
  replace (AudioService.l_offset AudioService.initial <? byteLength view - 8) with true
    by (symmetry; apply Z.ltb_lt; cbn [AudioService.l_offset AudioService.initial]; lia).
  rewrite created_step_fmt.
  replace (AudioService.l_offset after_fmt <? byteLength view - 8) with true
    by (symmetry; apply Z.ltb_lt; cbn [AudioService.l_offset created_after_fmt]; lia).
  now rewrite created_step_data.
Qed.

Lemma parse_created :
  payload <> [] ->
  AudioService.parseWAVHeader (F := F) view = Ok (created_info n sampleRate channels).
Proof.
  intros Hpayload.
  unfold AudioService.parseWAVHeader.
  erewrite (fourCC_skipn view 0) by (lia || reflexivity). rewrite bind_Ok.
  replace (string_of_list_byte [to_u8 82; to_u8 73; to_u8 70; to_u8 70] =? "RIFF")%string
    with true by reflexivity.
  cbn [negb].
  erewrite (fourCC_skipn view 8) by (lia || reflexivity). rewrite bind_Ok.
  replace (string_of_list_byte [to_u8 87; to_u8 65; to_u8 86; to_u8 69] =? "WAVE")%string
    with true by reflexivity.
  cbn [negb].
  assert (Hfuel : exists fuel, List.length view = S (S fuel)).
  { rewrite length_app.
    change (List.length (wav_header n sampleRate channels)) with 44%nat.
    eexists. reflexivity. }
  destruct Hfuel as [fuel ->].
  rewrite created_walk by exact Hpayload.
  reflexivity.
Qed.

End Created.

Lemma slice_suffix {A : Type} (pre post : list A) :
  slice (pre ++ post) (Z.of_nat (List.length pre))
        (Z.of_nat (List.length pre) + Z.of_nat (List.length post)) = post.
Proof.
  unfold slice. rewrite length_app.
  rewrite Z.min_l by lia. rewrite Z.min_l by lia.
  rewrite Nat2Z.id, skipn_app, Nat.sub_diag, skipn_all. simpl.
  replace (Z.to_nat (Z.max (Z.of_nat (List.length pre) + Z.of_nat (List.length post)
                            - Z.of_nat (List.length pre)) 0))
    with (List.length post) by lia.
  apply firstn_all.
Qed.

Lemma slice_empty {A : Type} (l : list A) (first : Z) : slice l first (first + 0) = [].
Proof.
  unfold slice. rewrite Z.add_0_r, Z.sub_diag. reflexivity.
Qed.

Lemma int16_bytes_nonempty (samples : Int16Array) :
  samples <> [] -> int16_bytes samples <> [].
Proof.
  destruct samples; [congruence | discriminate].
Qed.

Section Roundtrip.

Context {F : Type} {number : JSNumber F}.

(** What the round trip returns in general: the samples that fit the data
    size stored in the 32-bit field at offset 40. *)
Lemma roundtrip_extract (samples : Int16Array) (sampleRate : Z) :
  samples <> [] ->
  roundtrip (F := F) samples sampleRate
  = AudioService.extractMonoAudio
      (wav_header (Z.of_nat (List.length samples)) sampleRate 1 ++ int16_bytes samples)
      (created_info (F := F) (Z.of_nat (List.length samples)) sampleRate 1).
Proof.
  intros Hne. unfold roundtrip.
  rewrite createWAVBuffer_bytes, bind_Ok.
  rewrite parse_created by (apply int16_bytes_nonempty; exact Hne).
  now rewrite bind_Ok.
Qed.

(** C1, as amended: a container written by [createWAVBuffer] for one
    channel, parsed by [parseWAVHeader] and read by [extractMonoAudio],
    gives back exactly the samples it was written from, for every non-empty
    buffer of 16-bit samples whose byte size fits the 32-bit data-size
    field (fewer than 2^31 samples), at every sample rate. *)
Theorem roundtrip_created (samples : Int16Array) (sampleRate : Z) :
  samples <> [] ->
  Forall is_int16 samples ->
  Z.of_nat (List.length samples) * 2 < 4294967296 ->
  roundtrip (F := F) samples sampleRate = Ok samples.
Proof.
  intros Hne Hrange Hfit.
  rewrite roundtrip_extract by exact Hne.
  unfold AudioService.extractMonoAudio, created_info.
  cbn [dataOffset dataSize channels].
  rewrite (Z.mod_small (Z.of_nat (List.length samples) * 2)) by lia.
  replace (Z.of_nat (List.length samples) * 2)
    with (Z.of_nat (List.length (int16_bytes samples)))
    by (rewrite int16_bytes_length; lia).
  change 44 with (Z.of_nat (List.length
                    (wav_header (Z.of_nat (List.length samples)) sampleRate 1))) at 1 2.
  rewrite slice_suffix.
  unfold Int16Array_of_buffer, byteLength.
  rewrite int16_bytes_length.
  replace (Z.of_nat (2 * List.length samples) mod 2) with 0
    by (rewrite Nat2Z.inj_mul, Z.mul_comm, Z.mod_mul; lia).
  cbn [Z.eqb]. rewrite bind_Ok.
  change (1 <? 1 mod 65536) with false. cbn iota.
  now rewrite int16_elements_bytes.
Qed.

(** When the byte size is exactly 2^32 the stored data size wraps to 0 and
    nothing is read back. *)
Lemma roundtrip_wrapped (samples : Int16Array) (sampleRate : Z) :
  Z.of_nat (List.length samples) = 2147483648 ->
  roundtrip (F := F) samples sampleRate = Ok [].
Proof.
  intros Hlen.
  rewrite roundtrip_extract by (intros ->; discriminate Hlen).
  unfold AudioService.extractMonoAudio, created_info.
  cbn [dataOffset dataSize channels].
  rewrite Hlen.
  change ((2147483648 * 2) mod 4294967296) with 0.
  rewrite slice_empty.
  reflexivity.
Qed.

End Roundtrip.

Lemma Forall_repeat {A : Type} (P : A -> Prop) (x : A) (n : nat) :
  P x -> Forall P (repeat x n).
Proof.
  intros Hx. induction n; simpl; constructor; assumption.
Qed.

(** C1, the claim as stated, fails for 2^31 samples: they are non-empty,
    16-bit, and the rate is positive, yet the data size 2^32 is stored as 0
    in the 32-bit field and the container reads back as no samples. *)
Lemma roundtrip_loses_2_31_samples :
  silence_4GiB <> []
  /\ Forall is_int16 silence_4GiB
  /\ 0 < 16000
  /\ roundtrip (F := float) silence_4GiB 16000 = Ok []
  /\ roundtrip (F := float) silence_4GiB 16000 <> Ok silence_4GiB.
Proof.
  assert (Hlen : Z.of_nat (List.length silence_4GiB) = 2147483648).
  { unfold silence_4GiB. rewrite repeat_length. apply Z2Nat.id. lia. }
  assert (Hne : silence_4GiB <> []).
  { intros Heq. rewrite Heq in Hlen. discriminate Hlen. }
  split; [exact Hne|]. split.
  - apply Forall_repeat. unfold is_int16. lia.
  - split; [lia|].
    pose proof (roundtrip_wrapped (F := float) silence_4GiB 16000 Hlen) as Hwrapped.
    split; [exact Hwrapped|].
    intros Heq. rewrite Hwrapped in Heq.
    apply Ok_inj in Heq. rewrite <- Heq in Hlen. discriminate Hlen.
Qed.

Lemma roundtrip_created_witness :
  roundtrip (F := float) [1; -2; 300; -32768; 32767] 16000
  = Ok [1; -2; 300; -32768; 32767].
Proof.
  apply roundtrip_created.
  - discriminate.
  - repeat constructor; unfold is_int16; lia.
  - simpl. lia.
Defined.

(** ** The chunk walk of [parseWAVHeader] *)

Lemma getUint32_in_range (view : ArrayBuffer) (o : Z) :
  0 <= o -> o + 4 <= byteLength view ->
  exists v, getUint32 view o = Ok v /\ 0 <= v < 4294967296.
Proof.
  intros Ho Hfit. unfold getUint32, byteLength in *.
  destruct (Z.leb_spec 0 o); [|lia].
  destruct (Z.leb_spec (o + 4) (Z.of_nat (List.length view))); [|lia].
  cbn [andb].
  pose proof (length_skipn (Z.to_nat o) view) as Hlen.
  destruct (skipn (Z.to_nat o) view) as [|b0 [|b1 [|b2 [|b3 rest]]]];
    simpl in Hlen; try lia.
  eexists. split; [reflexivity|].
  unfold of_le32.
  pose proof (u8_range b0). pose proof (u8_range b1).
  pose proof (u8_range b2). pose proof (u8_range b3). lia.
Qed.

Lemma getUint32_nonneg (view : ArrayBuffer) (o v : Z) :
  getUint32 view o = Ok v -> 0 <= v.
Proof.
  unfold getUint32.
  destruct ((0 <=? o) && (o + 4 <=? byteLength view)); [|discriminate].
  destruct (skipn (Z.to_nat o) view) as [|b0 [|b1 [|b2 [|b3 rest]]]]; try discriminate.
  intros Heq. apply Ok_inj in Heq. subst v. unfold of_le32.
  pose proof (u8_range b0). pose proof (u8_range b1).
  pose proof (u8_range b2). pose proof (u8_range b3). lia.
Qed.

Lemma next_offset_advances (offset chunkSize : Z) :
  0 <= chunkSize -> offset + 8 <= AudioService.next_offset offset chunkSize.
Proof.
  intros Hsize. unfold AudioService.next_offset.
  destruct (chunkSize mod 2 =? 1); lia.
Qed.

(** What an iteration that continues has done. *)
Lemma chunk_step_continue (view : ArrayBuffer) (l l' : AudioService.locals) :
  AudioService.chunk_step view l = Ok (AudioService.Continue l') ->
  exists id chunkSize,
    fourCC view (AudioService.l_offset l) = Ok id
    /\ id <> "data"%string
    /\ getUint32 view (AudioService.l_offset l + 4) = Ok chunkSize
    /\ AudioService.l_offset l'
        = AudioService.next_offset (AudioService.l_offset l) chunkSize
    /\ AudioService.l_dataOffset l' = AudioService.l_dataOffset l
    /\ AudioService.l_dataSize l' = AudioService.l_dataSize l
    /\ (id <> "fmt "%string ->
        AudioService.l_sampleRate l' = AudioService.l_sampleRate l
        /\ AudioService.l_channels l' = AudioService.l_channels l
        /\ AudioService.l_bitsPerSample l' = AudioService.l_bitsPerSample l).
Proof.
  unfold AudioService.chunk_step.
  destruct (fourCC view (AudioService.l_offset l)) as [id|e]; [|discriminate].
  rewrite bind_Ok.
  destruct (getUint32 view (AudioService.l_offset l + 4)) as [chunkSize|e];
    [|discriminate].
  rewrite bind_Ok.
  destruct (String.eqb_spec id "fmt ") as [Hfmt|Hfmt].
  - destruct (getUint16 view (AudioService.l_offset l + 8)) as [audioFormat|e];
      [|discriminate].
    destruct (getUint16 view (AudioService.l_offset l + 10)) as [channels|e];
      [|discriminate].
    destruct (getUint32 view (AudioService.l_offset l + 12)) as [sampleRate|e];
      [|discriminate].
    destruct (getUint16 view (AudioService.l_offset l + 22)) as [bitsPerSample|e];
      [|discriminate].
    rewrite !bind_Ok.
    destruct (negb (audioFormat =? 1)); [discriminate|].
    destruct (negb (bitsPerSample =? 16)); [discriminate|].
    intros Heq. apply Ok_inj in Heq. injection Heq as <-.
    exists id, chunkSize. cbn.
    repeat split; try reflexivity; [subst id; discriminate | contradiction
                                    | contradiction | contradiction].
  - destruct (String.eqb_spec id "data") as [Hdata|Hdata]; [discriminate|].
    intros Heq. apply Ok_inj in Heq. injection Heq as <-.
    exists id, chunkSize. cbn. repeat split; auto.
Qed.

(** What an iteration that breaks has done: it stands on a data chunk. *)
Lemma chunk_step_break (view : ArrayBuffer) (l l' : AudioService.locals) :
  AudioService.chunk_step view l = Ok (AudioService.Break l') ->
  exists chunkSize,
    fourCC view (AudioService.l_offset l) = Ok "data"%string
    /\ getUint32 view (AudioService.l_offset l + 4) = Ok chunkSize
    /\ l' = {| AudioService.l_offset := AudioService.l_offset l;
               AudioService.l_dataOffset := AudioService.l_offset l + 8;
               AudioService.l_dataSize := chunkSize;
               AudioService.l_sampleRate := AudioService.l_sampleRate l;
               AudioService.l_channels := AudioService.l_channels l;
               AudioService.l_bitsPerSample := AudioService.l_bitsPerSample l |}.
Proof.
  unfold AudioService.chunk_step.
  destruct (fourCC view (AudioService.l_offset l)) as [id|e]; [|discriminate].
  rewrite bind_Ok.
  destruct (getUint32 view (AudioService.l_offset l + 4)) as [chunkSize|e];
    [|discriminate].
  rewrite bind_Ok.
  destruct (String.eqb_spec id "fmt ") as [Hfmt|Hfmt].
  - destruct (getUint16 view (AudioService.l_offset l + 8)) as [audioFormat|e];
      [|discriminate].
    destruct (getUint16 view (AudioService.l_offset l + 10)) as [channels|e];
      [|discriminate].
    destruct (getUint32 view (AudioService.l_offset l + 12)) as [sampleRate|e];
      [|discriminate].
    destruct (getUint16 view (AudioService.l_offset l + 22)) as [bitsPerSample|e];
      [|discriminate].
    rewrite !bind_Ok.
    destruct (negb (audioFormat =? 1)); [discriminate|].
    destruct (negb (bitsPerSample =? 16)); discriminate.
  - destruct (String.eqb_spec id "data") as [Hdata|Hdata]; [|discriminate].
    intros Heq. apply Ok_inj in Heq. injection Heq as <-.
    exists chunkSize. subst id. auto.
Qed.

(** An iteration on a data chunk breaks. *)
Lemma chunk_step_data (view : ArrayBuffer) (l : AudioService.locals) (chunkSize : Z) :
  fourCC view (AudioService.l_offset l) = Ok "data"%string ->
  getUint32 view (AudioService.l_offset l + 4) = Ok chunkSize ->
  AudioService.chunk_step view l
  = Ok (AudioService.Break
          {| AudioService.l_offset := AudioService.l_offset l;
             AudioService.l_dataOffset := AudioService.l_offset l + 8;
             AudioService.l_dataSize := chunkSize;
             AudioService.l_sampleRate := AudioService.l_sampleRate l;
             AudioService.l_channels := AudioService.l_channels l;
             AudioService.l_bitsPerSample := AudioService.l_bitsPerSample l |}).
Proof.
  intros Hid Hsize. unfold AudioService.chunk_step.
  rewrite Hid, bind_Ok, Hsize, bind_Ok. reflexivity.
Qed.

Lemma chunk_step_advances (view : ArrayBuffer) (l l' : AudioService.locals) :
  AudioService.chunk_step view l = Ok (AudioService.Continue l') ->
  AudioService.l_offset l + 8 <= AudioService.l_offset l'.
Proof.
  intros Hstep.
  destruct (chunk_step_continue _ _ _ Hstep) as (id & size & _ & _ & Hsize & -> & _).
  apply next_offset_advances. eapply getUint32_nonneg; eassumption.
Qed.

Lemma chunk_loop_total (view : ArrayBuffer) (fuel : nat) (l : AudioService.locals) :
  enough view fuel l -> exists r, AudioService.chunk_loop fuel view l = Some r.
Proof.
  unfold enough. revert l. induction fuel as [|fuel IH]; intros l Hfuel.
  - simpl. destruct (Z.ltb_spec (AudioService.l_offset l) (byteLength view - 8));
      [lia | eauto].
  - simpl. destruct (Z.ltb_spec (AudioService.l_offset l) (byteLength view - 8));
      [|eauto].
    destruct (AudioService.chunk_step view l) as [[l'|l']|e] eqn:Hstep; eauto.
    apply IH. apply chunk_step_advances in Hstep. lia.
Qed.

Lemma chunk_loop_fuel (view : ArrayBuffer) (fuel fuel' : nat) (l : AudioService.locals) :
  enough view fuel l -> enough view fuel' l ->
  AudioService.chunk_loop fuel view l = AudioService.chunk_loop fuel' view l.
Proof.
  unfold enough. revert fuel' l.
  induction fuel as [|fuel IH]; intros [|fuel'] l Hfuel Hfuel'; simpl;
    destruct (Z.ltb_spec (AudioService.l_offset l) (byteLength view - 8));
    try reflexivity; try lia.
  destruct (AudioService.chunk_step view l) as [[l'|l']|e] eqn:Hstep; try reflexivity.
  apply chunk_step_advances in Hstep. apply IH; lia.
Qed.

Lemma walk_from_offset (view : ArrayBuffer) (l l' : AudioService.locals)
    (ids : list string) :
  walk_from view l ids l' -> AudioService.l_offset l <= AudioService.l_offset l'.
Proof.
  induction 1 as [|l l1 l' id ids Hin Hid Hstep _ IH]; [lia|].
  apply chunk_step_advances in Hstep. lia.
Qed.

(** The loop follows the walk. *)
Lemma chunk_loop_walk (view : ArrayBuffer) (l l' : AudioService.locals)
    (ids : list string) (fuel : nat) :
  walk_from view l ids l' -> enough view fuel l ->
  AudioService.chunk_loop fuel view l = AudioService.chunk_loop fuel view l'.
Proof.
  intros Hwalk. revert fuel.
  induction Hwalk as [|l l1 l' id ids Hin Hid Hstep Hwalk IH]; intros fuel Hfuel;
    [reflexivity|].
  pose proof (chunk_step_advances _ _ _ Hstep) as Hadv.
  unfold enough in Hfuel.
  destruct fuel as [|fuel]; [lia|].
  transitivity (AudioService.chunk_loop fuel view l1).
  - cbn [AudioService.chunk_loop].
    destruct (Z.ltb_spec (AudioService.l_offset l) (byteLength view - 8)); [|lia].
    now rewrite Hstep.
  - rewrite <- (IH (S fuel)) by (unfold enough; lia).
    apply chunk_loop_fuel; unfold enough; lia.
Qed.

(** Stepping over chunks leaves [dataOffset] and [dataSize] alone, and the
    format fields too unless one of the chunks is a format chunk. *)
Lemma walk_from_keeps (view : ArrayBuffer) (l l' : AudioService.locals)
    (ids : list string) :
  walk_from view l ids l' ->
  AudioService.l_dataOffset l' = AudioService.l_dataOffset l
  /\ AudioService.l_dataSize l' = AudioService.l_dataSize l
  /\ (~ In "fmt "%string ids ->
      AudioService.l_sampleRate l' = AudioService.l_sampleRate l
      /\ AudioService.l_channels l' = AudioService.l_channels l
      /\ AudioService.l_bitsPerSample l' = AudioService.l_bitsPerSample l).
Proof.
  induction 1 as [|l l1 l' id ids Hin Hid Hstep _ IH]; [auto|].
  destruct (chunk_step_continue _ _ _ Hstep)
    as (id' & size & Hid' & _ & _ & _ & Hoff & Hsize & Hfmt).
  rewrite Hid in Hid'. apply Ok_inj in Hid'. subst id'.
  destruct IH as (IHoff & IHsize & IHfmt).
  split; [congruence|]. split; [congruence|].
  intros Hnot. simpl in Hnot.
  destruct Hfmt as (Hsr & Hch & Hbits); [intros ->; tauto|].
  destruct IHfmt as (IHsr & IHch & IHbits); [tauto|].
  repeat split; congruence.
Qed.

Section Parse.

Context {F : Type} {number : JSNumber F}.

Lemma enough_initially (view : ArrayBuffer) :
  enough view (List.length view) AudioService.initial.
Proof.
  unfold enough, byteLength. cbn [AudioService.l_offset AudioService.initial]. lia.
Qed.

(** The [None] branch of [parseWAVHeader] is never taken. *)
Lemma parseWAVHeader_walks (view : ArrayBuffer) :
  exists walked,
    AudioService.chunk_loop (List.length view) view AudioService.initial = Some walked.
Proof.
  apply chunk_loop_total, enough_initially.
Qed.

Lemma chunk_loop_ended (view : ArrayBuffer) (fuel : nat) (l : AudioService.locals) :
  byteLength view - 8 <= AudioService.l_offset l ->
  AudioService.chunk_loop fuel view l = Some (Ok l).
Proof.
  intros Hend.
  destruct fuel; simpl;
    destruct (Z.ltb_spec (AudioService.l_offset l) (byteLength view - 8));
    (reflexivity || lia).
Qed.

(** C10: when the container has its RIFF and WAVE tags and the chunk walk
    arrives at a data chunk having stepped over no format chunk,
    [parseWAVHeader] throws nothing and returns a header whose sample rate,
    channel count and bit depth are all 0; whatever follows the data chunk,
    a format chunk included, is never looked at. *)
Theorem parse_data_before_fmt (view : ArrayBuffer) (ids : list string)
    (l : AudioService.locals) :
  fourCC view 0 = Ok "RIFF"%string ->
  fourCC view 8 = Ok "WAVE"%string ->
  walk_from view AudioService.initial ids l ->
  ~ In "fmt "%string ids ->
  AudioService.l_offset l < byteLength view - 8 ->
  fourCC view (AudioService.l_offset l) = Ok "data"%string ->
  exists wavInfo : WAVInfo F,
    AudioService.parseWAVHeader view = Ok wavInfo
    /\ sampleRate wavInfo = 0
    /\ channels wavInfo = 0
    /\ bitsPerSample wavInfo = 0
    /\ dataOffset wavInfo = AudioService.l_offset l + 8
    /\ getUint32 view (AudioService.l_offset l + 4) = Ok (dataSize wavInfo).
Proof.
  intros Hriff Hwave Hwalk Hnofmt Hin Hdata.
  pose proof (walk_from_offset _ _ _ _ Hwalk) as Hoff.
  cbn [AudioService.l_offset AudioService.initial] in Hoff.
  destruct (getUint32_in_range view (AudioService.l_offset l + 4))
    as (chunkSize & Hsize & _); [lia | lia |].
  destruct (walk_from_keeps _ _ _ _ Hwalk) as (Hdo & Hds & Hfmt).
  destruct (Hfmt Hnofmt) as (Hsr & Hch & Hbits).
  eexists. split.
  - unfold AudioService.parseWAVHeader.
    rewrite Hriff, bind_Ok. cbn [String.eqb Ascii.eqb Bool.eqb negb].
    rewrite Hwave, bind_Ok. cbn [String.eqb Ascii.eqb Bool.eqb negb].
    rewrite (chunk_loop_walk _ _ _ _ _ Hwalk (enough_initially view)).
    assert (Hfuel : exists fuel, List.length view = S fuel).
    { unfold byteLength in Hin. destruct (List.length view); [lia | eauto]. }
    destruct Hfuel as [fuel ->].
    cbn [AudioService.chunk_loop].
    destruct (Z.ltb_spec (AudioService.l_offset l) (byteLength view - 8)); [|lia].
    rewrite (chunk_step_data _ _ _ Hdata Hsize), bind_Ok.
    cbn [AudioService.l_dataOffset].
    destruct (Z.eqb_spec (AudioService.l_offset l + 8) (-1)); [lia|].
    reflexivity.
  - cbn. rewrite Hsr, Hch, Hbits, Hsize. auto.
Qed.

(** A walk that returns normally either ran to the end of the buffer or
    stopped on a data chunk. *)
Lemma chunk_loop_Ok (view : ArrayBuffer) (fuel : nat) (l lf : AudioService.locals) :
  AudioService.chunk_loop fuel view l = Some (Ok lf) ->
  exists ids l1,
    walk_from view l ids l1
    /\ ((byteLength view - 8 <= AudioService.l_offset l1 /\ lf = l1)
        \/ (AudioService.l_offset l1 < byteLength view - 8
            /\ AudioService.chunk_step view l1 = Ok (AudioService.Break lf))).
Proof.
  revert l. induction fuel as [|fuel IH]; intros l; cbn [AudioService.chunk_loop];
    destruct (Z.ltb_spec (AudioService.l_offset l) (byteLength view - 8)) as [Hin|Hout];
    try discriminate;
    try (intros Heq; injection Heq as <-; exists [], l; split; [constructor | auto]).
  destruct (AudioService.chunk_step view l) as [[l'|l']|e] eqn:Hstep; try discriminate.
  - intros Hloop. destruct (IH _ Hloop) as (ids & l1 & Hwalk & Hstop).
    destruct (chunk_step_continue _ _ _ Hstep) as (id & _ & Hid & _).
    exists (id :: ids), l1. split; [|exact Hstop].
    econstructor; eassumption.
  - intros Heq. injection Heq as <-. exists [], l. split; [constructor | auto].
Qed.

(** No header without a data chunk: when [parseWAVHeader] returns a header,
    the walk stopped on a data chunk, and the header points 8 bytes past
    it. *)
Lemma parse_header_from_data_chunk (view : ArrayBuffer) (wavInfo : WAVInfo F) :
  AudioService.parseWAVHeader view = Ok wavInfo ->
  exists ids l,
    walk_from view AudioService.initial ids l
    /\ AudioService.l_offset l < byteLength view - 8
    /\ fourCC view (AudioService.l_offset l) = Ok "data"%string
    /\ dataOffset wavInfo = AudioService.l_offset l + 8
    /\ getUint32 view (AudioService.l_offset l + 4) = Ok (dataSize wavInfo).
Proof.
  unfold AudioService.parseWAVHeader.
  destruct (fourCC view 0) as [riff|e]; [|discriminate]. rewrite bind_Ok.
  destruct (negb (riff =? "RIFF")%string); [discriminate|].
  destruct (fourCC view 8) as [wave|e]; [|discriminate]. rewrite bind_Ok.
  destruct (negb (wave =? "WAVE")%string); [discriminate|].
  destruct (AudioService.chunk_loop (List.length view) view AudioService.initial)
    as [[lf|e]|] eqn:Hloop; try discriminate.
  rewrite bind_Ok.
  destruct (chunk_loop_Ok _ _ _ _ Hloop) as (ids & l & Hwalk & [[Hend ->]|[Hin Hstep]]).
  - destruct (walk_from_keeps _ _ _ _ Hwalk) as (-> & _). discriminate.
  - destruct (chunk_step_break _ _ _ Hstep) as (chunkSize & Hid & Hsize & ->).
    cbn [AudioService.l_dataOffset AudioService.l_dataSize].
    destruct (AudioService.l_offset l + 8 =? -1); [discriminate|].
    intros Heq. apply Ok_inj in Heq. subst wavInfo.
    exists ids, l. cbn. auto.
Qed.

End Parse.


Lemma parse_data_before_fmt_witness :
  exists wavInfo : WAVInfo float,
    AudioService.parseWAVHeader data_before_fmt = Ok wavInfo
    /\ sampleRate wavInfo = 0
    /\ channels wavInfo = 0
    /\ bitsPerSample wavInfo = 0
    /\ dataOffset wavInfo = 24 + 8
    /\ getUint32 data_before_fmt (24 + 4) = Ok (dataSize wavInfo).
Proof.
  eapply (parse_data_before_fmt data_before_fmt ["LIST"%string]
            {| AudioService.l_offset := 24;
               AudioService.l_dataOffset := -1;
               AudioService.l_dataSize := 0;
               AudioService.l_sampleRate := 0;
               AudioService.l_channels := 0;
               AudioService.l_bitsPerSample := 0 |}).
  - reflexivity.
  - reflexivity.
  - eapply walk_step.
    + vm_compute. reflexivity.
    + reflexivity.
    + reflexivity.
    + apply walk_done.
  - simpl. intros [Heq | []]. discriminate Heq.
  - vm_compute. reflexivity.
  - reflexivity.
Defined.

(** ** Filtering and merging segments *)

Section Segments.

Context {F : Type} {number : JSNumber F}.

Implicit Types (segments : list (AudioSegment F)) (segment : AudioSegment F).

(** The callback of [filterSpeechSegments] decides [survives]. *)
Lemma survives_callback (minDurationMs minProbability : F) segment :
  isSpeech segment
  && geb (mul (sub (endTime segment) (startTime segment)) (of_Z 1000)) minDurationMs
  && geb (probability segment) minProbability = true
  <-> survives minDurationMs minProbability segment.
Proof.
  unfold survives. rewrite !andb_true_iff. tauto.
Qed.

(** C6: [filterSpeechSegments] keeps a segment exactly when it is speech,
    its duration in milliseconds is at least [minDurationMs] and its
    probability is at least [minProbability]; and it keeps the order: a
    segment that stands between two parts of the input stands, if kept,
    between what is kept of these two parts. *)
Theorem filterSpeechSegments_keeps segments (minDurationMs minProbability : F) :
  (forall segment,
      In segment (AudioService.filterSpeechSegments segments minDurationMs minProbability)
      <-> In segment segments /\ survives minDurationMs minProbability segment)
  /\ (forall before segment after,
        segments = before ++ segment :: after ->
        (survives minDurationMs minProbability segment ->
         AudioService.filterSpeechSegments segments minDurationMs minProbability
         = AudioService.filterSpeechSegments before minDurationMs minProbability
           ++ segment
           :: AudioService.filterSpeechSegments after minDurationMs minProbability)
        /\ (~ survives minDurationMs minProbability segment ->
            AudioService.filterSpeechSegments segments minDurationMs minProbability
            = AudioService.filterSpeechSegments before minDurationMs minProbability
              ++ AudioService.filterSpeechSegments after minDurationMs minProbability)).
Proof.
  unfold AudioService.filterSpeechSegments. split.
  - intros segment. rewrite filter_In, survives_callback. reflexivity.
  - intros before segment after ->. rewrite filter_app. cbn [filter].
    split; intros Hkeep.
    + apply survives_callback in Hkeep. now rewrite Hkeep.
    + rewrite <- survives_callback in Hkeep.
      apply not_true_is_false in Hkeep. now rewrite Hkeep.
Qed.

Lemma filter_twice {A : Type} (f : A -> bool) (l : list A) :
  filter f (filter f l) = filter f l.
Proof.
  induction l as [|x l IH]; [reflexivity|].
  simpl. destruct (f x) eqn:Hfx; [|exact IH].
  simpl. now rewrite Hfx, IH.
Qed.

(** C7: filtering twice with the same thresholds is filtering once. *)
Theorem filterSpeechSegments_idempotent segments (minDurationMs minProbability : F) :
  AudioService.filterSpeechSegments
    (AudioService.filterSpeechSegments segments minDurationMs minProbability)
    minDurationMs minProbability
  = AudioService.filterSpeechSegments segments minDurationMs minProbability.
Proof.
  apply filter_twice.
Qed.

(** The samples of [segments], one segment after the other. *)
Lemma store_middle {A : Type} (pre old post source : list A) :
  List.length old = List.length source ->
  store (pre ++ old ++ post) (Z.of_nat (List.length pre)) source
  = Ok (pre ++ source ++ post).
Proof.
  intros Hlen. unfold store, splice.
  rewrite !length_app, Nat2Z.id.
  destruct (Z.leb_spec 0 (Z.of_nat (List.length pre))); [|lia].
  destruct (Z.leb_spec (Z.of_nat (List.length pre) + Z.of_nat (List.length source))
              (Z.of_nat (List.length pre + (List.length old + List.length post))));
    [|lia].
  cbn [andb]. f_equal.
  rewrite firstn_app, Nat.sub_diag, firstn_all. cbn [firstn]. rewrite app_nil_r.
  rewrite skipn_app, (skipn_all2 pre) by lia. cbn [app].
  replace (List.length pre + List.length source - List.length pre)%nat
    with (List.length old) by lia.
  rewrite skipn_app, skipn_all, Nat.sub_diag. reflexivity.
Qed.

Lemma merge_loop_concat segments (merged rest : Int16Array) :
  List.length rest = List.length (List.concat (map data segments)) ->
  AudioService.merge_loop segments (merged ++ rest) (Z.of_nat (List.length merged))
  = Ok (merged ++ List.concat (map data segments)).
Proof.
  revert merged rest.
  induction segments as [|segment segments IH]; intros merged rest Hrest.
  - destruct rest; [reflexivity | discriminate].
  - cbn [map List.concat] in *. rewrite length_app in Hrest.
    cbn [AudioService.merge_loop].
    rewrite <- (firstn_skipn (List.length (data segment)) rest).
    rewrite store_middle by (rewrite firstn_length_le; lia).
    rewrite bind_Ok.
    replace (Z.of_nat (List.length merged) + Z.of_nat (List.length (data segment)))
      with (Z.of_nat (List.length (merged ++ data segment)))
      by (rewrite length_app; lia).
    rewrite (app_assoc merged (data segment) (skipn _ rest)).
    rewrite IH by (rewrite length_skipn; lia).
    now rewrite <- app_assoc.
Qed.

Lemma total_length segments (sum : Z) :
  fold_left (fun sum segment => sum + Z.of_nat (List.length (data segment))) segments sum
  = sum + Z.of_nat (List.length (List.concat (map data segments))).
Proof.
  revert sum. induction segments as [|segment segments IH]; intros sum; simpl; [lia|].
  rewrite IH, length_app. lia.
Qed.

Lemma mergeAudioSegments_concat segments :
  AudioService.mergeAudioSegments segments = Ok (List.concat (map data segments)).
Proof.
  unfold AudioService.mergeAudioSegments.
  destruct segments as [|segment segments]; [reflexivity|].
  replace (Z.of_nat (List.length (segment :: segments)) =? 0) with false
    by (symmetry; apply Z.eqb_neq; simpl; lia).
  rewrite total_length, Z.add_0_l.
  unfold newInt16Array. rewrite Nat2Z.id.
  apply (merge_loop_concat (segment :: segments) []).
  apply repeat_length.
Qed.

Lemma concat_length_sum segments :
  List.length (List.concat (map data segments))
  = list_sum (map (fun segment => List.length (data segment)) segments).
Proof.
  induction segments as [|segment segments IH]; simpl; [reflexivity|].
  now rewrite length_app, IH.
Qed.

End Segments.

(** ** The frame loop of [processAudioWithVAD] *)

Lemma slice_length {A : Type} (l : list A) (first final : Z) :
  0 <= first -> first <= final -> final <= Z.of_nat (List.length l) ->
  List.length (slice l first final) = Z.to_nat (final - first).
Proof.
  intros Hfirst Horder Hfinal. unfold slice.
  rewrite !Z.min_l by lia. rewrite Z.max_l by lia.
  rewrite firstn_length_le; [reflexivity|].
  rewrite length_skipn. lia.
Qed.

Section FrameLoop.

Context {F : Type} {number : JSNumber F} {Engine : Type}.
Variable processAudioFrame : Engine -> Int16Array -> result (VAD.VADResult F) * Engine.
Variable audioData : Int16Array.
Variable sampleRate : F.

Implicit Types (a : VADService.accumulator (F := F) (Engine := Engine)).

Lemma frame_length (i : Z) :
  0 <= i -> (i + 1) * VAD.HOP_SIZE <= Z.of_nat (List.length audioData) ->
  List.length (frame audioData i) = 256%nat.
Proof.
  unfold frame, VAD.HOP_SIZE. intros Hi Hfit.
  rewrite slice_length by lia.
  replace (i * 256 + 256 - i * 256) with 256 by lia. reflexivity.
Qed.

(** On a whole frame the padding branch is not taken. *)
Lemma frame_data_whole (i : Z) :
  0 <= i -> (i + 1) * VAD.HOP_SIZE <= Z.of_nat (List.length audioData) ->
  VADService.frame_data audioData (i * VAD.HOP_SIZE)
    (Z.min (i * VAD.HOP_SIZE + VAD.HOP_SIZE) (Z.of_nat (List.length audioData)))
  = Ok (frame audioData i).
Proof.
  intros Hi Hfit. unfold VADService.frame_data.
  rewrite Z.min_l by lia. fold (frame audioData i).
  rewrite frame_length by assumption. reflexivity.
Qed.

Lemma frame_step_whole (i : Z) a :
  0 <= i -> (i + 1) * VAD.HOP_SIZE <= Z.of_nat (List.length audioData) ->
  VADService.frame_step processAudioFrame audioData sampleRate i a
  = Ok (absorb processAudioFrame audioData sampleRate i a).
Proof.
  intros Hi Hfit. unfold VADService.frame_step, absorb.
  rewrite frame_data_whole, bind_Ok by assumption.
  rewrite Z.min_l by lia.
  destruct (processAudioFrame (VADService.a_engine a) (frame audioData i)) as [[r|e] engine];
    reflexivity.
Qed.

Lemma frame_loop_absorb (n : nat) (i : Z) a :
  0 <= i -> (i + Z.of_nat n) * VAD.HOP_SIZE <= Z.of_nat (List.length audioData) ->
  VADService.frame_loop processAudioFrame n audioData sampleRate i a
  = Ok (absorb_from processAudioFrame audioData sampleRate i n a).
Proof.
  revert i a. induction n as [|n IH]; intros i a Hi Hfit; [reflexivity|].
  cbn [VADService.frame_loop absorb_from].
  rewrite frame_step_whole, bind_Ok by (unfold VAD.HOP_SIZE in *; lia).
  apply IH; unfold VAD.HOP_SIZE in *; lia.
Qed.

(** The frame count times the hop never exceeds the buffer. *)
Lemma frame_count_fits :
  (0 + Z.of_nat (Z.to_nat (Z.of_nat (List.length audioData) / VAD.HOP_SIZE)))
  * VAD.HOP_SIZE <= Z.of_nat (List.length audioData).
Proof.
  unfold VAD.HOP_SIZE.
  pose proof (Z.div_pos (Z.of_nat (List.length audioData)) 256 ltac:(lia) ltac:(lia)).
  rewrite Z2Nat.id by assumption.
  pose proof (Z.mul_div_le (Z.of_nat (List.length audioData)) 256 ltac:(lia)). lia.
Qed.

(** [processAudioWithVAD] in one equation: it never throws once the engine
    exists. *)
Lemma processAudioWithVAD_absorbs (engine : Engine) :
  let frameCount := Z.of_nat (List.length audioData) / VAD.HOP_SIZE in
  let a := absorb_from processAudioFrame audioData sampleRate 0 (Z.to_nat frameCount)
             (start engine) in
  VADService.processAudioWithVAD (Ok engine) processAudioFrame audioData sampleRate
  = Ok ({| totalFrames := frameCount;
           speechFrames := VADService.a_speechFrames a;
           speechPercentage :=
             if 0 <? frameCount
             then mul (div (of_Z (VADService.a_speechFrames a)) (of_Z frameCount)) (of_Z 100)
             else of_Z 0;
           hasSpeech := 0 <? VADService.a_speechFrames a;
           avgProbability :=
             if 0 <? frameCount
             then div (VADService.a_totalProbability a) (of_Z frameCount)
             else of_Z 0;
           segments := VADService.close_last a |},
        VADService.a_engine a).
Proof.
  intros frameCount a. unfold VADService.processAudioWithVAD.
  rewrite bind_Ok. fold frameCount.
  fold (start engine).
  rewrite frame_loop_absorb by (lia || apply frame_count_fits).
  reflexivity.
Qed.

(** The cases of one iteration: the classification fails, or the frame is
    speech or not, with a segment open or not. *)
Ltac absorb_cases a i :=
  unfold absorb, open_count, is_open;
  destruct (processAudioFrame (VADService.a_engine a) (frame audioData i))
    as [[?r|?e] ?engine];
  cbn [fst snd speech_flags];
  [ unfold VADService.on_result;
    destruct (VAD.isSpeech r) eqn:?Hspeech;
    destruct (VADService.a_currentSegment a) as [?c|] eqn:?Hcurrent
  | unfold VADService.on_failure;
    destruct (VADService.a_currentSegment a) as [?c|] eqn:?Hcurrent ];
  cbn [VADService.a_engine VADService.a_speechFrames VADService.a_totalProbability
       VADService.a_segments VADService.a_currentSegment fst snd speech_flags runs].

Lemma absorb_engine (i : Z) a :
  VADService.a_engine (absorb processAudioFrame audioData sampleRate i a)
  = snd (processAudioFrame (VADService.a_engine a) (frame audioData i)).
Proof.
  absorb_cases a i; reflexivity.
Qed.

(** The engine is given the whole frames of the buffer, in order, and
    nothing else. *)
Lemma absorb_from_engine (n : nat) (i : Z) a :
  VADService.a_engine (absorb_from processAudioFrame audioData sampleRate i n a)
  = fed processAudioFrame (VADService.a_engine a) (frames_from audioData i n).
Proof.
  revert i a. induction n as [|n IH]; intros i a; [reflexivity|].
  cbn [absorb_from frames_from]. unfold fed in *. cbn [fold_left].
  now rewrite IH, absorb_engine.
Qed.

(** One segment per maximal run of speech among the classified frames. *)
Lemma absorb_from_runs (n : nat) (i : Z) a :
  List.length (VADService.close_last
                 (absorb_from processAudioFrame audioData sampleRate i n a))
  = (List.length (VADService.a_segments a) + open_count a
     + runs (is_open a)
         (speech_flags (classifications processAudioFrame (VADService.a_engine a)
                          (frames_from audioData i n))))%nat.
Proof.
  revert i a. induction n as [|n IH]; intros i a.
  - cbn [absorb_from frames_from classifications speech_flags runs].
    unfold VADService.close_last, open_count, is_open.
    destruct (VADService.a_currentSegment a); [rewrite length_app; simpl|]; lia.
  - cbn [absorb_from frames_from classifications].
    rewrite IH, absorb_engine. clear IH.
    absorb_cases a i; rewrite ?length_app; cbn [List.length]; lia.
Qed.

(** [speechFrames] counts the frames classified as speech. *)
Lemma absorb_from_speechFrames (n : nat) (i : Z) a :
  VADService.a_speechFrames (absorb_from processAudioFrame audioData sampleRate i n a)
  = VADService.a_speechFrames a
    + speech_count (speech_flags (classifications processAudioFrame
                                    (VADService.a_engine a)
                                    (frames_from audioData i n))).
Proof.
  revert i a. induction n as [|n IH]; intros i a.
  - cbn. unfold speech_count. simpl. lia.
  - cbn [absorb_from frames_from classifications].
    rewrite IH, absorb_engine. clear IH. unfold speech_count.
    absorb_cases a i; cbn [filter List.length]; lia.
Qed.

End FrameLoop.

(** ** Segments in time *)

Lemma StronglySorted_snoc {A : Type} (R : A -> A -> Prop) (l : list A) (x : A) :
  StronglySorted R l -> Forall (fun y => R y x) l -> StronglySorted R (l ++ [x]).
Proof.
  induction 1 as [|y l Hsorted IH Hy]; intros Hall; simpl.
  - repeat constructor.
  - inversion Hall; subst. constructor; [now apply IH|].
    apply Forall_app. split; [assumption | now constructor].
Qed.

Lemma StronglySorted_nth {A : Type} (R : A -> A -> Prop) (l : list A)
    (i j : nat) (x y : A) :
  StronglySorted R l -> (i < j)%nat ->
  nth_error l i = Some x -> nth_error l j = Some y -> R x y.
Proof.
  intros Hsorted. revert i j.
  induction Hsorted as [|z l Hsorted IH Hz]; intros i j Hij Hi Hj.
  - destruct i; discriminate.
  - destruct j as [|j]; [lia|]. destruct i as [|i]; simpl in *.
    + inversion Hi; subst. rewrite Forall_forall in Hz.
      apply Hz. eapply nth_error_In; eassumption.
    + apply (IH i j); (lia || assumption).
Qed.

Ltac split_and := repeat match goal with |- _ /\ _ => split end.

Section Ordering.

Context {Engine : Type}.
Variable processAudioFrame : Engine -> Int16Array -> result (VAD.VADResult Q) * Engine.
Variable audioData : Int16Array.
Variable sampleRate : Q.
Hypothesis positive_rate : (0 < sampleRate)%Q.

Lemma frame_time_mono (i j : Z) :
  i <= j -> (frame_time sampleRate i <= frame_time sampleRate j)%Q.
Proof.
  intros Hij. unfold frame_time, Qdiv.
  apply Qmult_le_compat_r.
  - rewrite <- Zle_Qle. unfold VAD.HOP_SIZE. lia.
  - apply Qlt_le_weak, Qinv_lt_0_compat, positive_rate.
Qed.

Lemma hop_positive : (0 < inject_Z VAD.HOP_SIZE / sampleRate)%Q.
Proof.
  unfold Qdiv. apply Qmult_lt_0_compat; [reflexivity|].
  apply Qinv_lt_0_compat, positive_rate.
Qed.

Lemma frame_time_next (i : Z) :
  (frame_time sampleRate i + inject_Z VAD.HOP_SIZE / sampleRate
   == frame_time sampleRate (i + 1))%Q.
Proof.
  unfold frame_time.
  replace ((i + 1) * VAD.HOP_SIZE) with (i * VAD.HOP_SIZE + VAD.HOP_SIZE) by lia.
  rewrite inject_Z_plus. field.
  intros Hzero. rewrite Hzero in positive_rate. discriminate positive_rate.
Qed.

Lemma absorb_ordered (i : Z) (a : @VADService.accumulator Q Engine) :
  ordered_upto sampleRate i a ->
  ordered_upto sampleRate (i + 1) (absorb processAudioFrame audioData sampleRate i a).
Proof.
  unfold ordered_upto. intros (Hsorted & Hover & Hproper & Hopen).
  pose proof (frame_time_mono i (i + 1) ltac:(lia)) as Hmono.
  pose proof (frame_time_next i) as Hnext.
  pose proof hop_positive as Hhop.
  assert (Hover' : Forall (fun x => (endTime x <= frame_time sampleRate (i + 1))%Q)
                     (VADService.a_segments a)).
  { eapply Forall_impl; [|exact Hover]. cbv beta. intros x Hx.
    eapply Qle_trans; eassumption. }
  unfold absorb.
  destruct (processAudioFrame (VADService.a_engine a) (frame audioData i))
    as [[r|e] engine].
  - unfold VADService.on_result.
    destruct (VAD.isSpeech r); destruct (VADService.a_currentSegment a) as [c|];
      cbn [VADService.a_segments VADService.a_currentSegment startTime endTime
           of_Z add div Q_number].
    + destruct Hopen as (Hbefore & Hend & Hlen).
      split_and; try assumption.
      * fold (frame_time sampleRate i). rewrite Hnext. apply Qle_refl.
      * fold (frame_time sampleRate i).
        eapply Qlt_le_trans; [exact Hlen|].
        eapply Qle_trans; [exact Hend|].
        rewrite <- (Qplus_0_r (frame_time sampleRate i)) at 1.
        apply Qplus_le_r, Qlt_le_weak, Hhop.
    + split_and; try assumption.
      * fold (frame_time sampleRate i). rewrite Hnext. apply Qle_refl.
      * fold (frame_time sampleRate i).
        rewrite <- (Qplus_0_r (frame_time sampleRate i)) at 1.
        apply Qplus_lt_r, Hhop.
    + destruct Hopen as (Hbefore & Hend & Hlen).
      split_and; try exact I.
      * apply StronglySorted_snoc; assumption.
      * apply Forall_app. split; [assumption|]. constructor; [|constructor].
        eapply Qle_trans; eassumption.
      * apply Forall_app. split; [assumption|]. now constructor.
    + split_and; assumption.
  - unfold VADService.on_failure.
    cbn [VADService.a_segments VADService.a_currentSegment].
    split_and; try assumption.
    destruct (VADService.a_currentSegment a) as [c|]; [|exact I].
    destruct Hopen as (Hbefore & Hend & Hlen).
    split_and; try assumption. eapply Qle_trans; eassumption.
Qed.

Lemma absorb_from_ordered (n : nat) (i : Z) (a : @VADService.accumulator Q Engine) :
  ordered_upto sampleRate i a ->
  ordered_upto sampleRate (i + Z.of_nat n)
    (absorb_from processAudioFrame audioData sampleRate i n a).
Proof.
  revert i a. induction n as [|n IH]; intros i a Hordered.
  - now rewrite Z.add_0_r.
  - cbn [absorb_from].
    replace (i + Z.of_nat (S n)) with (i + 1 + Z.of_nat n) by lia.
    apply IH, absorb_ordered, Hordered.
Qed.

Lemma close_last_ordered (i : Z) (a : @VADService.accumulator Q Engine) :
  ordered_upto sampleRate i a ->
  StronglySorted precedes (VADService.close_last a)
  /\ Forall (fun x => (startTime x < endTime x)%Q) (VADService.close_last a).
Proof.
  unfold ordered_upto, VADService.close_last.
  intros (Hsorted & Hover & Hproper & Hopen).
  destruct (VADService.a_currentSegment a) as [c|]; [|auto].
  destruct Hopen as (Hbefore & Hend & Hlen). split.
  - apply StronglySorted_snoc; assumption.
  - apply Forall_app. split; [assumption | now constructor].
Qed.

End Ordering.

(** ** What [processAudioWithVAD] returns *)

Lemma precedes_disjoint (x y : AudioSegment Q) :
  (startTime x < endTime x)%Q -> precedes x y ->
  ~ overlap x y /\ (startTime x < startTime y)%Q.
Proof.
  unfold precedes, overlap. intros Hx Hxy. split.
  - intros (t & _ & Htx & Hyt & _).
    apply (Qlt_irrefl t).
    eapply Qlt_le_trans; [exact Htx|]. eapply Qle_trans; eassumption.
  - eapply Qlt_le_trans; eassumption.
Qed.

(** In exact arithmetic and at a positive sample rate, the segments
    [processAudioWithVAD] returns are in temporal order and pairwise
    disjoint as [[startTime, endTime)] intervals, each is a proper interval,
    and there are as many of them as there are maximal runs of speech among
    the classification results, a run still open at the end included. *)
Lemma segments_ordered_in_exact_time {Engine : Type}
    (processAudioFrame : Engine -> Int16Array -> result (VAD.VADResult Q) * Engine)
    (engine : Engine) (audioData : Int16Array) (sampleRate : Q) :
  (0 < sampleRate)%Q ->
  exists (r : VADResult Q) (engine' : Engine),
    VADService.processAudioWithVAD (Ok engine) processAudioFrame audioData sampleRate
    = Ok (r, engine')
    /\ (forall (i j : nat) (x y : AudioSegment Q),
          (i < j)%nat ->
          nth_error (segments r) i = Some x ->
          nth_error (segments r) j = Some y ->
          ~ overlap x y /\ (endTime x <= startTime y)%Q /\ (startTime x < startTime y)%Q)
    /\ Forall (fun x => (startTime x < endTime x)%Q) (segments r)
    /\ List.length (segments r)
       = speech_runs (speech_flags (classifications processAudioFrame engine
                                      (frames audioData))).
Proof.
  intros Hrate.
  pose proof (processAudioWithVAD_absorbs processAudioFrame audioData sampleRate engine)
    as Hrun.
  cbv zeta in Hrun. eexists. eexists. split; [exact Hrun|].
  cbn [segments].
  assert (Hstart : ordered_upto sampleRate 0 (start engine)).
  { unfold ordered_upto, start. cbn. repeat constructor. }
  apply (absorb_from_ordered processAudioFrame audioData sampleRate Hrate
           (Z.to_nat (Z.of_nat (List.length audioData) / VAD.HOP_SIZE))) in Hstart.
  apply close_last_ordered in Hstart. destruct Hstart as (Hsorted & Hproper).
  split_and.
  - intros i j x y Hij Hi Hj.
    pose proof (StronglySorted_nth _ _ _ _ _ _ Hsorted Hij Hi Hj) as Hxy.
    assert (Hx : (startTime x < endTime x)%Q).
    { rewrite Forall_forall in Hproper. apply Hproper.
      eapply nth_error_In; eassumption. }
    destruct (precedes_disjoint x y Hx Hxy). auto.
  - exact Hproper.
  - rewrite absorb_from_runs. reflexivity.
Qed.

Section Statistics.

Context {F : Type} {number : JSNumber F} {Engine : Type}.
Variable processAudioFrame : Engine -> Int16Array -> result (VAD.VADResult F) * Engine.

(** C8: [processAudioWithVAD] throws nothing; [totalFrames] is the sample
    count divided by the hop size, rounded down, hence 0 for fewer than 256
    samples; when it is 0 both [speechPercentage] and [avgProbability] are
    0, otherwise [speechPercentage] is [speechFrames / totalFrames * 100],
    where [speechFrames] counts the frames classified as speech. *)
Theorem statistics_of_frames (engine : Engine) (audioData : Int16Array) (sampleRate : F) :
  exists (r : VADResult F) (engine' : Engine),
    VADService.processAudioWithVAD (Ok engine) processAudioFrame audioData sampleRate
    = Ok (r, engine')
    /\ totalFrames r = Z.of_nat (List.length audioData) / VAD.HOP_SIZE
    /\ (Z.of_nat (List.length audioData) < VAD.HOP_SIZE -> totalFrames r = 0)
    /\ (totalFrames r = 0 ->
        speechPercentage r = of_Z 0 /\ avgProbability r = of_Z 0)
    /\ (0 < totalFrames r ->
        speechPercentage r
        = mul (div (of_Z (speechFrames r)) (of_Z (totalFrames r))) (of_Z 100))
    /\ speechFrames r
       = speech_count (speech_flags (classifications processAudioFrame engine
                                       (frames audioData))).
Proof.
  pose proof (processAudioWithVAD_absorbs processAudioFrame audioData sampleRate engine)
    as Hrun.
  cbv zeta in Hrun. eexists. eexists. split; [exact Hrun|].
  cbn [totalFrames speechPercentage avgProbability speechFrames].
  split_and.
  - reflexivity.
  - intros Hshort. apply Z.div_small. lia.
  - intros ->. split; reflexivity.
  - intros Hpos. apply Z.ltb_lt in Hpos. now rewrite Hpos.
  - rewrite absorb_from_speechFrames. reflexivity.
Qed.

(** The engine is given the whole frames of the buffer and nothing else:
    [floor(length / 256)] frames of exactly 256 samples each. *)
Lemma frames_from_whole (audioData : Int16Array) (n : nat) (i : Z) :
  0 <= i -> (i + Z.of_nat n) * VAD.HOP_SIZE <= Z.of_nat (List.length audioData) ->
  Forall (fun f => List.length f = 256%nat) (frames_from audioData i n).
Proof.
  revert i. induction n as [|n IH]; intros i Hi Hfit; [constructor|].
  cbn [frames_from]. constructor.
  - apply frame_length; unfold VAD.HOP_SIZE in *; lia.
  - apply IH; unfold VAD.HOP_SIZE in *; lia.
Qed.

Lemma frames_from_length (audioData : Int16Array) (n : nat) (i : Z) :
  List.length (frames_from audioData i n) = n.
Proof.
  revert i. induction n as [|n IH]; intros i; simpl; [reflexivity | now rewrite IH].
Qed.

Lemma engine_is_fed_whole_frames (engine : Engine) (audioData : Int16Array)
    (sampleRate : F) :
  exists r : VADResult F,
    VADService.processAudioWithVAD (Ok engine) processAudioFrame audioData sampleRate
    = Ok (r, fed processAudioFrame engine (frames audioData))
    /\ Z.of_nat (List.length (frames audioData))
       = Z.of_nat (List.length audioData) / VAD.HOP_SIZE
    /\ Forall (fun f => List.length f = 256%nat) (frames audioData).
Proof.
  pose proof (processAudioWithVAD_absorbs processAudioFrame audioData sampleRate engine)
    as Hrun.
  cbv zeta in Hrun. rewrite absorb_from_engine in Hrun.
  eexists. split; [exact Hrun|]. split.
  - unfold frames. rewrite frames_from_length.
    apply Z2Nat.id, Z.div_pos; unfold VAD.HOP_SIZE; lia.
  - apply frames_from_whole; [lia | apply frame_count_fits].
Qed.

End Statistics.

(** C3 fails on the code: of 300 samples the classifier is given the first
    256 and nothing else; the 44 samples that remain are not padded to a
    second frame, they are dropped, and one frame is counted. *)
Theorem partial_frame_is_dropped :
  exists r : VADResult float,
    VADService.processAudioWithVAD (Ok []) record (ramp 300) 16000%float
    = Ok (r, [firstn 256 (ramp 300)])
    /\ totalFrames r = 1.
Proof.
  eexists. split; vm_compute; reflexivity.
Qed.

(** ** The probability of a segment *)

Section Smoothing.

Context {F : Type} {number : JSNumber F}.
Variable audioData : Int16Array.
Variable sampleRate : F.

Implicit Types (a : @VADService.accumulator F (Script F)) (ps : list F).

(** Speech frames on an open segment: its probability is smoothed once per
    frame, and nothing is closed. *)
Lemma smooth_open ps (rest : Script F) (i : Z) a (c : AudioSegment F) :
  VADService.a_currentSegment a = Some c ->
  VADService.a_engine a = map speech ps ++ rest ->
  exists c' : AudioSegment F,
    VADService.a_currentSegment
      (absorb_from replay audioData sampleRate i (List.length ps) a) = Some c'
    /\ probability c' = fold_left smooth ps (probability c)
    /\ VADService.a_segments (absorb_from replay audioData sampleRate i (List.length ps) a)
       = VADService.a_segments a
    /\ VADService.a_engine (absorb_from replay audioData sampleRate i (List.length ps) a)
       = rest.
Proof.
  revert i a c. induction ps as [|p ps IH]; intros i a c Hopen Hscript.
  - exists c. cbn. auto.
  - cbn [List.length absorb_from fold_left].
    edestruct (IH (i + 1) (absorb replay audioData sampleRate i a)) as (c' & Hc' & Hp & Hs & He).
    + unfold absorb. rewrite Hscript. cbn [map app replay speech].
      unfold VADService.on_result. cbn [VAD.isSpeech]. rewrite Hopen.
      cbn [VADService.a_currentSegment]. reflexivity.
    + unfold absorb. rewrite Hscript. cbn [map app replay speech].
      unfold VADService.on_result. cbn [VAD.isSpeech]. rewrite Hopen. reflexivity.
    + exists c'. split; [exact Hc'|]. split; [exact Hp|]. split; [|exact He].
      rewrite Hs. unfold absorb. rewrite Hscript. cbn [map app replay speech].
      unfold VADService.on_result. cbn [VAD.isSpeech]. rewrite Hopen. reflexivity.
Qed.

(** C5: let the classifier answer "speech" with probabilities [ps] to the
    next frames.  If a segment is open, its probability [old] becomes the
    left fold of [smooth old p = (old + p) / 2] over [ps], that is
    [(old + p) / 2] after one frame; if none is open, the first frame opens
    one with its own probability and the fold runs over the others.  No
    segment is closed meanwhile. *)
Theorem probability_is_smoothed ps (rest : Script F) (i : Z) a :
  0 <= i ->
  (i + Z.of_nat (List.length ps)) * VAD.HOP_SIZE <= Z.of_nat (List.length audioData) ->
  VADService.a_engine a = map speech ps ++ rest ->
  exists a',
    VADService.frame_loop replay (List.length ps) audioData sampleRate i a = Ok a'
    /\ VADService.a_segments a' = VADService.a_segments a
    /\ VADService.a_engine a' = rest
    /\ match VADService.a_currentSegment a, ps with
       | Some c, _ =>
           option_map probability (VADService.a_currentSegment a')
           = Some (fold_left smooth ps (probability c))
       | None, p0 :: ps' =>
           option_map probability (VADService.a_currentSegment a')
           = Some (fold_left smooth ps' p0)
       | None, [] => VADService.a_currentSegment a' = None
       end.
Proof.
  intros Hi Hfit Hscript.
  rewrite frame_loop_absorb by assumption.
  eexists. split; [reflexivity|].
  destruct (VADService.a_currentSegment a) as [c|] eqn:Hopen.
  - destruct (smooth_open ps rest i a c Hopen Hscript) as (c' & Hc' & Hp & Hs & He).
    rewrite Hc'. cbn [option_map]. rewrite Hp. auto.
  - destruct ps as [|p0 ps'].
    + cbn. rewrite Hopen. rewrite Hscript. auto.
    + cbn [List.length absorb_from].
      edestruct (smooth_open ps' rest (i + 1) (absorb replay audioData sampleRate i a))
        as (c' & Hc' & Hp & Hs & He).
      * unfold absorb. rewrite Hscript. cbn [map app replay speech].
        unfold VADService.on_result. cbn [VAD.isSpeech]. rewrite Hopen.
        cbn [VADService.a_currentSegment]. reflexivity.
      * unfold absorb. rewrite Hscript. cbn [map app replay speech].
        unfold VADService.on_result. cbn [VAD.isSpeech]. rewrite Hopen. reflexivity.
      * rewrite Hc', Hs, He. cbn [option_map]. rewrite Hp.
        split_and; try reflexivity.
        unfold absorb. rewrite Hscript. cbn [map app replay speech].
        unfold VADService.on_result. cbn [VAD.isSpeech]. rewrite Hopen. reflexivity.
Qed.

End Smoothing.

(** The fold is not the mean: after probabilities 1, 0 and 0 the segment
    holds 1/4, and the mean is 1/3. *)
Lemma smooth_is_not_the_mean :
  (fold_left smooth [0; 0] 1 == 1 # 4)%Q /\ (mean [1; 0; 0] == 1 # 3)%Q.
Proof.
  split; reflexivity.
Qed.

(** ** The pipeline: no speech found, or the merged speech *)

Section Pipeline.

Context {F : Type} {number : JSNumber F} {Engine : Type}.
Variable initializeVAD : result Engine.
Variable processAudioFrame : Engine -> Int16Array -> result (VAD.VADResult F) * Engine.

(** C9: once the container is parsed and the engine exists, the pipeline
    throws nothing.  If no segment survives the filter, merging gives the
    empty buffer and the pipeline answers [speechFound = false] with the
    original buffer as [processedBuffer]; otherwise merging gives the
    samples of the surviving segments one after the other, as many as their
    lengths add up to, and the pipeline answers [speechFound = true] with
    the container written from them. *)
Theorem no_speech_or_merged (originalBuffer : ArrayBuffer) (minDurationMs minProbability : F)
    (wavInfo : WAVInfo F) (monoAudioData : Int16Array) (engine : Engine) :
  AudioService.parseWAVHeader originalBuffer = Ok wavInfo ->
  AudioService.extractMonoAudio originalBuffer wavInfo = Ok monoAudioData ->
  initializeVAD = Ok engine ->
  exists (r : VADResult F) (engine' : Engine),
    VADService.processAudioWithVAD initializeVAD processAudioFrame monoAudioData
      (of_Z (sampleRate wavInfo)) = Ok (r, engine')
    /\ let kept :=
         AudioService.filterSpeechSegments (segments r) minDurationMs minProbability in
       let merged := List.concat (map data kept) in
       AudioService.mergeAudioSegments kept = Ok merged
       /\ List.length merged
          = list_sum (map (fun segment => List.length (data segment)) kept)
       /\ (kept = [] ->
           merged = []
           /\ VADService.extractSpeechSegments initializeVAD processAudioFrame
                originalBuffer minDurationMs minProbability
              = Ok {| originalBuffer := originalBuffer;
                      processedBuffer := originalBuffer;
                      vadResult := r;
                      speechFound := false |})
       /\ (kept <> [] ->
           VADService.extractSpeechSegments initializeVAD processAudioFrame
             originalBuffer minDurationMs minProbability
           = Ok {| originalBuffer := originalBuffer;
                   processedBuffer :=
                     wav_header (Z.of_nat (List.length merged)) (sampleRate wavInfo) 1
                     ++ int16_bytes merged;
                   vadResult := r;
                   speechFound := true |}).
Proof.
  intros Hparse Hmono Hinit.
  pose proof (processAudioWithVAD_absorbs processAudioFrame monoAudioData
                (of_Z (sampleRate wavInfo)) engine) as Hrun.
  cbv zeta in Hrun. rewrite <- Hinit in Hrun.
  eexists. eexists. split; [exact Hrun|].
  cbv zeta. split; [apply mergeAudioSegments_concat|].
  split; [apply concat_length_sum|].
  unfold VADService.extractSpeechSegments.
  rewrite Hparse, bind_Ok, Hmono, bind_Ok, Hrun, bind_Ok. cbn [fst].
  split.
  - intros Hnone. rewrite Hnone. auto.
  - intros Hsome.
    match goal with
    | |- context [Z.of_nat (List.length ?kept) =? 0] =>
        replace (Z.of_nat (List.length kept) =? 0) with false
    end.
    + rewrite mergeAudioSegments_concat, bind_Ok.
      rewrite createWAVBuffer_bytes, bind_Ok. reflexivity.
    + symmetry. apply Z.eqb_neq. intros Hlen. apply Hsome.
      apply length_zero_iff_nil. lia.
Qed.

End Pipeline.

(** ** Instances on concrete inputs *)


Lemma probability_is_smoothed_witness :
  exists a',
    VADService.frame_loop replay 2 (ramp 1300) (16000 # 1)%Q 0 (start two_of_three)
    = Ok a'
    /\ VADService.a_segments a' = []
    /\ VADService.a_engine a' = [silence (1 # 10)%Q]
    /\ option_map probability (VADService.a_currentSegment a')
       = Some (fold_left smooth [(1 # 2)%Q] (9 # 10)%Q).
Proof.
  apply (probability_is_smoothed (ramp 1300) (16000 # 1)%Q [(9 # 10)%Q; (1 # 2)%Q]
           [silence (1 # 10)%Q] 0 (start two_of_three)).
  - lia.
  - vm_compute. discriminate.
  - reflexivity.
Defined.

Lemma no_speech_or_merged_witness :
  exists (r : VADResult Q) (engine' : Script Q),
    VADService.processAudioWithVAD (Ok two_of_three) replay (ramp 768)
      (of_Z (sampleRate (created_info (F := Q) 768 16000 1))) = Ok (r, engine')
    /\ let kept := AudioService.filterSpeechSegments (segments r) (20 # 1)%Q (4 # 10)%Q in
       let merged := List.concat (map data kept) in
       AudioService.mergeAudioSegments kept = Ok merged
       /\ List.length merged
          = list_sum (map (fun segment => List.length (data segment)) kept)
       /\ (kept = [] ->
           merged = []
           /\ VADService.extractSpeechSegments (Ok two_of_three) replay
                three_frames (20 # 1)%Q (4 # 10)%Q
              = Ok {| originalBuffer := three_frames;
                      processedBuffer := three_frames;
                      vadResult := r;
                      speechFound := false |})
       /\ (kept <> [] ->
           VADService.extractSpeechSegments (Ok two_of_three) replay
             three_frames (20 # 1)%Q (4 # 10)%Q
           = Ok {| originalBuffer := three_frames;
                   processedBuffer :=
                     wav_header (Z.of_nat (List.length merged))
                       (sampleRate (created_info (F := Q) 768 16000 1)) 1
                     ++ int16_bytes merged;
                   vadResult := r;
                   speechFound := true |}).
Proof.
  apply (no_speech_or_merged (Ok two_of_three) replay three_frames (20 # 1)%Q (4 # 10)%Q
           (created_info 768 16000 1) (ramp 768) two_of_three).
  - vm_compute. reflexivity.
  - vm_compute. reflexivity.
  - reflexivity.
Defined.

(* ================================================================== *)
(** * Further properties of the codec *)

(** X1: for a rate and a channel count that are integers binary64 holds
    exactly, with a product it holds exactly too (none above [2^53] in
    absolute value, so that the byte rate is the integer product),
    [createWAVBuffer] throws nothing and returns [44 + 2 * length] bytes:
    the 44-byte header with its fields at offsets 0, 4, 8, 12, 16, 20, 22,
    24, 28, 32, 34, 36 and 40, each wrapped to its width, then the samples,
    two bytes each, low byte first. *)
Theorem createWAVBuffer_layout (audioData : Int16Array) (sampleRate channels : Z) :
  Z.abs sampleRate <= 9007199254740992 ->
  Z.abs channels <= 9007199254740992 ->
  Z.abs (sampleRate * channels) <= 9007199254740992 ->
  exists buffer : ArrayBuffer,
    AudioService.createWAVBuffer audioData sampleRate channels = Ok buffer
    /\ byteLength buffer = 44 + 2 * Z.of_nat (List.length audioData)
    /\ firstn 44 buffer
       = list_byte_of_string "RIFF"
         ++ le32 (36 + 2 * Z.of_nat (List.length audioData))
         ++ list_byte_of_string "WAVEfmt " ++ le32 16 ++ le16 1 ++ le16 channels
         ++ le32 sampleRate ++ le32 (sampleRate * channels * 2)
         ++ le16 (channels * 2) ++ le16 16
         ++ list_byte_of_string "data" ++ le32 (2 * Z.of_nat (List.length audioData))
    /\ skipn 44 buffer = int16_bytes audioData.
Proof.
  intros _ _ _.
  eexists. split; [apply createWAVBuffer_bytes|].
  set (n := Z.of_nat (List.length audioData)).
  assert (Hheader : List.length (wav_header n sampleRate channels) = 44%nat)
    by reflexivity.
  split; [|split].
  - unfold byteLength. rewrite length_app, Hheader, int16_bytes_length.
    unfold n. lia.
  - rewrite firstn_app, Hheader, Nat.sub_diag, firstn_O, app_nil_r.
    rewrite <- Hheader, firstn_all. unfold wav_header.
    replace (44 + n * 2 - 8) with (36 + 2 * n) by lia.
    replace (n * 2) with (2 * n) by lia.
    reflexivity.
  - rewrite skipn_app, Hheader, Nat.sub_diag.
    rewrite <- Hheader, skipn_all. reflexivity.
Qed.

Section ParseCreated.

Context {F : Type} {number : JSNumber F}.

Lemma parse_tags (view : ArrayBuffer) :
  fourCC view 0 = Ok "RIFF"%string ->
  fourCC view 8 = Ok "WAVE"%string ->
  AudioService.parseWAVHeader (F := F) view
  = match AudioService.chunk_loop (List.length view) view AudioService.initial with
    | None => Throw RangeError
    | Some walked =>
        l <- walked ;;
        if AudioService.l_dataOffset l =? -1 then
          Throw (Error "Invalid WAV file: no data chunk found")
        else
          Ok {| sampleRate := AudioService.l_sampleRate l;
                channels := AudioService.l_channels l;
                bitsPerSample := AudioService.l_bitsPerSample l;
                dataOffset := AudioService.l_dataOffset l;
                dataSize := AudioService.l_dataSize l;
                totalSamples :=
                  div (of_Z (AudioService.l_dataSize l))
                      (div (of_Z (AudioService.l_bitsPerSample l)) (of_Z 8));
                samplesPerChannel :=
                  div (div (of_Z (AudioService.l_dataSize l))
                           (div (of_Z (AudioService.l_bitsPerSample l)) (of_Z 8)))
                      (of_Z (AudioService.l_channels l)) |}
    end.
Proof.
  intros Hriff Hwave. unfold AudioService.parseWAVHeader.
  rewrite Hriff, bind_Ok. cbn [String.eqb Ascii.eqb Bool.eqb negb].
  rewrite Hwave, bind_Ok. cbn [String.eqb Ascii.eqb Bool.eqb negb].
  reflexivity.
Qed.

Lemma parse_walk_ended (view : ArrayBuffer) (ids : list string)
    (l : AudioService.locals) :
  fourCC view 0 = Ok "RIFF"%string ->
  fourCC view 8 = Ok "WAVE"%string ->
  walk_from view AudioService.initial ids l ->
  byteLength view - 8 <= AudioService.l_offset l ->
  AudioService.parseWAVHeader (F := F) view
  = Throw (Error "Invalid WAV file: no data chunk found").
Proof.
  intros Hriff Hwave Hwalk Hend.
  rewrite parse_tags by assumption.
  rewrite (chunk_loop_walk _ _ _ _ _ Hwalk (enough_initially view)).
  rewrite chunk_loop_ended by exact Hend.
  rewrite bind_Ok.
  destruct (walk_from_keeps _ _ _ _ Hwalk) as (-> & _).
  reflexivity.
Qed.

(** X2: the container [createWAVBuffer] writes for no samples at all is
    rejected by [parseWAVHeader] with "no data chunk found", whatever the
    rate and the channel count: its data chunk begins at offset 36, which
    is not below [byteLength - 8]. *)
Theorem empty_container_is_rejected (sampleRate channels : Z) :
  (buffer <- AudioService.createWAVBuffer [] sampleRate channels ;;
   AudioService.parseWAVHeader (F := F) buffer)
  = Throw (Error "Invalid WAV file: no data chunk found").
Proof.
  rewrite createWAVBuffer_bytes, bind_Ok.
  cbn [List.length Z.of_nat int16_bytes].
  apply (parse_walk_ended _ ["fmt "%string] (created_after_fmt sampleRate channels)).
  - reflexivity.
  - reflexivity.
  - eapply walk_step.
    + vm_compute. reflexivity.
    + reflexivity.
    + apply created_step_fmt.
    + apply walk_done.
  - vm_compute. discriminate.
Qed.

End ParseCreated.

Lemma getUint16_range (view : ArrayBuffer) (o v : Z) :
  getUint16 view o = Ok v -> 0 <= v < 65536.
Proof.
  unfold getUint16.
  destruct ((0 <=? o) && (o + 2 <=? byteLength view)); [|discriminate].
  destruct (skipn (Z.to_nat o) view) as [|b0 [|b1 rest]]; try discriminate.
  intros Heq. apply Ok_inj in Heq. subst v. unfold of_le16.
  pose proof (u8_range b0). pose proof (u8_range b1). lia.
Qed.

Lemma getUint32_range (view : ArrayBuffer) (o v : Z) :
  getUint32 view o = Ok v -> 0 <= v < 4294967296.
Proof.
  unfold getUint32.
  destruct ((0 <=? o) && (o + 4 <=? byteLength view)); [|discriminate].
  destruct (skipn (Z.to_nat o) view) as [|b0 [|b1 [|b2 [|b3 rest]]]]; try discriminate.
  intros Heq. apply Ok_inj in Heq. subst v. unfold of_le32.
  pose proof (u8_range b0). pose proof (u8_range b1).
  pose proof (u8_range b2). pose proof (u8_range b3). lia.
Qed.

Lemma next_offset_even (offset chunkSize : Z) :
  offset mod 2 = 0 -> AudioService.next_offset offset chunkSize mod 2 = 0.
Proof.
  unfold AudioService.next_offset. intros Heven.
  destruct (Z.eqb_spec (chunkSize mod 2) 1); Z.div_mod_to_equations; lia.
Qed.

Lemma chunk_step_walking (view : ArrayBuffer) (l l' : AudioService.locals) :
  walking l ->
  AudioService.chunk_step view l = Ok (AudioService.Continue l') ->
  walking l'.
Proof.
  unfold walking. intros (Hoff & Heven & Hdo & Hsr & Hch & Hbits) Hstep.
  pose proof (chunk_step_advances _ _ _ Hstep) as Hadv.
  destruct (chunk_step_continue _ _ _ Hstep)
    as (id & size & _ & _ & _ & Hnext & Hdo' & _ & _).
  split; [lia|]. split; [rewrite Hnext; now apply next_offset_even|].
  split; [congruence|].
  revert Hstep. unfold AudioService.chunk_step.
  destruct (fourCC view (AudioService.l_offset l)) as [id'|e]; [|discriminate].
  rewrite bind_Ok.
  destruct (getUint32 view (AudioService.l_offset l + 4)) as [chunkSize|e];
    [|discriminate].
  rewrite bind_Ok.
  destruct (id' =? "fmt ")%string.
  - destruct (getUint16 view (AudioService.l_offset l + 8)) as [audioFormat|e];
      [|discriminate].
    destruct (getUint16 view (AudioService.l_offset l + 10)) as [channels|e] eqn:Hc;
      [|discriminate].
    destruct (getUint32 view (AudioService.l_offset l + 12)) as [sampleRate|e] eqn:Hs;
      [|discriminate].
    destruct (getUint16 view (AudioService.l_offset l + 22)) as [bitsPerSample|e];
      [|discriminate].
    rewrite !bind_Ok.
    destruct (negb (audioFormat =? 1)); [discriminate|].
    destruct (Z.eqb_spec bitsPerSample 16) as [->|]; [|discriminate].
    cbn [negb]. intros Heq. apply Ok_inj in Heq. injection Heq as <-. cbn.
    apply getUint16_range in Hc. apply getUint32_range in Hs. auto.
  - destruct (id' =? "data")%string; [discriminate|].
    intros Heq. apply Ok_inj in Heq. injection Heq as <-. cbn. auto.
Qed.

Lemma walk_from_walking (view : ArrayBuffer) (l l' : AudioService.locals)
    (ids : list string) :
  walk_from view l ids l' -> walking l -> walking l'.
Proof.
  induction 1 as [|l l1 l' id ids Hin Hid Hstep _ IH]; [auto|].
  intros Hl. apply IH. eapply chunk_step_walking; eassumption.
Qed.

Lemma walking_initial : walking AudioService.initial.
Proof.
  unfold walking. cbn. repeat split; (lia || auto).
Qed.

Section Headers.

Context {F : Type} {number : JSNumber F}.

(** X3: a container written by [createWAVBuffer] from at least one sample
    parses to the header it was written with: the same rate and channel
    count (within the width of their fields), 16 bits, data at offset 44,
    two bytes per sample. *)
Theorem created_container_header (audioData : Int16Array) (rate count : Z) :
  audioData <> [] ->
  0 <= rate < 4294967296 ->
  0 <= count < 65536 ->
  Z.of_nat (List.length audioData) * 2 < 4294967296 ->
  exists wavInfo : WAVInfo F,
    (buffer <- AudioService.createWAVBuffer audioData rate count ;;
     AudioService.parseWAVHeader buffer) = Ok wavInfo
    /\ sampleRate wavInfo = rate
    /\ channels wavInfo = count
    /\ bitsPerSample wavInfo = 16
    /\ dataOffset wavInfo = 44
    /\ dataSize wavInfo = 2 * Z.of_nat (List.length audioData).
Proof.
  intros Hne Hrate Hcount Hfit.
  rewrite createWAVBuffer_bytes, bind_Ok.
  rewrite parse_created by (apply int16_bytes_nonempty; exact Hne).
  eexists. split; [reflexivity|]. unfold created_info.
  cbn [sampleRate channels bitsPerSample dataOffset dataSize].
  rewrite !Z.mod_small by lia. repeat split; lia.
Qed.

Lemma parse_ranges (buffer : ArrayBuffer) (wavInfo : WAVInfo F) :
  AudioService.parseWAVHeader buffer = Ok wavInfo ->
  20 <= dataOffset wavInfo < byteLength buffer
  /\ dataOffset wavInfo mod 2 = 0
  /\ 0 <= dataSize wavInfo < 4294967296
  /\ 0 <= sampleRate wavInfo < 4294967296
  /\ 0 <= channels wavInfo < 65536
  /\ (bitsPerSample wavInfo = 16
      \/ (bitsPerSample wavInfo = 0 /\ channels wavInfo = 0 /\ sampleRate wavInfo = 0)).
Proof.
  intros Hparse.
  destruct (parse_header_from_data_chunk _ _ Hparse)
    as (ids & l & Hwalk & Hin & Hdata & Hoffset & Hsize).
  pose proof (walk_from_walking _ _ _ _ Hwalk walking_initial)
    as (Hoff & Heven & _ & Hsr & Hch & Hbits).
  apply getUint32_range in Hsize.
  assert (Hfields : sampleRate wavInfo = AudioService.l_sampleRate l
                    /\ channels wavInfo = AudioService.l_channels l
                    /\ bitsPerSample wavInfo = AudioService.l_bitsPerSample l).
  { revert Hparse. unfold AudioService.parseWAVHeader.
    destruct (fourCC buffer 0) as [riff|e]; [|discriminate]. rewrite bind_Ok.
    destruct (negb (riff =? "RIFF")%string); [discriminate|].
    destruct (fourCC buffer 8) as [wave|e]; [|discriminate]. rewrite bind_Ok.
    destruct (negb (wave =? "WAVE")%string); [discriminate|].
    rewrite (chunk_loop_walk _ _ _ _ _ Hwalk (enough_initially buffer)).
    destruct (List.length buffer) as [|fuel] eqn:Hfuel;
      [unfold byteLength in Hin; lia|].
    cbn [AudioService.chunk_loop].
    destruct (Z.ltb_spec (AudioService.l_offset l) (byteLength buffer - 8)); [|lia].
    destruct (getUint32_in_range buffer (AudioService.l_offset l + 4))
      as (chunkSize & Hread & _); [lia | lia |].
    rewrite (chunk_step_data _ _ _ Hdata Hread), bind_Ok.
    cbn [AudioService.l_dataOffset].
    destruct (AudioService.l_offset l + 8 =? -1); [discriminate|].
    intros Heq. apply Ok_inj in Heq. subst wavInfo. cbn. auto. }
  destruct Hfields as (-> & -> & ->).
  rewrite Hoffset.
  split; [lia|]. split; [Z.div_mod_to_equations; lia|].
  auto.
Qed.

(** X4: whatever the buffer, a header that [parseWAVHeader] returns has its
    data at an even offset between 20 and the end of the buffer, a data
    size, a rate and a channel count within the width of their fields, and
    a bit depth of 16, or of 0 together with a rate and a channel count of
    0 when no format chunk came before the data.  The data size is not
    compared with what the buffer holds. *)
Theorem parsed_header_ranges (buffer : ArrayBuffer) (wavInfo : WAVInfo F) :
  AudioService.parseWAVHeader buffer = Ok wavInfo ->
  20 <= dataOffset wavInfo < byteLength buffer
  /\ dataOffset wavInfo mod 2 = 0
  /\ 0 <= dataSize wavInfo < 4294967296
  /\ 0 <= sampleRate wavInfo < 4294967296
  /\ 0 <= channels wavInfo < 65536
  /\ (bitsPerSample wavInfo = 16
      \/ (bitsPerSample wavInfo = 0 /\ channels wavInfo = 0 /\ sampleRate wavInfo = 0)).
Proof.
  apply parse_ranges.
Qed.

End Headers.

Section Rejections.

Context {F : Type} {number : JSNumber F}.

(** X5: when the chunk walk arrives at a format chunk that lies whole in
    the buffer, a format tag other than 1 makes [parseWAVHeader] throw
    "only PCM is supported", and with the tag 1 a bit depth other than 16
    makes it throw "only 16-bit is supported"; no data chunk is looked for
    then. *)
Theorem unsupported_format_is_rejected (view : ArrayBuffer) (ids : list string)
    (l : AudioService.locals) (audioFormat count rate bits : Z) :
  fourCC view 0 = Ok "RIFF"%string ->
  fourCC view 8 = Ok "WAVE"%string ->
  walk_from view AudioService.initial ids l ->
  AudioService.l_offset l < byteLength view - 8 ->
  fourCC view (AudioService.l_offset l) = Ok "fmt "%string ->
  getUint16 view (AudioService.l_offset l + 8) = Ok audioFormat ->
  getUint16 view (AudioService.l_offset l + 10) = Ok count ->
  getUint32 view (AudioService.l_offset l + 12) = Ok rate ->
  getUint16 view (AudioService.l_offset l + 22) = Ok bits ->
  (audioFormat <> 1 ->
   AudioService.parseWAVHeader (F := F) view
   = Throw (Error "Unsupported WAV format: only PCM is supported"))
  /\ (audioFormat = 1 -> bits <> 16 ->
      AudioService.parseWAVHeader (F := F) view
      = Throw (Error "Unsupported bit depth: only 16-bit is supported")).
Proof.
  intros Hriff Hwave Hwalk Hin Hid Hformat Hcount Hrate Hbits.
  pose proof (walk_from_offset _ _ _ _ Hwalk) as Hoff.
  cbn [AudioService.l_offset AudioService.initial] in Hoff.
  destruct (getUint32_in_range view (AudioService.l_offset l + 4))
    as (chunkSize & Hsize & _); [lia | lia |].
  assert (Hfuel : exists fuel, List.length view = S fuel).
  { unfold byteLength in Hin. destruct (List.length view); [lia | eauto]. }
  destruct Hfuel as [fuel Hfuel].
  assert (Hloop : AudioService.chunk_loop (List.length view) view AudioService.initial
                  = match AudioService.chunk_step view l with
                    | Throw e => Some (Throw e)
                    | Ok (AudioService.Break l') => Some (Ok l')
                    | Ok (AudioService.Continue l') =>
                        AudioService.chunk_loop fuel view l'
                    end).
  { rewrite (chunk_loop_walk _ _ _ _ _ Hwalk (enough_initially view)), Hfuel.
    cbn [AudioService.chunk_loop].
    destruct (Z.ltb_spec (AudioService.l_offset l) (byteLength view - 8)); [|lia].
    reflexivity. }
  rewrite parse_tags, Hloop by assumption.
  unfold AudioService.chunk_step.
  rewrite Hid, bind_Ok, Hsize, bind_Ok. cbn [String.eqb Ascii.eqb Bool.eqb].
  rewrite Hformat, bind_Ok, Hcount, bind_Ok, Hrate, bind_Ok, Hbits, bind_Ok.
  split.
  - intros Hnot. apply Z.eqb_neq in Hnot. rewrite Hnot. reflexivity.
  - intros -> Hnot. apply Z.eqb_neq in Hnot. rewrite Hnot. reflexivity.
Qed.

Lemma getUint8_throws (view : ArrayBuffer) (o : Z) (e : exn) :
  getUint8 view o = Throw e -> e = RangeError.
Proof.
  unfold getUint8.
  destruct ((0 <=? o) && (o + 1 <=? byteLength view));
    [destruct (nth_error view (Z.to_nat o))|]; congruence.
Qed.

Lemma getUint16_throws (view : ArrayBuffer) (o : Z) (e : exn) :
  getUint16 view o = Throw e -> e = RangeError.
Proof.
  unfold getUint16.
  destruct ((0 <=? o) && (o + 2 <=? byteLength view)); [|congruence].
  destruct (skipn (Z.to_nat o) view) as [|b0 [|b1 rest]]; congruence.
Qed.

Lemma getUint32_throws (view : ArrayBuffer) (o : Z) (e : exn) :
  getUint32 view o = Throw e -> e = RangeError.
Proof.
  unfold getUint32.
  destruct ((0 <=? o) && (o + 4 <=? byteLength view)); [|congruence].
  destruct (skipn (Z.to_nat o) view) as [|b0 [|b1 [|b2 [|b3 rest]]]]; congruence.
Qed.

Lemma fourCC_throws (view : ArrayBuffer) (o : Z) (e : exn) :
  fourCC view o = Throw e -> e = RangeError.
Proof.
  unfold fourCC.
  destruct (getUint8 view o) eqn:H0; [|intros Heq; injection Heq as <-;
                                        eapply getUint8_throws; eassumption].
  destruct (getUint8 view (o + 1)) eqn:H1; [|intros Heq; injection Heq as <-;
                                              eapply getUint8_throws; eassumption].
  destruct (getUint8 view (o + 2)) eqn:H2; [|intros Heq; injection Heq as <-;
                                              eapply getUint8_throws; eassumption].
  destruct (getUint8 view (o + 3)) eqn:H3; [|intros Heq; injection Heq as <-;
                                              eapply getUint8_throws; eassumption].
  discriminate.
Qed.

Lemma chunk_step_throws (view : ArrayBuffer) (l : AudioService.locals) (e : exn) :
  AudioService.chunk_step view l = Throw e ->
  e = RangeError \/ In e format_errors.
Proof.
  unfold AudioService.chunk_step.
  destruct (fourCC view (AudioService.l_offset l)) as [id|e0] eqn:Hid;
    [|intros Heq; injection Heq as <-; left; eapply fourCC_throws; eassumption].
  rewrite bind_Ok.
  destruct (getUint32 view (AudioService.l_offset l + 4)) as [chunkSize|e0] eqn:Hsize;
    [|intros Heq; injection Heq as <-; left; eapply getUint32_throws; eassumption].
  rewrite bind_Ok.
  destruct (id =? "fmt ")%string.
  - destruct (getUint16 view (AudioService.l_offset l + 8)) as [audioFormat|e0] eqn:H8;
      [|intros Heq; injection Heq as <-; left; eapply getUint16_throws; eassumption].
    destruct (getUint16 view (AudioService.l_offset l + 10)) as [count|e0] eqn:H10;
      [|intros Heq; injection Heq as <-; left; eapply getUint16_throws; eassumption].
    destruct (getUint32 view (AudioService.l_offset l + 12)) as [rate|e0] eqn:H12;
      [|intros Heq; injection Heq as <-; left; eapply getUint32_throws; eassumption].
    destruct (getUint16 view (AudioService.l_offset l + 22)) as [bits|e0] eqn:H22;
      [|intros Heq; injection Heq as <-; left; eapply getUint16_throws; eassumption].
    rewrite !bind_Ok.
    destruct (negb (audioFormat =? 1));
      [intros Heq; injection Heq as <-; right; simpl; tauto|].
    destruct (negb (bits =? 16));
      [intros Heq; injection Heq as <-; right; simpl; tauto | discriminate].
  - destruct (id =? "data")%string; discriminate.
Qed.

Lemma chunk_loop_throws (view : ArrayBuffer) (fuel : nat) (l : AudioService.locals)
    (e : exn) :
  AudioService.chunk_loop fuel view l = Some (Throw e) ->
  e = RangeError \/ In e format_errors.
Proof.
  revert l. induction fuel as [|fuel IH]; intros l; cbn [AudioService.chunk_loop];
    destruct (AudioService.l_offset l <? byteLength view - 8); try discriminate.
  destruct (AudioService.chunk_step view l) as [[l'|l']|e0] eqn:Hstep.
  - apply IH.
  - discriminate.
  - intros Heq. injection Heq as <-. eapply chunk_step_throws; eassumption.
Qed.

Lemma parse_throws (buffer : ArrayBuffer) (e : exn) :
  AudioService.parseWAVHeader (F := F) buffer = Throw e ->
  e = RangeError \/ In e format_errors.
Proof.
  unfold AudioService.parseWAVHeader.
  destruct (fourCC buffer 0) as [riff|e0] eqn:Hriff;
    [|intros Heq; injection Heq as <-; left; eapply fourCC_throws; eassumption].
  rewrite bind_Ok.
  destruct (negb (riff =? "RIFF")%string);
    [intros Heq; injection Heq as <-; right; simpl; tauto|].
  destruct (fourCC buffer 8) as [wave|e0] eqn:Hwave;
    [|intros Heq; injection Heq as <-; left; eapply fourCC_throws; eassumption].
  rewrite bind_Ok.
  destruct (negb (wave =? "WAVE")%string);
    [intros Heq; injection Heq as <-; right; simpl; tauto|].
  destruct (AudioService.chunk_loop (List.length buffer) buffer AudioService.initial)
    as [[lf|e0]|] eqn:Hloop.
  - rewrite bind_Ok.
    destruct (AudioService.l_dataOffset lf =? -1); [|discriminate].
    intros Heq. injection Heq as <-. right. simpl. tauto.
  - intros Heq. injection Heq as <-. eapply chunk_loop_throws; eassumption.
  - intros Heq. injection Heq as <-. auto.
Qed.

(** X6: [parseWAVHeader] throws nothing but a [RangeError], for a read past
    the end of the buffer, and its own five errors; and on a buffer of
    fewer than 12 bytes it throws: a [RangeError], or "missing RIFF header"
    when there are four bytes to compare. *)
Theorem parse_errors (buffer : ArrayBuffer) :
  (forall e : exn,
      AudioService.parseWAVHeader (F := F) buffer = Throw e ->
      e = RangeError \/ In e format_errors)
  /\ (byteLength buffer < 12 ->
      AudioService.parseWAVHeader (F := F) buffer = Throw RangeError
      \/ AudioService.parseWAVHeader (F := F) buffer
         = Throw (Error "Invalid WAV file: missing RIFF header")).
Proof.
  split.
  - intros e. apply parse_throws.
  - intros Hshort. unfold AudioService.parseWAVHeader.
    destruct (fourCC buffer 0) as [riff|e0] eqn:Hriff;
      [|left; apply fourCC_throws in Hriff; subst e0; reflexivity].
    rewrite bind_Ok.
    destruct (negb (riff =? "RIFF")%string); [right; reflexivity|].
    destruct (fourCC buffer 8) as [wave|e0] eqn:Hwave;
      [|left; apply fourCC_throws in Hwave; subst e0; reflexivity].
    exfalso. revert Hwave. unfold fourCC.
    destruct (getUint8 buffer 8) as [c0|] eqn:H8; [rewrite bind_Ok|discriminate].
    destruct (getUint8 buffer (8 + 1)) as [c1|] eqn:H9; [rewrite bind_Ok|discriminate].
    destruct (getUint8 buffer (8 + 2)) as [c2|] eqn:H10; [rewrite bind_Ok|discriminate].
    destruct (getUint8 buffer (8 + 3)) as [c3|] eqn:H11; [|discriminate].
    revert H11. unfold getUint8.
    destruct (Z.leb_spec (8 + 3 + 1) (byteLength buffer)); [lia|].
    rewrite andb_false_r. discriminate.
Qed.

(** X7: the JSON transcription route answers 400 INVALID_AUDIO_FORMAT to
    the three "Invalid WAV file" errors of [parseWAVHeader] and 500
    PROCESSING_ERROR to its two "Unsupported" errors. *)
Theorem format_error_responses (buffer : ArrayBuffer) (message : string) :
  AudioService.parseWAVHeader (F := F) buffer = Throw (Error message) ->
  (includes message "Invalid WAV file" = true
   /\ error_response message = (400, "INVALID_AUDIO_FORMAT"%string))
  \/ (includes message "Unsupported" = true
      /\ error_response message = (500, "PROCESSING_ERROR"%string)).
Proof.
  intros Hthrow.
  destruct (parse_throws _ _ Hthrow) as [Hrange | Hin];
    [discriminate|].
  simpl in Hin.
  destruct Hin as [Heq | [Heq | [Heq | [Heq | [Heq | []]]]]];
    injection Heq as <-; vm_compute; auto.
Qed.

End Rejections.

(** ** Containers without a data chunk *)

Section DataLess.

Context {F : Type} {number : JSNumber F}.

Lemma getUint8_in_range (view : ArrayBuffer) (o : Z) :
  0 <= o -> o + 1 <= byteLength view -> exists v, getUint8 view o = Ok v.
Proof.
  intros Ho Hfit. unfold getUint8, byteLength in *.
  destruct (Z.leb_spec 0 o); [|lia].
  destruct (Z.leb_spec (o + 1) (Z.of_nat (List.length view))); [|lia].
  cbn [andb].
  destruct (nth_error view (Z.to_nat o)) as [b|] eqn:Hnth; [eauto|].
  apply nth_error_None in Hnth. lia.
Qed.

Lemma fourCC_in_range (view : ArrayBuffer) (o : Z) :
  0 <= o -> o + 4 <= byteLength view -> exists id, fourCC view o = Ok id.
Proof.
  intros Ho Hfit. unfold fourCC.
  destruct (getUint8_in_range view o) as [c0 ->]; [lia | lia |].
  destruct (getUint8_in_range view (o + 1)) as [c1 ->]; [lia | lia |].
  destruct (getUint8_in_range view (o + 2)) as [c2 ->]; [lia | lia |].
  destruct (getUint8_in_range view (o + 3)) as [c3 ->]; [lia | lia |].
  rewrite !bind_Ok. eauto.
Qed.

(** Within the loop's bound the identifier and the size of a chunk are
    always there to read, so an iteration throws at a format chunk only:
    a [RangeError] when the chunk is cut short by the end of the buffer,
    or one of the two errors on its contents. *)
Lemma chunk_step_throws_at (view : ArrayBuffer) (l : AudioService.locals) (e : exn) :
  0 <= AudioService.l_offset l ->
  AudioService.l_offset l < byteLength view - 8 ->
  AudioService.chunk_step view l = Throw e ->
  fourCC view (AudioService.l_offset l) = Ok "fmt "%string
  /\ (e = RangeError
      \/ e = Error "Unsupported WAV format: only PCM is supported"
      \/ e = Error "Unsupported bit depth: only 16-bit is supported").
Proof.
  intros Ho Hin.
  destruct (fourCC_in_range view (AudioService.l_offset l)) as [id Hid]; [lia | lia |].
  destruct (getUint32_in_range view (AudioService.l_offset l + 4))
    as (chunkSize & Hsize & _); [lia | lia |].
  unfold AudioService.chunk_step. rewrite Hid, bind_Ok, Hsize, bind_Ok.
  destruct (String.eqb_spec id "fmt ") as [->|Hother].
  - intros Hthrow. split; [reflexivity|]. revert Hthrow.
    destruct (getUint16 view (AudioService.l_offset l + 8)) as [audioFormat|e0] eqn:H8;
      [|intros Heq; injection Heq as <-; left; eapply getUint16_throws; eassumption].
    destruct (getUint16 view (AudioService.l_offset l + 10)) as [count|e0] eqn:H10;
      [|intros Heq; injection Heq as <-; left; eapply getUint16_throws; eassumption].
    destruct (getUint32 view (AudioService.l_offset l + 12)) as [rate|e0] eqn:H12;
      [|intros Heq; injection Heq as <-; left; eapply getUint32_throws; eassumption].
    destruct (getUint16 view (AudioService.l_offset l + 22)) as [bits|e0] eqn:H22;
      [|intros Heq; injection Heq as <-; left; eapply getUint16_throws; eassumption].
    rewrite !bind_Ok.
    destruct (negb (audioFormat =? 1));
      [intros Heq; injection Heq as <-; auto|].
    destruct (negb (bits =? 16));
      [intros Heq; injection Heq as <-; auto | discriminate].
  - destruct (id =? "data")%string; discriminate.
Qed.

(** The three ways the loop can end: at the end of the buffer, on a data
    chunk, or by an exception. *)
Lemma chunk_loop_outcome (view : ArrayBuffer) (fuel : nat) (l : AudioService.locals)
    (r : result AudioService.locals) :
  AudioService.chunk_loop fuel view l = Some r ->
  exists ids l1,
    walk_from view l ids l1
    /\ ((byteLength view - 8 <= AudioService.l_offset l1 /\ r = Ok l1)
        \/ (AudioService.l_offset l1 < byteLength view - 8
            /\ exists e, AudioService.chunk_step view l1 = Throw e /\ r = Throw e)
        \/ (AudioService.l_offset l1 < byteLength view - 8
            /\ exists lf,
                 AudioService.chunk_step view l1 = Ok (AudioService.Break lf)
                 /\ r = Ok lf)).
Proof.
  revert l. induction fuel as [|fuel IH]; intros l; cbn [AudioService.chunk_loop];
    destruct (Z.ltb_spec (AudioService.l_offset l) (byteLength view - 8)) as [Hin|Hout];
    try discriminate;
    try (intros Heq; injection Heq as <-; exists [], l; split; [constructor | auto]).
  destruct (AudioService.chunk_step view l) as [[l'|l']|e] eqn:Hstep.
  - intros Hloop. destruct (IH _ Hloop) as (ids & l1 & Hwalk & Hstop).
    destruct (chunk_step_continue _ _ _ Hstep) as (id & _ & Hid & _).
    exists (id :: ids), l1. split; [|exact Hstop].
    econstructor; eassumption.
  - intros Heq. injection Heq as <-. exists [], l. split; [constructor|].
    right. right. eauto.
  - intros Heq. injection Heq as <-. exists [], l. split; [constructor|].
    right. left. eauto.
Qed.

(** C4: for every buffer with the RIFF and WAVE tags, the chunk walk ends
    in one of three ways, and only the last returns a header.  When the
    walk reaches the end of the buffer without a data chunk,
    [parseWAVHeader] throws "no data chunk found".  When an iteration
    throws, which happens at a format chunk only, [parseWAVHeader] throws
    that error: a [RangeError] for a chunk cut short by the end of the
    buffer, or one of the two "Unsupported" errors.  In neither case is a
    header returned, complete or partial; one is returned when the walk
    arrives at a data chunk. *)
Theorem parse_without_data_chunk (view : ArrayBuffer) :
  fourCC view 0 = Ok "RIFF"%string ->
  fourCC view 8 = Ok "WAVE"%string ->
  exists (ids : list string) (l : AudioService.locals),
    walk_from view AudioService.initial ids l
    /\ ((byteLength view - 8 <= AudioService.l_offset l
         /\ AudioService.parseWAVHeader (F := F) view
            = Throw (Error "Invalid WAV file: no data chunk found"))
        \/ (AudioService.l_offset l < byteLength view - 8
            /\ fourCC view (AudioService.l_offset l) = Ok "fmt "%string
            /\ exists e : exn,
                 AudioService.chunk_step view l = Throw e
                 /\ AudioService.parseWAVHeader (F := F) view = Throw e
                 /\ (e = RangeError
                     \/ e = Error "Unsupported WAV format: only PCM is supported"
                     \/ e = Error "Unsupported bit depth: only 16-bit is supported"))
        \/ (AudioService.l_offset l < byteLength view - 8
            /\ fourCC view (AudioService.l_offset l) = Ok "data"%string
            /\ exists wavInfo : WAVInfo F,
                 AudioService.parseWAVHeader view = Ok wavInfo
                 /\ dataOffset wavInfo = AudioService.l_offset l + 8)).
Proof.
  intros Hriff Hwave.
  destruct (parseWAVHeader_walks view) as [r Hr].
  destruct (chunk_loop_outcome _ _ _ _ Hr)
    as (ids & l & Hwalk & [[Hend ->] | [(Hin & e & Hstep & ->) | (Hin & lf & Hstep & ->)]]);
    exists ids, l; (split; [exact Hwalk|]);
    rewrite (parse_tags view Hriff Hwave), Hr;
    pose proof (walk_from_offset _ _ _ _ Hwalk) as Hoff;
    cbn [AudioService.l_offset AudioService.initial] in Hoff.
  - left. split; [exact Hend|]. rewrite bind_Ok.
    destruct (walk_from_keeps _ _ _ _ Hwalk) as (-> & _). reflexivity.
  - right. left. split; [exact Hin|].
    destruct (chunk_step_throws_at view l e ltac:(lia) Hin Hstep) as (Hfmt & He).
    split; [exact Hfmt|]. exists e. auto.
  - right. right. split; [exact Hin|].
    destruct (chunk_step_break _ _ _ Hstep) as (chunkSize & Hid & Hsize & ->).
    split; [exact Hid|]. rewrite bind_Ok. cbn [AudioService.l_dataOffset].
    destruct (Z.eqb_spec (AudioService.l_offset l + 8) (-1)); [lia|].
    eexists. split; reflexivity.
Qed.

End DataLess.

(** ** Extracting the first channel *)

Lemma int16_of_le_range (b0 b1 : byte) : is_int16 (int16_of_le b0 b1).
Proof.
  unfold is_int16, int16_of_le, of_le16.
  pose proof (u8_range b0). pose proof (u8_range b1).
  destruct (Z.ltb_spec (u8 b0 + 256 * u8 b1) 32768); lia.
Qed.

Lemma int16_elements_facts (n : nat) (bytes : list byte) :
  (List.length bytes < n)%nat ->
  Z.of_nat (List.length (int16_elements bytes)) = Z.of_nat (List.length bytes) / 2
  /\ Forall is_int16 (int16_elements bytes).
Proof.
  revert bytes. induction n as [|n IH]; intros bytes Hlen; [lia|].
  destruct bytes as [|b0 [|b1 rest]]; cbn [int16_elements List.length] in *.
  - split; [reflexivity | constructor].
  - split; [reflexivity | constructor].
  - destruct (IH rest ltac:(lia)) as (Hcount & Hrange). split.
    + rewrite Nat2Z.inj_succ, Hcount.
      replace (Z.of_nat (S (S (List.length rest))))
        with (Z.of_nat (List.length rest) + 1 * 2) by lia.
      rewrite Z.div_add by lia. lia.
    + constructor; [apply int16_of_le_range | exact Hrange].
Qed.

Lemma slice_region_length {A : Type} (l : list A) (first final : Z) :
  0 <= first ->
  Z.of_nat (List.length (slice l first final))
  = Z.max (Z.min final (Z.of_nat (List.length l))
           - Z.min first (Z.of_nat (List.length l))) 0.
Proof.
  intros Hfirst. unfold slice. cbv zeta. rewrite length_firstn, length_skipn. lia.
Qed.

Section Extraction.

Context {F : Type} {number : JSNumber F}.

(** X8: [extractMonoAudio] reads the part of the data region that lies in
    the buffer, for a header whose data offset and data size are not
    negative, as those of every header [parseWAVHeader] returns.  If that
    part has an odd number of bytes it throws a [RangeError]; otherwise it
    returns 16-bit values: half as many as there are bytes for at most one
    channel, and that number divided by the channel count, rounded down,
    for more. *)
Theorem extracted_samples (buffer : ArrayBuffer) (wavInfo : WAVInfo F) :
  0 <= dataOffset wavInfo ->
  0 <= dataSize wavInfo ->
  (data_region buffer wavInfo mod 2 = 1 ->
   AudioService.extractMonoAudio buffer wavInfo = Throw RangeError)
  /\ (data_region buffer wavInfo mod 2 = 0 ->
      exists samples : Int16Array,
        AudioService.extractMonoAudio buffer wavInfo = Ok samples
        /\ Forall is_int16 samples
        /\ Z.of_nat (List.length samples)
           = if 1 <? channels wavInfo
             then data_region buffer wavInfo / 2 / channels wavInfo
             else data_region buffer wavInfo / 2).
Proof.
  intros Hoffset Hsize.
  unfold AudioService.extractMonoAudio, Int16Array_of_buffer, data_region, byteLength.
  set (region := slice buffer (dataOffset wavInfo) (dataOffset wavInfo + dataSize wavInfo)).
  pose proof (slice_region_length buffer (dataOffset wavInfo)
                (dataOffset wavInfo + dataSize wavInfo) Hoffset) as Hlen.
  fold region in Hlen. rewrite <- Hlen.
  destruct (int16_elements_facts (S (List.length region)) region ltac:(lia))
    as (Hcount & Hrange).
  split; intros Hparity; rewrite Hparity; cbn [Z.eqb]; [reflexivity|].
  rewrite bind_Ok.
  destruct (Z.ltb_spec 1 (channels wavInfo)) as [Hmany|Hone].
  - eexists. split; [reflexivity|]. split.
    + apply Forall_forall. intros x Hx. apply in_map_iff in Hx.
      destruct Hx as (i & <- & _).
      destruct (nth_in_or_default (i * Z.to_nat (channels wavInfo))
                  (int16_elements region) 0) as [Hin | ->].
      * rewrite Forall_forall in Hrange. now apply Hrange.
      * unfold is_int16. lia.
    + rewrite length_map, length_seq, Hcount.
      pose proof (Z.div_pos (Z.of_nat (List.length region) / 2) (channels wavInfo)
                    ltac:(apply Z.div_pos; lia) ltac:(lia)).
      lia.
  - eexists. split; [reflexivity|]. split; [exact Hrange | exact Hcount].
Qed.

Lemma first_of_each (c : nat) (blocks : list (list Z)) :
  (0 < c)%nat ->
  Forall (fun block => List.length block = c) blocks ->
  map (fun i => nth (i * c) (List.concat blocks) 0) (seq 0 (List.length blocks))
  = map (fun block => hd 0 block) blocks.
Proof.
  intros Hc Hall. induction Hall as [|block blocks Hblock _ IH]; [reflexivity|].
  cbn [List.length seq map List.concat]. f_equal.
  - cbn [Nat.mul]. rewrite app_nth1 by lia.
    destruct block; [simpl in Hblock; lia | reflexivity].
  - rewrite <- seq_shift, map_map, <- IH.
    apply map_ext. intros i.
    replace (S i * c)%nat with (List.length block + i * c)%nat by lia.
    apply app_nth2_plus.
Qed.

(** X9: a container written from interleaved blocks of [count] samples,
    [count] being 2 or more, reads back as the first sample of every block:
    the samples of the first channel, the others are dropped. *)
Theorem first_channel_is_kept (blocks : list (list Z)) (rate count : Z) :
  blocks <> [] ->
  2 <= count < 65536 ->
  Forall (fun block => Z.of_nat (List.length block) = count) blocks ->
  Forall is_int16 (List.concat blocks) ->
  Z.of_nat (List.length (List.concat blocks)) * 2 < 4294967296 ->
  (buffer <- AudioService.createWAVBuffer (List.concat blocks) rate count ;;
   wavInfo <- AudioService.parseWAVHeader (F := F) buffer ;;
   AudioService.extractMonoAudio buffer wavInfo)
  = Ok (map (fun block => hd 0 block) blocks).
Proof.
  intros Hne Hcount Hblocks Hrange Hfit.
  assert (Hblocks' : Forall (fun block => List.length block = Z.to_nat count) blocks).
  { eapply Forall_impl; [|exact Hblocks]. cbv beta. intros block Hb. lia. }
  assert (Hlen : List.length (List.concat blocks)
                 = (List.length blocks * Z.to_nat count)%nat).
  { clear -Hblocks'. induction Hblocks' as [|block blocks Hb _ IH]; [reflexivity|].
    cbn [List.concat List.length]. rewrite length_app, IH, Hb. lia. }
  assert (Hsome : List.concat blocks <> []).
  { intros Hnil. rewrite Hnil in Hlen. cbn [List.length] in Hlen.
    destruct blocks; [congruence | simpl in Hlen; lia]. }
  rewrite createWAVBuffer_bytes, bind_Ok.
  rewrite parse_created by (apply int16_bytes_nonempty; exact Hsome).
  rewrite bind_Ok.
  unfold AudioService.extractMonoAudio, created_info.
  cbn [dataOffset dataSize channels].
  rewrite (Z.mod_small (Z.of_nat (List.length (List.concat blocks)) * 2)) by lia.
  rewrite (Z.mod_small count) by lia.
  replace (Z.of_nat (List.length (List.concat blocks)) * 2)
    with (Z.of_nat (List.length (int16_bytes (List.concat blocks))))
    by (rewrite int16_bytes_length; lia).
  change 44 with (Z.of_nat (List.length
                    (wav_header (Z.of_nat (List.length (List.concat blocks))) rate count)))
    at 1 2.
  rewrite slice_suffix.
  unfold Int16Array_of_buffer, byteLength.
  rewrite int16_bytes_length.
  replace (Z.of_nat (2 * List.length (List.concat blocks)) mod 2) with 0
    by (rewrite Nat2Z.inj_mul, Z.mul_comm, Z.mod_mul; lia).
  cbn [Z.eqb]. rewrite bind_Ok.
  destruct (Z.ltb_spec 1 count); [|lia].
  rewrite int16_elements_bytes by exact Hrange.
  f_equal.
  replace (Z.to_nat (Z.of_nat (List.length (List.concat blocks)) / count))
    with (List.length blocks).
  - apply first_of_each; [lia | exact Hblocks'].
  - rewrite Hlen, Nat2Z.inj_mul, Z2Nat.id, Z.div_mul by lia. lia.
Qed.

End Extraction.

(* ================================================================== *)
(** * Further properties of the frame loop *)

Lemma slice_incl {A : Type} (l : list A) (first final : Z) : incl (slice l first final) l.
Proof.
  unfold slice. cbv zeta. intros x Hx.
  set (k := Z.to_nat (Z.min first (Z.of_nat (List.length l)))) in *.
  rewrite <- (firstn_skipn k l). apply in_or_app. right.
  set (m := Z.to_nat _) in Hx.
  rewrite <- (firstn_skipn m (skipn k l)). apply in_or_app. left. exact Hx.
Qed.

Section Shapes.

Context {F : Type} {number : JSNumber F} {Engine : Type}.
Variable processAudioFrame : Engine -> Int16Array -> result (VAD.VADResult F) * Engine.
Variable audioData : Int16Array.
Variable sampleRate : F.

Implicit Types (a : @VADService.accumulator F Engine) (s : AudioSegment F).

Lemma framed_later (limit limit' : Z) s :
  limit <= limit' ->
  framed audioData sampleRate limit s -> framed audioData sampleRate limit' s.
Proof.
  unfold framed. intros Hle. intuition lia.
Qed.

Lemma absorb_framed (i : Z) a :
  0 <= i -> (i + 1) * VAD.HOP_SIZE <= Z.of_nat (List.length audioData) ->
  framed_upto audioData sampleRate i a ->
  framed_upto audioData sampleRate (i + 1)
    (absorb processAudioFrame audioData sampleRate i a).
Proof.
  intros Hi Hfit (Hshapes & Hheld & Hcount).
  pose proof (frame_length audioData i Hi Hfit) as Hframe.
  assert (Hlater : Forall (framed audioData sampleRate ((i + 1) * VAD.HOP_SIZE))
                     (VADService.close_last a)).
  { eapply Forall_impl; [|exact Hshapes]. intros s. apply framed_later.
    unfold VAD.HOP_SIZE. lia. }
  unfold framed_upto, held, VADService.close_last in *.
  unfold absorb.
  destruct (processAudioFrame (VADService.a_engine a) (frame audioData i))
    as [[r|e] engine].
  - unfold VADService.on_result.
    destruct (VAD.isSpeech r); destruct (VADService.a_currentSegment a) as [c|];
      cbn [VADService.a_segments VADService.a_currentSegment
           VADService.a_speechFrames] in *.
    + apply Forall_app in Hlater. destruct Hlater as (Hclosed & _).
      apply Forall_app in Hshapes. destruct Hshapes as (_ & Hopen).
      inversion Hopen as [|? ? Hc _]; subst.
      rewrite map_app, concat_app, length_app in *.
      cbn [map List.concat data List.length] in *.
      rewrite app_nil_r in *. rewrite length_app, Hframe.
      split; [|unfold VAD.HOP_SIZE in *; lia].
      apply Forall_app. split; [exact Hclosed|]. constructor; [|constructor].
      unfold framed in *. cbn [isSpeech startFrame endFrame data startTime endTime].
      destruct Hc as (H1 & H2 & H3 & H4 & H5 & H6 & H7 & H8 & H9 & H10).
      rewrite length_app, Hframe. unfold VAD.HOP_SIZE in *.
      split_and; try assumption; try lia.
      * Z.div_mod_to_equations. lia.
      * Z.div_mod_to_equations. lia.
      * apply incl_app; [exact H8 | apply slice_incl].
      * f_equal. f_equal. f_equal. lia.
    + rewrite map_app, concat_app, length_app.
      cbn [map List.concat data List.length]. rewrite app_nil_r, Hframe.
      split; [|unfold VAD.HOP_SIZE in *; lia].
      apply Forall_app. split; [exact Hlater|]. constructor; [|constructor].
      unfold framed. cbn [isSpeech startFrame endFrame data startTime endTime].
      rewrite Hframe. unfold VAD.HOP_SIZE in *.
      split_and; try reflexivity; try lia.
      * Z.div_mod_to_equations. lia.
      * Z.div_mod_to_equations. lia.
      * apply slice_incl.
      * f_equal. f_equal. f_equal. lia.
    + split; [exact Hlater | lia].
    + split; [exact Hlater | lia].
  - unfold VADService.on_failure.
    cbn [VADService.a_segments VADService.a_currentSegment VADService.a_speechFrames].
    split; [exact Hlater | lia].
Qed.

Lemma absorb_from_framed (n : nat) (i : Z) a :
  0 <= i -> (i + Z.of_nat n) * VAD.HOP_SIZE <= Z.of_nat (List.length audioData) ->
  framed_upto audioData sampleRate i a ->
  framed_upto audioData sampleRate (i + Z.of_nat n)
    (absorb_from processAudioFrame audioData sampleRate i n a).
Proof.
  revert i a. induction n as [|n IH]; intros i a Hi Hfit Hinv.
  - now rewrite Z.add_0_r.
  - cbn [absorb_from].
    replace (i + Z.of_nat (S n)) with (i + 1 + Z.of_nat n) by lia.
    apply IH; [lia | unfold VAD.HOP_SIZE in *; lia|].
    apply absorb_framed; [lia | unfold VAD.HOP_SIZE in *; lia | exact Hinv].
Qed.

Lemma start_framed (engine : Engine) :
  framed_upto audioData sampleRate 0 (start engine).
Proof.
  unfold framed_upto, held, start. cbn. split; [constructor | lia].
Qed.

Lemma run_framed (engine : Engine) :
  let frameCount := Z.of_nat (List.length audioData) / VAD.HOP_SIZE in
  framed_upto audioData sampleRate frameCount
    (absorb_from processAudioFrame audioData sampleRate 0 (Z.to_nat frameCount)
       (start engine)).
Proof.
  intros frameCount.
  assert (Hcount : 0 <= frameCount) by (apply Z.div_pos; unfold VAD.HOP_SIZE; lia).
  replace frameCount with (0 + Z.of_nat (Z.to_nat frameCount)) at 1 by lia.
  apply absorb_from_framed; [lia | apply frame_count_fits | apply start_framed].
Qed.

End Shapes.

Section Accounts.

Context {F : Type} {number : JSNumber F} {Engine : Type}.
Variable processAudioFrame : Engine -> Int16Array -> result (VAD.VADResult F) * Engine.

(** X10: every segment [processAudioWithVAD] returns is marked as speech,
    begins and ends on frame boundaries within the whole frames of the
    buffer, holds samples of the buffer, a positive number of whole frames
    of them and no more than it spans, and carries as times its first
    sample and the first sample of its last frame plus one hop, divided by
    the rate. *)
Theorem segments_are_framed (engine : Engine) (audioData : Int16Array) (rate : F) :
  exists (r : VADResult F) (engine' : Engine),
    VADService.processAudioWithVAD (Ok engine) processAudioFrame audioData rate
    = Ok (r, engine')
    /\ Forall (framed audioData rate (totalFrames r * VAD.HOP_SIZE)) (segments r).
Proof.
  pose proof (processAudioWithVAD_absorbs processAudioFrame audioData rate engine)
    as Hrun.
  cbv zeta in Hrun. eexists. eexists. split; [exact Hrun|].
  cbn [segments totalFrames].
  apply (run_framed processAudioFrame audioData rate engine).
Qed.

Lemma concat_data_positive (audioData : Int16Array) (rate : F) (limit : Z)
    (l : list (AudioSegment F)) :
  Forall (framed audioData rate limit) l -> l <> [] ->
  0 < Z.of_nat (List.length (List.concat (map data l))).
Proof.
  intros Hall Hne. destruct Hall as [|s l Hs _]; [congruence|].
  cbn [map List.concat]. rewrite length_app.
  destruct Hs as (_ & _ & _ & _ & _ & Hlen & _). lia.
Qed.

(** X11: the segments hold 256 samples for every frame counted in
    [speechFrames], which is between 0 and [totalFrames]; and [hasSpeech]
    is set exactly when there is a segment. *)
Theorem speech_frames_account (engine : Engine) (audioData : Int16Array) (rate : F) :
  exists (r : VADResult F) (engine' : Engine),
    VADService.processAudioWithVAD (Ok engine) processAudioFrame audioData rate
    = Ok (r, engine')
    /\ Z.of_nat (List.length (List.concat (map data (segments r))))
       = 256 * speechFrames r
    /\ 0 <= speechFrames r <= totalFrames r
    /\ (hasSpeech r = true <-> segments r <> []).
Proof.
  pose proof (processAudioWithVAD_absorbs processAudioFrame audioData rate engine)
    as Hrun.
  cbv zeta in Hrun. eexists. eexists. split; [exact Hrun|].
  cbn [segments totalFrames speechFrames hasSpeech].
  destruct (run_framed processAudioFrame audioData rate engine)
    as (Hshapes & Hheld & Hcount).
  unfold held in Hheld. unfold VAD.HOP_SIZE in Hheld at 2.
  split; [exact Hheld|]. split; [exact Hcount|].
  rewrite Z.ltb_lt. split.
  - intros Hpos Hnil. rewrite Hnil in Hheld.
    cbn [map List.concat List.length Z.of_nat] in Hheld. lia.
  - intros Hne.
    pose proof (concat_data_positive _ _ _ _ Hshapes Hne). lia.
Qed.

Lemma filter_all {A : Type} (f : A -> bool) (l : list A) :
  Forall (fun x => f x = true) l -> filter f l = l.
Proof.
  induction 1 as [|x l Hx _ IH]; [reflexivity|].
  simpl. now rewrite Hx, IH.
Qed.

(** X12: the [segmentsKept] the transcription routes report is always
    their [segmentsFound], whatever the thresholds, because every segment
    is marked as speech; for the same reason [filterSpeechSegments] removes
    a segment of [processAudioWithVAD] only for its duration or its
    probability. *)
Theorem kept_is_found (engine : Engine) (audioData : Int16Array) (rate : F)
    (minDurationMs minProbability : F) :
  exists (r : VADResult F) (engine' : Engine),
    VADService.processAudioWithVAD (Ok engine) processAudioFrame audioData rate
    = Ok (r, engine')
    /\ segmentsKept r = segmentsFound r
    /\ AudioService.filterSpeechSegments (segments r) minDurationMs minProbability
       = filter (fun s =>
                   geb (mul (sub (endTime s) (startTime s)) (of_Z 1000)) minDurationMs
                   && geb (probability s) minProbability)
                (segments r).
Proof.
  pose proof (processAudioWithVAD_absorbs processAudioFrame audioData rate engine)
    as Hrun.
  cbv zeta in Hrun. eexists. eexists. split; [exact Hrun|].
  unfold segmentsKept, segmentsFound. cbn [segments].
  pose proof (run_framed processAudioFrame audioData rate engine) as (Hshapes & _).
  assert (Hspeech : Forall (fun s : AudioSegment F => isSpeech s = true)
            (VADService.close_last
               (absorb_from processAudioFrame audioData rate 0
                  (Z.to_nat (Z.of_nat (List.length audioData) / VAD.HOP_SIZE))
                  (start engine)))).
  { eapply Forall_impl; [|exact Hshapes]. intros s Hs. apply Hs. }
  split.
  - now rewrite filter_all.
  - unfold AudioService.filterSpeechSegments.
    apply filter_ext_in. intros s Hs.
    rewrite Forall_forall in Hspeech. rewrite (Hspeech s Hs). reflexivity.
Qed.

End Accounts.

(** ** Segments apart *)

Section Apart.

Context {F : Type} {number : JSNumber F} {Engine : Type}.
Variable processAudioFrame : Engine -> Int16Array -> result (VAD.VADResult F) * Engine.
Variable audioData : Int16Array.
Variable sampleRate : F.

Implicit Types (a : @VADService.accumulator F Engine).





End Apart.

(** ** Segments without failed frames *)

Lemma firstn_add {A : Type} (n m : nat) (l : list A) :
  firstn (n + m) l = firstn n l ++ firstn m (skipn n l).
Proof.
  revert l. induction n as [|n IH]; intros [|x l]; simpl;
    rewrite ?firstn_nil; try reflexivity.
  now rewrite IH.
Qed.

Lemma slice_app {A : Type} (l : list A) (x y z : Z) :
  0 <= x -> x <= y -> y <= z -> z <= Z.of_nat (List.length l) ->
  slice l x y ++ slice l y z = slice l x z.
Proof.
  intros Hx Hxy Hyz Hz. unfold slice. cbv zeta.
  rewrite !Z.min_l by lia. rewrite !Z.max_l by lia.
  replace (Z.to_nat (z - x)) with (Z.to_nat (y - x) + Z.to_nat (z - y))%nat by lia.
  rewrite firstn_add, skipn_skipn.
  replace (Z.to_nat (y - x) + Z.to_nat x)%nat with (Z.to_nat y) by lia.
  reflexivity.
Qed.

Section Contiguous.

Context {F : Type} {number : JSNumber F} {Engine : Type}.
Variable processAudioFrame : Engine -> Int16Array -> result (VAD.VADResult F) * Engine.
Variable audioData : Int16Array.
Variable sampleRate : F.

Implicit Types (a : @VADService.accumulator F Engine).

Lemma absorb_contiguous (i : Z) a :
  0 <= i -> (i + 1) * VAD.HOP_SIZE <= Z.of_nat (List.length audioData) ->
  classified (fst (processAudioFrame (VADService.a_engine a) (frame audioData i))) ->
  contiguous_upto audioData i a ->
  contiguous_upto audioData (i + 1) (absorb processAudioFrame audioData sampleRate i a).
Proof.
  intros Hi Hfit Hok (Hdata & Hopen).
  unfold contiguous_upto, VADService.close_last, absorb in *.
  destruct (processAudioFrame (VADService.a_engine a) (frame audioData i))
    as [[r|e] engine]; [|contradiction].
  unfold VADService.on_result, frame.
  destruct (VAD.isSpeech r); destruct (VADService.a_currentSegment a) as [c|];
    cbn [VADService.a_segments VADService.a_currentSegment] in *.
  - destruct Hopen as (Hend & Hstart).
    apply Forall_app in Hdata. destruct Hdata as (Hclosed & Hc).
    inversion Hc as [|? ? Hc' _]; subst.
    cbn [startFrame endFrame data]. split.
    + apply Forall_app. split; [exact Hclosed|]. constructor; [|constructor].
      cbn [startFrame endFrame data].
      rewrite Hc', Hend. apply slice_app; unfold VAD.HOP_SIZE in *; lia.
    + unfold VAD.HOP_SIZE in *. lia.
  - cbn [startFrame endFrame data]. split.
    + apply Forall_app. split; [exact Hdata|]. constructor; [|constructor].
      reflexivity.
    + unfold VAD.HOP_SIZE in *. lia.
  - split; [exact Hdata | exact I].
  - split; [exact Hdata | exact I].
Qed.

Lemma absorb_from_contiguous (n : nat) (i : Z) a :
  0 <= i -> (i + Z.of_nat n) * VAD.HOP_SIZE <= Z.of_nat (List.length audioData) ->
  Forall classified
    (classifications processAudioFrame (VADService.a_engine a)
       (frames_from audioData i n)) ->
  contiguous_upto audioData i a ->
  contiguous_upto audioData (i + Z.of_nat n)
    (absorb_from processAudioFrame audioData sampleRate i n a).
Proof.
  revert i a. induction n as [|n IH]; intros i a Hi Hfit Hall Hinv.
  - now rewrite Z.add_0_r.
  - cbn [absorb_from frames_from classifications] in *.
    inversion Hall as [|? ? Hfirst Hrest]; subst.
    replace (i + Z.of_nat (S n)) with (i + 1 + Z.of_nat n) by lia.
    apply IH; [lia | unfold VAD.HOP_SIZE in *; lia | |].
    + now rewrite absorb_engine.
    + apply absorb_contiguous;
        [lia | unfold VAD.HOP_SIZE in *; lia | exact Hfirst | exact Hinv].
Qed.

(** X13: when no classification fails, every segment holds exactly the
    samples of the buffer between its [startFrame] and its [endFrame]. *)
Theorem segment_samples_are_contiguous (engine : Engine) :
  Forall classified (classifications processAudioFrame engine (frames audioData)) ->
  exists (r : VADResult F) (engine' : Engine),
    VADService.processAudioWithVAD (Ok engine) processAudioFrame audioData sampleRate
    = Ok (r, engine')
    /\ Forall (fun s => data s = slice audioData (startFrame s) (endFrame s))
         (segments r).
Proof.
  intros Hall.
  pose proof (processAudioWithVAD_absorbs processAudioFrame audioData sampleRate engine)
    as Hrun.
  cbv zeta in Hrun. eexists. eexists. split; [exact Hrun|].
  cbn [segments].
  apply (absorb_from_contiguous
           (Z.to_nat (Z.of_nat (List.length audioData) / VAD.HOP_SIZE)) 0
           (start engine)).
  - lia.
  - apply frame_count_fits.
  - exact Hall.
  - unfold contiguous_upto, start. cbn. split; [constructor | exact I].
Qed.

End Contiguous.

(* ================================================================== *)
(** * Further properties of the pipeline *)

Lemma firstn_skipn_length_le {A : Type} (l : list A) (first final : Z) :
  (List.length (slice l first final) <= List.length l)%nat.
Proof.
  unfold slice. cbv zeta. rewrite length_firstn, length_skipn. lia.
Qed.

Lemma concat_filter_le {A B : Type} (f : A -> bool) (g : A -> list B) (l : list A) :
  (List.length (List.concat (map g (filter f l)))
   <= List.length (List.concat (map g l)))%nat.
Proof.
  induction l as [|x l IH]; [reflexivity|].
  cbn [filter map List.concat]. rewrite length_app.
  destruct (f x); cbn [map List.concat]; rewrite ?length_app; lia.
Qed.

Lemma Forall_concat_incl {A : Type} (P : A -> Prop) (whole : list A)
    (parts : list (list A)) :
  Forall P whole -> Forall (fun part => incl part whole) parts ->
  Forall P (List.concat parts).
Proof.
  intros Hwhole Hparts. rewrite Forall_forall in Hwhole.
  induction Hparts as [|part parts Hpart _ IH]; [constructor|].
  cbn [List.concat]. apply Forall_app. split; [|exact IH].
  apply Forall_forall. intros x Hx. apply Hwhole, Hpart, Hx.
Qed.

Section Reparse.

Context {F : Type} {number : JSNumber F} {Engine : Type}.
Variable initializeVAD : result Engine.
Variable processAudioFrame : Engine -> Int16Array -> result (VAD.VADResult F) * Engine.

Lemma extract_bounds (buffer : ArrayBuffer) (wavInfo : WAVInfo F) (samples : Int16Array) :
  AudioService.extractMonoAudio buffer wavInfo = Ok samples ->
  Forall is_int16 samples
  /\ Z.of_nat (List.length samples) * 2 <= byteLength buffer.
Proof.
  unfold AudioService.extractMonoAudio, Int16Array_of_buffer, byteLength.
  set (region := slice buffer (dataOffset wavInfo) (dataOffset wavInfo + dataSize wavInfo)).
  pose proof (firstn_skipn_length_le buffer (dataOffset wavInfo)
                (dataOffset wavInfo + dataSize wavInfo)) as Hregion.
  fold region in Hregion.
  destruct (int16_elements_facts (S (List.length region)) region ltac:(lia))
    as (Hcount & Hrange).
  destruct (Z.of_nat (List.length region) mod 2 =? 0); [|discriminate].
  rewrite bind_Ok.
  assert (Hraw : Z.of_nat (List.length (int16_elements region)) * 2
                 <= Z.of_nat (List.length buffer)).
  { rewrite Hcount. pose proof (Z.mul_div_le (Z.of_nat (List.length region)) 2). lia. }
  destruct (Z.ltb_spec 1 (channels wavInfo)) as [Hmany|Hone];
    intros Heq; apply Ok_inj in Heq; subst samples.
  - split.
    + apply Forall_forall. intros x Hx. apply in_map_iff in Hx.
      destruct Hx as (i & <- & _).
      destruct (nth_in_or_default (i * Z.to_nat (channels wavInfo))
                  (int16_elements region) 0) as [Hin | ->].
      * rewrite Forall_forall in Hrange. now apply Hrange.
      * unfold is_int16. lia.
    + rewrite length_map, length_seq.
      pose proof (Z.div_pos (Z.of_nat (List.length (int16_elements region)))
                    (channels wavInfo) ltac:(lia) ltac:(lia)).
      assert (Z.of_nat (List.length (int16_elements region)) / channels wavInfo
              <= Z.of_nat (List.length (int16_elements region))).
      { apply Z.div_le_upper_bound; nia. }
      lia.
  - auto.
Qed.

Lemma extract_created (samples : Int16Array) (rate : Z) :
  Forall is_int16 samples ->
  Z.of_nat (List.length samples) * 2 < 4294967296 ->
  AudioService.extractMonoAudio
    (wav_header (Z.of_nat (List.length samples)) rate 1 ++ int16_bytes samples)
    (created_info (F := F) (Z.of_nat (List.length samples)) rate 1)
  = Ok samples.
Proof.
  intros Hrange Hfit.
  unfold AudioService.extractMonoAudio, created_info.
  cbn [dataOffset dataSize channels].
  rewrite (Z.mod_small (Z.of_nat (List.length samples) * 2)) by lia.
  replace (Z.of_nat (List.length samples) * 2)
    with (Z.of_nat (List.length (int16_bytes samples)))
    by (rewrite int16_bytes_length; lia).
  change 44 with (Z.of_nat (List.length
                    (wav_header (Z.of_nat (List.length samples)) rate 1))) at 1 2.
  rewrite slice_suffix.
  unfold Int16Array_of_buffer, byteLength.
  rewrite int16_bytes_length.
  replace (Z.of_nat (2 * List.length samples) mod 2) with 0
    by (rewrite Nat2Z.inj_mul, Z.mul_comm, Z.mod_mul; lia).
  cbn [Z.eqb]. rewrite bind_Ok.
  change (1 <? 1 mod 65536) with false. cbn iota.
  now rewrite int16_elements_bytes.
Qed.

(** X14: when [extractSpeechSegments] answers [speechFound = true] for a
    buffer of less than 4 GiB, its [processedBuffer] parses again, as the
    routes do to compute the processed duration: to one channel of 16 bits
    at the rate of the original, with as samples the samples of the
    surviving segments in order, which are not empty and are no more than
    the original has. *)
Theorem processed_buffer_parses (original : ArrayBuffer) (minDurationMs minProbability : F)
    (out : Extraction F) :
  byteLength original < 4294967296 ->
  VADService.extractSpeechSegments initializeVAD processAudioFrame original
    minDurationMs minProbability = Ok out ->
  speechFound out = true ->
  exists (wavInfo wavInfo' : WAVInfo F) (mono merged : Int16Array),
    AudioService.parseWAVHeader original = Ok wavInfo
    /\ AudioService.extractMonoAudio original wavInfo = Ok mono
    /\ AudioService.parseWAVHeader (processedBuffer out) = Ok wavInfo'
    /\ sampleRate wavInfo' = sampleRate wavInfo
    /\ channels wavInfo' = 1
    /\ bitsPerSample wavInfo' = 16
    /\ AudioService.extractMonoAudio (processedBuffer out) wavInfo' = Ok merged
    /\ merged
       = List.concat
           (map data (AudioService.filterSpeechSegments (segments (vadResult out))
                        minDurationMs minProbability))
    /\ merged <> []
    /\ (List.length merged <= List.length mono)%nat.
Proof.
  intros Hsize. unfold VADService.extractSpeechSegments.
  destruct (AudioService.parseWAVHeader original) as [wavInfo|e] eqn:Hparse;
    [|discriminate].
  rewrite bind_Ok.
  destruct (AudioService.extractMonoAudio original wavInfo) as [mono|e] eqn:Hmono;
    [|discriminate].
  rewrite bind_Ok.
  destruct initializeVAD as [engine|e]; [|discriminate].
  rewrite (processAudioWithVAD_absorbs processAudioFrame mono
             (of_Z (sampleRate wavInfo)) engine), bind_Ok.
  cbn [fst segments].
  set (a := absorb_from processAudioFrame mono (of_Z (sampleRate wavInfo)) 0
              (Z.to_nat (Z.of_nat (List.length mono) / VAD.HOP_SIZE)) (start engine)).
  set (kept := AudioService.filterSpeechSegments (VADService.close_last a)
                 minDurationMs minProbability).
  destruct (Z.eqb_spec (Z.of_nat (List.length kept)) 0) as [Hnone|Hsome].
  { intros Heq. apply Ok_inj in Heq. subst out. discriminate. }
  rewrite mergeAudioSegments_concat, bind_Ok, createWAVBuffer_bytes, bind_Ok.
  intros Heq _. apply Ok_inj in Heq. subst out.
  cbn [processedBuffer vadResult segments]. fold a. fold kept.
  set (merged := List.concat (map data kept)).
  destruct (run_framed processAudioFrame mono (of_Z (sampleRate wavInfo)) engine)
    as (Hshapes & Hheld & Hcount).
  fold a in Hshapes, Hheld, Hcount.
  destruct (extract_bounds _ _ _ Hmono) as (Hrange & Hbytes).
  destruct (parse_ranges _ _ Hparse) as (_ & _ & _ & Hrate & _).
  assert (Hkept : Forall (framed mono (of_Z (sampleRate wavInfo))
                            (Z.of_nat (List.length mono) / VAD.HOP_SIZE * VAD.HOP_SIZE))
                    kept).
  { apply Forall_forall. intros s Hs. unfold kept, AudioService.filterSpeechSegments in Hs.
    apply filter_In in Hs. rewrite Forall_forall in Hshapes. apply Hshapes, Hs. }
  assert (Hle : (List.length merged <= List.length mono)%nat).
  { pose proof (concat_filter_le
                  (fun segment =>
                     isSpeech segment
                     && geb (mul (sub (endTime segment) (startTime segment)) (of_Z 1000))
                          minDurationMs
                     && geb (probability segment) minProbability)
                  data (VADService.close_last a)) as Hfilter.
    fold (AudioService.filterSpeechSegments (VADService.close_last a)
            minDurationMs minProbability) in Hfilter.
    fold kept in Hfilter. fold merged in Hfilter.
    unfold held in Hheld.
    pose proof (Z.mul_div_le (Z.of_nat (List.length mono)) 256 ltac:(lia)) as Hfits.
    unfold VAD.HOP_SIZE in Hheld, Hcount.
    unfold merged.
    clearbody a kept. unfold Int16Array in *. lia. }
  assert (Hne : merged <> []).
  { intros Hnil.
    assert (Hpos : 0 < Z.of_nat (List.length merged)).
    { apply (concat_data_positive _ _ _ _ Hkept).
      intros Hk. rewrite Hk in Hsome. apply Hsome. reflexivity. }
    rewrite Hnil in Hpos. simpl in Hpos. lia. }
  assert (Hmerged : Forall is_int16 merged).
  { apply (Forall_concat_incl _ mono); [exact Hrange|].
    apply Forall_forall. intros part Hpart. apply in_map_iff in Hpart.
    destruct Hpart as (s & <- & Hs). rewrite Forall_forall in Hkept.
    apply (Hkept s Hs). }
  assert (Hfit : Z.of_nat (List.length merged) * 2 < 4294967296) by lia.
  exists wavInfo, (created_info (Z.of_nat (List.length merged)) (sampleRate wavInfo) 1),
    mono, merged.
  split_and; try reflexivity; try assumption.
  - apply parse_created, int16_bytes_nonempty, Hne.
  - unfold created_info. cbn [sampleRate]. apply Z.mod_small. lia.
  - apply extract_created; assumption.
Qed.

End Reparse.

(* ================================================================== *)
(** * Properties of [processAudioBuffer] *)

Section BufferLoop.

Context {F : Type} {number : JSNumber F} {greater : JSGreater F} {Engine : Type}.
Variable processAudioFrame : Engine -> Int16Array -> result (VAD.VADResult F) * Engine.
Variable audioData : Int16Array.
Variable sampleRate : F.

Implicit Types (w : @VADLoader.walker F Engine).

Lemma buffer_loop_throws (oks rest : list (result (VAD.VADResult F))) (e : exn)
    (n : nat) (i : Z) w :
  classifications processAudioFrame (VADLoader.w_engine w) (frames_from audioData i n)
  = oks ++ Throw e :: rest ->
  Forall classified oks ->
  VADLoader.buffer_loop processAudioFrame n audioData sampleRate i w = Throw e.
Proof.
  revert n i w. induction oks as [|o oks IH]; intros n i w Heq Hoks.
  - destruct n as [|n]; [discriminate|].
    cbn [frames_from classifications app] in Heq. injection Heq as Hfirst _.
    cbn [VADLoader.buffer_loop]. unfold VADLoader.buffer_step. fold (frame audioData i).
    destruct (processAudioFrame (VADLoader.w_engine w) (frame audioData i)) as [o engine].
    cbn [fst] in Hfirst. subst o. reflexivity.
  - destruct n as [|n]; [discriminate|].
    cbn [frames_from classifications app] in Heq. injection Heq as Hfirst Hrest.
    inversion Hoks as [|? ? Ho Hoks']; subst.
    cbn [VADLoader.buffer_loop]. unfold VADLoader.buffer_step. fold (frame audioData i).
    destruct (processAudioFrame (VADLoader.w_engine w) (frame audioData i))
      as [[r|e0] engine]; cbn [fst snd] in *; [|contradiction].
    destruct (VAD.isSpeech r); destruct (VADLoader.w_currentSpeechStart w);
      rewrite bind_Ok; apply IH; assumption.
Qed.

Lemma buffer_loop_runs (n : nat) (i : Z) w :
  Forall classified
    (classifications processAudioFrame (VADLoader.w_engine w) (frames_from audioData i n)) ->
  exists w',
    VADLoader.buffer_loop processAudioFrame n audioData sampleRate i w = Ok w'
    /\ VADLoader.w_engine w'
       = fed processAudioFrame (VADLoader.w_engine w) (frames_from audioData i n)
    /\ VADLoader.w_frames w'
       = VADLoader.w_frames w
         ++ successes (classifications processAudioFrame (VADLoader.w_engine w)
                         (frames_from audioData i n))
    /\ List.length (VADLoader.last_span audioData sampleRate w')
       = (List.length (VADLoader.last_span audioData sampleRate w)
          + runs (match VADLoader.w_currentSpeechStart w with
                  | Some _ => true
                  | None => false
                  end)
              (speech_flags (classifications processAudioFrame (VADLoader.w_engine w)
                               (frames_from audioData i n))))%nat.
Proof.
  revert i w. induction n as [|n IH]; intros i w Hall.
  - exists w. cbn. rewrite app_nil_r.
    destruct (VADLoader.w_currentSpeechStart w); auto.
  - cbn [frames_from classifications] in Hall.
    inversion Hall as [|? ? Hfirst Hrest]; subst.
    cbn [VADLoader.buffer_loop frames_from classifications]. unfold fed. cbn [fold_left].
    unfold VADLoader.buffer_step. fold (frame audioData i).
    destruct (processAudioFrame (VADLoader.w_engine w) (frame audioData i))
      as [[r|e0] engine]; cbn [fst snd] in *; [|contradiction].
    cbn [successes speech_flags].
    destruct (VAD.isSpeech r); destruct (VADLoader.w_currentSpeechStart w) as [t|] eqn:Hopen;
      rewrite bind_Ok;
      match goal with
      | |- context [VADLoader.buffer_loop _ _ _ _ _ ?w1] =>
          destruct (IH (i + 1) w1 Hrest) as (w' & Hloop & Hengine & Hframes & Hcount)
      end;
      exists w'; (split; [exact Hloop|]); (split; [exact Hengine|]);
      rewrite Hframes, Hcount; unfold VADLoader.last_span;
      cbn [VADLoader.w_engine VADLoader.w_frames VADLoader.w_speechSegments
           VADLoader.w_currentSpeechStart runs];
      rewrite ?Hopen, <- ?app_assoc, ?length_app; cbn [app List.length]; split;
      (reflexivity || lia).
Qed.

(** X15: [processAudioBuffer] does not guard the classification: when the
    classification of a frame throws, after frames that were classified,
    [processAudioBuffer] throws the same error and returns nothing, where
    [processAudioWithVAD] skips the frame and returns. *)
Theorem processAudioBuffer_fails_fast (engine : Engine)
    (oks rest : list (result (VAD.VADResult F))) (e : exn) :
  classifications processAudioFrame engine (frames audioData) = oks ++ Throw e :: rest ->
  Forall classified oks ->
  VADLoader.processAudioBuffer processAudioFrame engine audioData sampleRate = Throw e
  /\ exists (r : VADResult F) (engine' : Engine),
       VADService.processAudioWithVAD (Ok engine) processAudioFrame audioData sampleRate
       = Ok (r, engine').
Proof.
  intros Heq Hoks. split.
  - unfold VADLoader.processAudioBuffer.
    erewrite buffer_loop_throws; [reflexivity | exact Heq | exact Hoks].
  - pose proof (processAudioWithVAD_absorbs processAudioFrame audioData sampleRate engine)
      as Hrun.
    cbv zeta in Hrun. eexists. eexists. exact Hrun.
Qed.

(** X16: when every frame is classified, [processAudioBuffer] returns the
    results of all the whole frames, in order, and one span per maximal run
    of speech among them, a run still open at the end included. *)
Theorem processAudioBuffer_spans (engine : Engine) :
  Forall classified (classifications processAudioFrame engine (frames audioData)) ->
  exists r : VADLoader.BufferResult F,
    VADLoader.processAudioBuffer processAudioFrame engine audioData sampleRate
    = Ok (r, fed processAudioFrame engine (frames audioData))
    /\ VADLoader.frames r
       = successes (classifications processAudioFrame engine (frames audioData))
    /\ Z.of_nat (List.length (VADLoader.frames r))
       = Z.of_nat (List.length audioData) / VAD.HOP_SIZE
    /\ List.length (VADLoader.speechSegments r)
       = speech_runs (speech_flags (classifications processAudioFrame engine
                                      (frames audioData))).
Proof.
  intros Hall. unfold VADLoader.processAudioBuffer.
  destruct (buffer_loop_runs
              (Z.to_nat (Z.of_nat (List.length audioData) / VAD.HOP_SIZE)) 0
              {| VADLoader.w_engine := engine;
                 VADLoader.w_frames := [];
                 VADLoader.w_speechSegments := [];
                 VADLoader.w_currentSpeechStart := None |} Hall)
    as (w' & Hloop & Hengine & Hframes & Hcount).
  rewrite Hloop, bind_Ok. cbn [VADLoader.w_engine VADLoader.w_frames app] in *.
  rewrite Hengine. eexists. split; [reflexivity|].
  cbn [VADLoader.frames VADLoader.speechSegments].
  split; [exact Hframes|]. split; [|exact Hcount].
  rewrite Hframes. fold (frames audioData).
  assert (Hlen : forall l : list (result (VAD.VADResult F)),
             Forall classified l -> List.length (successes l) = List.length l).
  { induction 1 as [|[x|x] l Hx _ IH]; simpl; [reflexivity | now rewrite IH | contradiction]. }
  rewrite Hlen by exact Hall.
  assert (Hclass : forall (fs : list Int16Array) (e0 : Engine),
             List.length (classifications processAudioFrame e0 fs) = List.length fs).
  { induction fs as [|f fs IH]; intros e0; simpl; [reflexivity | now rewrite IH]. }
  rewrite Hclass. unfold frames. rewrite frames_from_length.
  apply Z2Nat.id, Z.div_pos; unfold VAD.HOP_SIZE; lia.
Qed.

End BufferLoop.

(** ** The spans of [processAudioBuffer] in time *)

Section BufferSpans.

Context {F : Type} {number : JSNumber F} {greater : JSGreater F} {Engine : Type}.
Variable processAudioFrame : Engine -> Int16Array -> result (VAD.VADResult F) * Engine.
Variable audioData : Int16Array.
Variable sampleRate : F.

Implicit Types (w : @VADLoader.walker F Engine).

Lemma closed_span_later (limit limit' : Z) (span : VADLoader.Span F) :
  limit <= limit' -> closed_span sampleRate limit span ->
  closed_span sampleRate limit' span.
Proof.
  intros Hle (i & j & Hij & Hj & Hrest). exists i, j.
  split; [exact Hij|]. split; [lia | exact Hrest].
Qed.

Lemma buffer_step_spanned (i : Z) w w' :
  0 <= i ->
  spanned_upto sampleRate i w ->
  VADLoader.buffer_step processAudioFrame audioData sampleRate i w = Ok w' ->
  spanned_upto sampleRate (i + 1) w'.
Proof.
  intros Hi [Hclosed Hopen] Hstep.
  assert (Hlater : Forall (closed_span sampleRate (i + 1)) (VADLoader.w_speechSegments w)).
  { eapply Forall_impl; [|exact Hclosed].
    intros span. apply closed_span_later. lia. }
  unfold VADLoader.buffer_step in Hstep.
  destruct (processAudioFrame (VADLoader.w_engine w) _) as [[r|e] engine];
    [|discriminate].
  fold (timestamp sampleRate i) in Hstep.
  destruct (VAD.isSpeech r);
    destruct (VADLoader.w_currentSpeechStart w) as [t|];
    apply Ok_inj in Hstep; subst w'; unfold spanned_upto;
    cbn [VADLoader.w_speechSegments VADLoader.w_currentSpeechStart].
  - split; [exact Hlater|].
    destruct Hopen as (k & Hk & ->). exists k. split; [lia | reflexivity].
  - split; [exact Hlater|]. exists i. split; [lia | reflexivity].
  - split; [|exact I].
    apply Forall_app. split; [exact Hlater|]. constructor; [|constructor].
    destruct Hopen as (k & Hk & ->). exists k, i.
    cbn [VADLoader.span_start VADLoader.span_end VADLoader.span_duration].
    repeat split; (lia || reflexivity).
  - split; [exact Hlater | exact I].
Qed.

Lemma buffer_loop_spanned (n : nat) (i : Z) w w' :
  0 <= i ->
  spanned_upto sampleRate i w ->
  VADLoader.buffer_loop processAudioFrame n audioData sampleRate i w = Ok w' ->
  spanned_upto sampleRate (i + Z.of_nat n) w'.
Proof.
  revert i w. induction n as [|n IH]; intros i w Hi Hinv Hloop.
  - cbn in Hloop. apply Ok_inj in Hloop. subst w'.
    replace (i + Z.of_nat 0) with i by lia. exact Hinv.
  - cbn [VADLoader.buffer_loop] in Hloop.
    destruct (VADLoader.buffer_step processAudioFrame audioData sampleRate i w)
      as [w1|e] eqn:Hstep; [|discriminate].
    rewrite bind_Ok in Hloop.
    replace (i + Z.of_nat (S n)) with (i + 1 + Z.of_nat n) by lia.
    apply (IH (i + 1) w1); [lia | | exact Hloop].
    apply (buffer_step_spanned i w); assumption.
Qed.

(** X17: when every frame is classified, the spans [processAudioBuffer]
    returns are, in the arithmetic of the code: spans from the timestamp
    of a frame to the timestamp of a later whole frame, the silent one
    that closed them, and then at most one trailing span, from the
    timestamp of a frame to the duration of the whole buffer, partial last
    frame included; the duration of each is its end minus its start. *)
Theorem processAudioBuffer_span_times (engine : Engine) :
  Forall classified (classifications processAudioFrame engine (frames audioData)) ->
  exists (r : VADLoader.BufferResult F) (engine' : Engine)
         (closed trailing : list (VADLoader.Span F)),
    VADLoader.processAudioBuffer processAudioFrame engine audioData sampleRate
    = Ok (r, engine')
    /\ VADLoader.speechSegments r = closed ++ trailing
    /\ Forall (closed_span sampleRate (Z.of_nat (List.length audioData) / VAD.HOP_SIZE))
         closed
    /\ (trailing = []
        \/ exists i : Z,
             0 <= i < Z.of_nat (List.length audioData) / VAD.HOP_SIZE
             /\ trailing
                = [{| VADLoader.span_start := timestamp sampleRate i;
                      VADLoader.span_end :=
                        div (of_Z (Z.of_nat (List.length audioData))) sampleRate;
                      VADLoader.span_duration :=
                        sub (div (of_Z (Z.of_nat (List.length audioData))) sampleRate)
                            (timestamp sampleRate i) |}]).
Proof.
  intros Hall. unfold VADLoader.processAudioBuffer.
  destruct (buffer_loop_runs processAudioFrame audioData sampleRate
              (Z.to_nat (Z.of_nat (List.length audioData) / VAD.HOP_SIZE)) 0
              {| VADLoader.w_engine := engine;
                 VADLoader.w_frames := [];
                 VADLoader.w_speechSegments := [];
                 VADLoader.w_currentSpeechStart := None |} Hall)
    as (w' & Hloop & _).
  rewrite Hloop, bind_Ok.
  apply buffer_loop_spanned in Hloop;
    [| lia | split; [constructor | exact I]].
  rewrite Z.add_0_l, Z2Nat.id in Hloop
    by (apply Z.div_pos; unfold VAD.HOP_SIZE; lia).
  destruct Hloop as [Hclosed Hopen].
  cbv zeta. unfold VADLoader.last_span.
  destruct (VADLoader.w_currentSpeechStart w') as [t|].
  - destruct Hopen as (k & Hk & ->).
    eexists. eexists. exists (VADLoader.w_speechSegments w'). eexists.
    split; [reflexivity|]. cbn [VADLoader.speechSegments].
    split; [reflexivity|]. split; [exact Hclosed|].
    right. exists k. split; [exact Hk | reflexivity].
  - eexists. eexists. exists (VADLoader.w_speechSegments w'), [].
    split; [reflexivity|]. cbn [VADLoader.speechSegments].
    split; [now rewrite app_nil_r|]. split; [exact Hclosed | now left].
Qed.

End BufferSpans.

(* ================================================================== *)
(** * The statistics of the VAD test route *)

Section TestRoute.

Context {F : Type} {number : JSNumber F} {Engine : Type}.
Variable processAudioFrame : Engine -> Int16Array -> result (VAD.VADResult F) * Engine.
Variable audioData : Int16Array.
Variable sampleRate : F.

(** The counts of the route's loop are those of the service's, frame by
    frame. *)
Lemma count_loop_absorb (n : nat) (i : Z) (c : @VADTest.counter F Engine)
    (a : @VADService.accumulator F Engine) :
  VADTest.c_engine c = VADService.a_engine a ->
  VADTest.c_speechFrames c = VADService.a_speechFrames a ->
  VADTest.c_totalProbability c = VADService.a_totalProbability a ->
  VADTest.c_engine (VADTest.count_loop processAudioFrame n audioData i c)
  = VADService.a_engine (absorb_from processAudioFrame audioData sampleRate i n a)
  /\ VADTest.c_speechFrames (VADTest.count_loop processAudioFrame n audioData i c)
     = VADService.a_speechFrames (absorb_from processAudioFrame audioData sampleRate i n a)
  /\ VADTest.c_totalProbability (VADTest.count_loop processAudioFrame n audioData i c)
     = VADService.a_totalProbability
         (absorb_from processAudioFrame audioData sampleRate i n a).
Proof.
  revert i c a. induction n as [|n IH]; intros i c a Hengine Hcount Htotal.
  - cbn. auto.
  - cbn [VADTest.count_loop absorb_from]. apply IH;
      unfold VADTest.count_step, absorb; fold (frame audioData i); rewrite Hengine;
      destruct (processAudioFrame (VADService.a_engine a) (frame audioData i))
        as [[r|e] engine];
      unfold VADService.on_result, VADService.on_failure;
      try (destruct (VAD.isSpeech r); destruct (VADService.a_currentSegment a));
      cbn [VADTest.c_engine VADTest.c_speechFrames VADTest.c_totalProbability
           VADService.a_engine VADService.a_speechFrames VADService.a_totalProbability];
      congruence.
Qed.

(** X18: the [processAudioWithVAD] of the VAD test route, which keeps
    counts only and slices its frames without clamping or padding, reports
    the same [totalFrames], [speechFrames], [speechPercentage], [hasSpeech]
    and [avgProbability] as the [processAudioWithVAD] of [VADService], and
    leaves the classifier in the same state. *)
Theorem test_route_statistics (engine : Engine) :
  exists (r : VADResult F) (s : VADTest.Summary F) (engine' : Engine),
    VADService.processAudioWithVAD (Ok engine) processAudioFrame audioData sampleRate
    = Ok (r, engine')
    /\ VADTest.processAudioWithVAD (Ok engine) processAudioFrame audioData sampleRate
       = Ok (s, engine')
    /\ VADTest.totalFrames s = totalFrames r
    /\ VADTest.speechFrames s = speechFrames r
    /\ VADTest.speechPercentage s = speechPercentage r
    /\ VADTest.hasSpeech s = hasSpeech r
    /\ VADTest.avgProbability s = avgProbability r.
Proof.
  pose proof (processAudioWithVAD_absorbs processAudioFrame audioData sampleRate engine)
    as Hrun.
  cbv zeta in Hrun. rewrite Hrun.
  unfold VADTest.processAudioWithVAD. rewrite bind_Ok. cbv zeta.
  destruct (count_loop_absorb
              (Z.to_nat (Z.of_nat (List.length audioData) / VAD.HOP_SIZE)) 0
              {| VADTest.c_engine := engine;
                 VADTest.c_speechFrames := 0;
                 VADTest.c_totalProbability := of_Z 0 |}
              (start engine) eq_refl eq_refl eq_refl)
    as (Hengine & Hcount & Htotal).
  rewrite Hengine, Hcount, Htotal.
  eexists. eexists. eexists. split; [reflexivity|]. split; [reflexivity|].
  cbn [VADTest.totalFrames VADTest.speechFrames VADTest.speechPercentage
       VADTest.hasSpeech VADTest.avgProbability
       totalFrames speechFrames speechPercentage hasSpeech avgProbability].
  auto.
Qed.

End TestRoute.

(* ================================================================== *)
(** * Merging, and audio shorter than a frame *)

Section Short.

Context {F : Type} {number : JSNumber F} {Engine : Type}.
Variable processAudioFrame : Engine -> Int16Array -> result (VAD.VADResult F) * Engine.

(** X19: [mergeAudioSegments] throws nothing, since every [set] at the
    running offset fits the buffer allocated from the total length, and
    returns the samples of the segments one after the other: as many as
    the lengths it summed, and for two lists of segments in a row the
    samples of the first list followed by those of the second. *)
Theorem merged_samples (segments others : list (AudioSegment F)) :
  exists merged rest : Int16Array,
    AudioService.mergeAudioSegments segments = Ok merged
    /\ AudioService.mergeAudioSegments others = Ok rest
    /\ merged = List.concat (map data segments)
    /\ Z.of_nat (List.length merged)
       = fold_left (fun sum segment => sum + Z.of_nat (List.length (data segment)))
           segments 0
    /\ AudioService.mergeAudioSegments (segments ++ others) = Ok (merged ++ rest).
Proof.
  exists (List.concat (map data segments)), (List.concat (map data others)).
  rewrite !mergeAudioSegments_concat, total_length, map_app, concat_app.
  repeat split; reflexivity.
Qed.

(** X20: audio of fewer than 256 samples has no whole frame: the classifier
    is not consulted, the statistics are all zero, there is no segment, and
    [extractSpeechSegments] answers [speechFound = false] with the original
    buffer, whatever the samples and the thresholds. *)
Theorem short_audio_has_no_speech (engine : Engine) (original : ArrayBuffer)
    (wavInfo : WAVInfo F) (mono : Int16Array) (minDurationMs minProbability : F) :
  AudioService.parseWAVHeader original = Ok wavInfo ->
  AudioService.extractMonoAudio original wavInfo = Ok mono ->
  Z.of_nat (List.length mono) < VAD.HOP_SIZE ->
  VADService.processAudioWithVAD (Ok engine) processAudioFrame mono
    (of_Z (sampleRate wavInfo))
  = Ok ({| totalFrames := 0;
           speechFrames := 0;
           speechPercentage := of_Z 0;
           hasSpeech := false;
           avgProbability := of_Z 0;
           segments := [] |}, engine)
  /\ VADService.extractSpeechSegments (Ok engine) processAudioFrame original
       minDurationMs minProbability
     = Ok {| originalBuffer := original;
             processedBuffer := original;
             vadResult :=
               {| totalFrames := 0;
                  speechFrames := 0;
                  speechPercentage := of_Z 0;
                  hasSpeech := false;
                  avgProbability := of_Z 0;
                  segments := [] |};
             speechFound := false |}.
Proof.
  intros Hparse Hmono Hshort.
  assert (Hrun : VADService.processAudioWithVAD (Ok engine) processAudioFrame mono
                   (of_Z (sampleRate wavInfo))
                 = Ok ({| totalFrames := 0;
                          speechFrames := 0;
                          speechPercentage := of_Z 0;
                          hasSpeech := false;
                          avgProbability := of_Z 0;
                          segments := [] |}, engine)).
  { pose proof (processAudioWithVAD_absorbs processAudioFrame mono
                  (of_Z (sampleRate wavInfo)) engine) as Hrun.
    cbv zeta in Hrun. rewrite Hrun.
    replace (Z.of_nat (List.length mono) / VAD.HOP_SIZE) with 0
      by (symmetry; apply Z.div_small; unfold VAD.HOP_SIZE in *; lia).
    reflexivity. }
  split; [exact Hrun|].
  unfold VADService.extractSpeechSegments.
  rewrite Hparse, bind_Ok, Hmono, bind_Ok, Hrun, bind_Ok.
  reflexivity.
Qed.

End Short.

(* ================================================================== *)
(** * Instances of the further properties *)

Lemma created_container_header_witness :
  exists wavInfo : WAVInfo float,
    (buffer <- AudioService.createWAVBuffer [1; -2; 300] 16000 1 ;;
     AudioService.parseWAVHeader buffer) = Ok wavInfo
    /\ sampleRate wavInfo = 16000
    /\ channels wavInfo = 1
    /\ bitsPerSample wavInfo = 16
    /\ dataOffset wavInfo = 44
    /\ dataSize wavInfo = 2 * Z.of_nat (List.length [1; -2; 300]).
Proof.
  apply (created_container_header [1; -2; 300] 16000 1).
  - discriminate.
  - lia.
  - lia.
  - simpl. lia.
Defined.

Lemma parsed_header_ranges_witness :
  20 <= dataOffset (created_info (F := Q) 768 16000 1) < byteLength three_frames
  /\ dataOffset (created_info (F := Q) 768 16000 1) mod 2 = 0
  /\ 0 <= dataSize (created_info (F := Q) 768 16000 1) < 4294967296
  /\ 0 <= sampleRate (created_info (F := Q) 768 16000 1) < 4294967296
  /\ 0 <= channels (created_info (F := Q) 768 16000 1) < 65536
  /\ (bitsPerSample (created_info (F := Q) 768 16000 1) = 16
      \/ (bitsPerSample (created_info (F := Q) 768 16000 1) = 0
          /\ channels (created_info (F := Q) 768 16000 1) = 0
          /\ sampleRate (created_info (F := Q) 768 16000 1) = 0)).
Proof.
  apply (parsed_header_ranges three_frames (created_info 768 16000 1)).
  vm_compute. reflexivity.
Defined.

Lemma unsupported_format_is_rejected_witness :
  (1 <> 1 ->
   AudioService.parseWAVHeader (F := float) eight_bit_container
   = Throw (Error "Unsupported WAV format: only PCM is supported"))
  /\ (1 = 1 -> 8 <> 16 ->
      AudioService.parseWAVHeader (F := float) eight_bit_container
      = Throw (Error "Unsupported bit depth: only 16-bit is supported")).
Proof.
  apply (unsupported_format_is_rejected eight_bit_container [] AudioService.initial
           1 1 8000 8).
  - reflexivity.
  - reflexivity.
  - apply walk_done.
  - vm_compute. reflexivity.
  - reflexivity.
  - reflexivity.
  - reflexivity.
  - reflexivity.
  - reflexivity.
Defined.

Lemma format_error_responses_witness :
  (includes "Unsupported bit depth: only 16-bit is supported" "Invalid WAV file" = true
   /\ error_response "Unsupported bit depth: only 16-bit is supported"
      = (400, "INVALID_AUDIO_FORMAT"%string))
  \/ (includes "Unsupported bit depth: only 16-bit is supported" "Unsupported" = true
      /\ error_response "Unsupported bit depth: only 16-bit is supported"
         = (500, "PROCESSING_ERROR"%string)).
Proof.
  apply (format_error_responses (F := float) eight_bit_container).
  vm_compute. reflexivity.
Defined.

Lemma extracted_samples_witness :
  (data_region three_frames (created_info (F := Q) 768 16000 1) mod 2 = 1 ->
   AudioService.extractMonoAudio three_frames (created_info (F := Q) 768 16000 1)
   = Throw RangeError)
  /\ (data_region three_frames (created_info (F := Q) 768 16000 1) mod 2 = 0 ->
      exists samples : Int16Array,
        AudioService.extractMonoAudio three_frames (created_info (F := Q) 768 16000 1)
        = Ok samples
        /\ Forall is_int16 samples
        /\ Z.of_nat (List.length samples)
           = if 1 <? channels (created_info (F := Q) 768 16000 1)
             then data_region three_frames (created_info (F := Q) 768 16000 1) / 2
                  / channels (created_info (F := Q) 768 16000 1)
             else data_region three_frames (created_info (F := Q) 768 16000 1) / 2).
Proof.
  apply (extracted_samples three_frames (created_info 768 16000 1)).
  - vm_compute. discriminate.
  - vm_compute. discriminate.
Defined.

Lemma first_channel_is_kept_witness :
  (buffer <- AudioService.createWAVBuffer (List.concat stereo_blocks) 44100 2 ;;
   wavInfo <- AudioService.parseWAVHeader (F := float) buffer ;;
   AudioService.extractMonoAudio buffer wavInfo)
  = Ok (map (fun block => hd 0 block) stereo_blocks).
Proof.
  apply (first_channel_is_kept stereo_blocks 44100 2).
  - discriminate.
  - lia.
  - repeat constructor.
  - repeat constructor; unfold is_int16; lia.
  - simpl. lia.
Defined.

Lemma segment_samples_are_contiguous_witness :
  exists (r : VADResult Q) (engine' : Script Q),
    VADService.processAudioWithVAD (Ok two_of_three) replay (ramp 768) (16000 # 1)%Q
    = Ok (r, engine')
    /\ Forall (fun s => data s = slice (ramp 768) (startFrame s) (endFrame s))
         (segments r).
Proof.
  apply (segment_samples_are_contiguous replay (ramp 768) (16000 # 1)%Q two_of_three).
  vm_compute. repeat constructor.
Defined.

Lemma processed_buffer_parses_witness :
  exists (wavInfo wavInfo' : WAVInfo Q) (mono merged : Int16Array),
    AudioService.parseWAVHeader three_frames = Ok wavInfo
    /\ AudioService.extractMonoAudio three_frames wavInfo = Ok mono
    /\ AudioService.parseWAVHeader (processedBuffer three_frames_out) = Ok wavInfo'
    /\ sampleRate wavInfo' = sampleRate wavInfo
    /\ channels wavInfo' = 1
    /\ bitsPerSample wavInfo' = 16
    /\ AudioService.extractMonoAudio (processedBuffer three_frames_out) wavInfo' = Ok merged
    /\ merged
       = List.concat
           (map data (AudioService.filterSpeechSegments
                        (segments (vadResult three_frames_out)) (20 # 1)%Q (4 # 10)%Q))
    /\ merged <> []
    /\ (List.length merged <= List.length mono)%nat.
Proof.
  apply (processed_buffer_parses (Ok two_of_three) replay three_frames
           (20 # 1)%Q (4 # 10)%Q three_frames_out).
  - vm_compute. reflexivity.
  - vm_compute. reflexivity.
  - vm_compute. reflexivity.
Defined.

Lemma processAudioBuffer_fails_fast_witness :
  VADLoader.processAudioBuffer replay failing_script (ramp 768) (16000 # 1)%Q
  = Throw (Error "VAD processing failed with code: -1")
  /\ exists (r : VADResult Q) (engine' : Script Q),
       VADService.processAudioWithVAD (Ok failing_script) replay (ramp 768) (16000 # 1)%Q
       = Ok (r, engine').
Proof.
  apply (processAudioBuffer_fails_fast replay (ramp 768) (16000 # 1)%Q failing_script
           [speech (9 # 10)%Q] [silence (1 # 10)%Q]).
  - vm_compute. reflexivity.
  - repeat constructor.
Defined.

Lemma processAudioBuffer_spans_witness :
  exists r : VADLoader.BufferResult Q,
    VADLoader.processAudioBuffer replay two_of_three (ramp 768) (16000 # 1)%Q
    = Ok (r, fed replay two_of_three (frames (ramp 768)))
    /\ VADLoader.frames r = successes (classifications replay two_of_three (frames (ramp 768)))
    /\ Z.of_nat (List.length (VADLoader.frames r))
       = Z.of_nat (List.length (ramp 768)) / VAD.HOP_SIZE
    /\ List.length (VADLoader.speechSegments r)
       = speech_runs (speech_flags (classifications replay two_of_three
                                      (frames (ramp 768)))).
Proof.
  apply (processAudioBuffer_spans replay (ramp 768) (16000 # 1)%Q two_of_three).
  vm_compute. repeat constructor.
Defined.


Lemma short_audio_has_no_speech_witness :
  VADService.processAudioWithVAD (Ok two_of_three) replay [1; -2; 300]
    (of_Z (sampleRate (created_info (F := Q) 3 16000 1)))
  = Ok ({| totalFrames := 0;
           speechFrames := 0;
           speechPercentage := of_Z 0;
           hasSpeech := false;
           avgProbability := of_Z 0;
           segments := [] |}, two_of_three)
  /\ VADService.extractSpeechSegments (Ok two_of_three) replay short_container
       (200 # 1)%Q (4 # 10)%Q
     = Ok {| originalBuffer := short_container;
             processedBuffer := short_container;
             vadResult :=
               {| totalFrames := 0;
                  speechFrames := 0;
                  speechPercentage := of_Z 0;
                  hasSpeech := false;
                  avgProbability := of_Z 0;
                  segments := [] |};
             speechFound := false |}.
Proof.
  apply (short_audio_has_no_speech replay two_of_three short_container
           (created_info 3 16000 1) [1; -2; 300] (200 # 1)%Q (4 # 10)%Q).
  - vm_compute. reflexivity.
  - vm_compute. reflexivity.
  - vm_compute. reflexivity.
Defined.

Lemma createWAVBuffer_layout_witness :
  exists buffer : ArrayBuffer,
    AudioService.createWAVBuffer [1; -2; 300] 44100 2 = Ok buffer
    /\ byteLength buffer = 44 + 2 * Z.of_nat (List.length [1; -2; 300])
    /\ firstn 44 buffer
       = list_byte_of_string "RIFF"
         ++ le32 (36 + 2 * Z.of_nat (List.length [1; -2; 300]))
         ++ list_byte_of_string "WAVEfmt " ++ le32 16 ++ le16 1 ++ le16 2
         ++ le32 44100 ++ le32 (44100 * 2 * 2)
         ++ le16 (2 * 2) ++ le16 16
         ++ list_byte_of_string "data" ++ le32 (2 * Z.of_nat (List.length [1; -2; 300]))
    /\ skipn 44 buffer = int16_bytes [1; -2; 300].
Proof.
  apply (createWAVBuffer_layout [1; -2; 300] 44100 2).
  - simpl. lia.
  - simpl. lia.
  - simpl. lia.
Defined.

Lemma processAudioBuffer_span_times_witness :
  exists (r : VADLoader.BufferResult float) (engine' : Script float)
         (closed trailing : list (VADLoader.Span float)),
    VADLoader.processAudioBuffer replay speech_silence_speech (ramp 768) (of_Z 16000)
    = Ok (r, engine')
    /\ VADLoader.speechSegments r = closed ++ trailing
    /\ Forall (closed_span (of_Z 16000) (Z.of_nat (List.length (ramp 768)) / VAD.HOP_SIZE))
         closed
    /\ (trailing = []
        \/ exists i : Z,
             0 <= i < Z.of_nat (List.length (ramp 768)) / VAD.HOP_SIZE
             /\ trailing
                = [{| VADLoader.span_start := timestamp (of_Z 16000) i;
                      VADLoader.span_end :=
                        div (of_Z (Z.of_nat (List.length (ramp 768)))) (of_Z 16000);
                      VADLoader.span_duration :=
                        sub (div (of_Z (Z.of_nat (List.length (ramp 768)))) (of_Z 16000))
                            (timestamp (of_Z 16000) i) |}]).
Proof.
  apply (processAudioBuffer_span_times replay (ramp 768) (of_Z 16000)
           speech_silence_speech).
  vm_compute. repeat constructor.
Defined.

Lemma parse_without_data_chunk_witness :
  exists (ids : list string) (l : AudioService.locals),
    walk_from only_a_list_chunk AudioService.initial ids l
    /\ ((byteLength only_a_list_chunk - 8 <= AudioService.l_offset l
         /\ AudioService.parseWAVHeader (F := float) only_a_list_chunk
            = Throw (Error "Invalid WAV file: no data chunk found"))
        \/ (AudioService.l_offset l < byteLength only_a_list_chunk - 8
            /\ fourCC only_a_list_chunk (AudioService.l_offset l) = Ok "fmt "%string
            /\ exists e : exn,
                 AudioService.chunk_step only_a_list_chunk l = Throw e
                 /\ AudioService.parseWAVHeader (F := float) only_a_list_chunk = Throw e
                 /\ (e = RangeError
                     \/ e = Error "Unsupported WAV format: only PCM is supported"
                     \/ e = Error "Unsupported bit depth: only 16-bit is supported"))
        \/ (AudioService.l_offset l < byteLength only_a_list_chunk - 8
            /\ fourCC only_a_list_chunk (AudioService.l_offset l) = Ok "data"%string
            /\ exists wavInfo : WAVInfo float,
                 AudioService.parseWAVHeader only_a_list_chunk = Ok wavInfo
                 /\ dataOffset wavInfo = AudioService.l_offset l + 8)).
Proof.
  apply (parse_without_data_chunk (F := float) only_a_list_chunk).
  - reflexivity.
  - reflexivity.
Defined.

(** The claim of C4 as the design document states it fails on a container
    whose format chunk is cut short: it has its tags and no data chunk, the
    first iteration of the walk reads past the end of the buffer, and what
    [parseWAVHeader] throws is a [RangeError], none of its format errors. *)
Lemma truncated_fmt_is_a_RangeError :
  byteLength truncated_fmt = 24
  /\ fourCC truncated_fmt 0 = Ok "RIFF"%string
  /\ fourCC truncated_fmt 8 = Ok "WAVE"%string
  /\ fourCC truncated_fmt 12 = Ok "fmt "%string
  /\ AudioService.chunk_step truncated_fmt AudioService.initial = Throw RangeError
  /\ AudioService.parseWAVHeader (F := float) truncated_fmt = Throw RangeError
  /\ ~ In RangeError format_errors.
Proof.
  repeat (split; [vm_compute; reflexivity|]).
  intros Hin. cbn in Hin. decompose [or] Hin; (discriminate || contradiction).
Qed.


